(** * Household-appliance energy calculator: a shallow embedding

    Embedded modules of the repository:
    - [appliance_calculator/appliances.py]  (Appliance, Iron, TV, WashingMachine)
    - [appliance_calculator/calculator.py]  (EnergyCalculator)
    - [appliance_calculator/database.py]    (DatabaseManager)
    - [main.py]                             (the loop that saves the details)

    Python objects live in a heap of mutable records; methods are programs
    of a state-and-exception monad over that heap and the printed output, so
    that "does not mutate" is a statement about the final world and not a
    property of a type.

    Numbers are Python's: [bool], [int] (unbounded) and [float].  The float
    type is an interface with two instances: IEEE-754 binary64 (Rocq's
    primitive floats, with CPython's [round], [int / int] and [float(int)]),
    which is what the program runs on, and the rationals, over which the
    same code has no NaN and no representation error.  The bound on the
    cost against the energy is proved on binary64, from the definitions
    of the float operations in [SpecFloat].

    The SQLite engine is outside the repository: what it does at a
    statement (the values it stores, the keys it gives, what [commit]
    answers) is a parameter of the database code.

    Left out: the texts of the exceptions the code raises, the default value
    of [tariff_kwh], and the identity of the list object a calculator shares
    with its caller (nothing in the repository changes that list once the
    calculator exists). *)

From Stdlib Require Import ZArith QArith Qabs Qpower Floats Sorted Permutation.
From Stdlib Require Import Lia Lqa.
From stdpp Require Import base option list gmap strings.

#[local] Set Warnings "-register-all,-inexact-float".

Local Open Scope Z_scope.

(** ** Exceptions *)

(** The exception classes the embedded code can raise or catch.  The
    messages of the exceptions the code raises itself are fixed texts and
    are left out; the text of an [sqlite3.Error] is the engine's. *)
Inductive exn : Type :=
  | ValueError
  | TypeError
  | OverflowError
  | ZeroDivisionError
  | IndexError
  | AttributeError
  | sqlite3_Error (msg : string).

(** An evaluation either raises or returns. *)
Definition result (A : Type) : Type := exn + A.

Abbreviation Raise := (@inl exn _).
Abbreviation Return := (@inr exn _).

Definition rbind {A B} (m : result A) (k : A -> result B) : result B :=
  match m with
  | inl e => inl e
  | inr a => k a
  end.

Notation "'let?' x ':=' m 'in' k" := (rbind m (fun x => k))
  (at level 10, x pattern, m at level 100, k at level 200).

(** The specification's [ValidationError]: "bad constructor/method
    arguments".  The code signals it with [ValueError] and, for the
    appliance collection, with [TypeError]. *)
Definition ValidationError (e : exn) : Prop :=
  e = ValueError \/ e = TypeError.

(** ** Floating-point implementations *)

(** What the embedded code needs from a floating-point type. *)
Class FloatImpl (F : Type) : Type := {
  f_zero : F;                                   (* the literal 0.0 *)
  f_add : F -> F -> F;
  f_mul : F -> F -> F;
  f_div : F -> F -> F;                          (* divisor known non-zero *)
  f_is_zero : F -> bool;                        (* x == 0.0 *)
  f_compare : F -> F -> option comparison;      (* None: unordered (NaN) *)
  f_compare_Z : F -> Z -> option comparison;    (* float against int, exact *)
  f_of_Z : Z -> result F;                       (* int.__float__ *)
  f_truediv_Z : Z -> Z -> result F;             (* int / int, divisor non-zero *)
  f_round : F -> nat -> F                       (* round(x, ndigits), ndigits >= 0 *)
}.

(** Quotient of [n] by [d] (with [0 < d]) rounded to the nearest integer,
    ties to the even one. *)
Definition round_half_even (n d : Z) : Z :=
  let q := n / d in
  let r := n mod d in
  match 2 * r ?= d with
  | Lt => q
  | Gt => q + 1
  | Eq => if Z.even q then q else q + 1
  end.

Module Binary64.

(** An integer as an unrounded mantissa with exponent 0. *)
Definition exact_Z (z : Z) : spec_float :=
  match z with
  | Z0 => S754_zero false
  | Zpos p => S754_finite false p 0
  | Zneg p => S754_finite true p 0
  end.

(** [PyLong_AsDouble]: nearest double, ties to even; too large raises. *)
Definition of_Z (z : Z) : result float :=
  match binary_normalize prec emax z 0 false with
  | S754_infinity _ => Raise OverflowError
  | sf => Return (SF2Prim sf)
  end.

(** [long_true_divide]: the correctly rounded quotient of two ints. *)
Definition truediv_Z (a b : Z) : result float :=
  match SFdiv prec emax (exact_Z a) (exact_Z b) with
  | S754_infinity _ => Raise OverflowError
  | sf => Return (SF2Prim sf)
  end.

Definition compare (x y : float) : option comparison :=
  match PrimFloat.compare x y with
  | FEq => Some Eq
  | FLt => Some Lt
  | FGt => Some Gt
  | FNotComparable => None
  end.

(** Python compares a float with an int by value, without converting the
    int to a float. *)
Definition compare_Z (x : float) (z : Z) : option comparison :=
  match Prim2SF x with
  | S754_nan => None
  | S754_zero _ => Some (0 ?= z)
  | S754_infinity s => Some (if s then Lt else Gt)
  | S754_finite s m e =>
      let v := if s then Zneg m else Zpos m in
      if 0 <=? e then Some (v * 2 ^ e ?= z) else Some (v ?= z * 2 ^ (- e))
  end.

(** [float.__round__] with [ndigits >= 0] ([double_round] in CPython):
    the exact value is rounded to [ndigits] decimals, ties to even, and the
    decimal is converted back to the nearest double.  Zeros, infinities
    and NaN round to themselves; the sign of the argument is kept. *)
Definition round (x : float) (ndigits : nat) : float :=
  match Prim2SF x with
  | S754_finite s m e =>
      let p := 10 ^ Z.of_nat ndigits in
      let k := if 0 <=? e then Zpos m * p * 2 ^ e
               else round_half_even (Zpos m * p) (2 ^ (- e)) in
      match k with
      | Zpos k' => SF2Prim (SFdiv prec emax (S754_finite s k' 0) (exact_Z p))
      | _ => if s then neg_zero else zero
      end
  | _ => x
  end.

#[global] Instance impl : FloatImpl float := {|
  f_zero := zero;
  f_add := PrimFloat.add;
  f_mul := PrimFloat.mul;
  f_div := PrimFloat.div;
  f_is_zero := fun x => PrimFloat.eqb x zero;
  f_compare := compare;
  f_compare_Z := compare_Z;
  f_of_Z := of_Z;
  f_truediv_Z := truediv_Z;
  f_round := round
|}.

End Binary64.

(** Exact arithmetic: the same interface over the rationals.  It gives the
    real-number reading of the program, without representation error. *)
Module Exact.

Definition of_Z (z : Z) : result Q := Return (inject_Z z).

Definition truediv_Z (a b : Z) : result Q :=
  Return (Qred (inject_Z a / inject_Z b)).

Definition round (x : Q) (ndigits : nat) : Q :=
  let p := 10 ^ Z.of_nat ndigits in
  Qred (Qmake (round_half_even (Qnum x * p) (Zpos (Qden x))) (Z.to_pos p)).

#[global] Instance impl : FloatImpl Q := {|
  f_zero := 0%Q;
  f_add := fun x y => Qred (x + y);
  f_mul := fun x y => Qred (x * y);
  f_div := fun x y => Qred (x / y);
  f_is_zero := fun x => Qeq_bool x 0;
  f_compare := fun x y => Some (x ?= y)%Q;
  f_compare_Z := fun x z => Some (x ?= inject_Z z)%Q;
  f_of_Z := of_Z;
  f_truediv_Z := truediv_Z;
  f_round := round
|}.

End Exact.

(** ** Python values *)

Definition loc : Type := positive.

Section Python.

Context {F : Type} `{FloatImpl F}.

(** Python's numbers: [bool] is a subclass of [int], so a bool passes
    [isinstance(x, (int, float))] and counts as 0 or 1 in arithmetic. *)
Inductive number : Type :=
  | NBool (b : bool)
  | NInt (z : Z)
  | NFloat (f : F).

Inductive pyobj : Type :=
  | PyNone
  | PyNum (n : number)
  | PyStr (s : string)
  | PyList (xs : list pyobj)
  | PyRef (l : loc).

Definition int_value (n : number) : option Z :=
  match n with
  | NBool b => Some (Z.b2z b)
  | NInt z => Some z
  | NFloat _ => None
  end.

(** Conversion of an operand to a double ([CONVERT_TO_DOUBLE]). *)
Definition to_float (n : number) : result F :=
  match n with
  | NBool b => f_of_Z (Z.b2z b)
  | NInt z => f_of_Z z
  | NFloat f => Return f
  end.

(** [a / b]: true division; always a float. *)
Definition num_truediv (a b : number) : result number :=
  match int_value a, int_value b with
  | Some x, Some y =>
      if y =? 0 then Raise ZeroDivisionError
      else let? q := f_truediv_Z x y in Return (NFloat q)
  | _, _ =>
      let? x := to_float a in
      let? y := to_float b in
      if f_is_zero y then Raise ZeroDivisionError
      else Return (NFloat (f_div x y))
  end.

(** [a * b] and [a + b]: ints stay ints, anything else goes through
    doubles. *)
Definition num_mul (a b : number) : result number :=
  match int_value a, int_value b with
  | Some x, Some y => Return (NInt (x * y))
  | _, _ =>
      let? x := to_float a in
      let? y := to_float b in
      Return (NFloat (f_mul x y))
  end.

Definition num_add (a b : number) : result number :=
  match int_value a, int_value b with
  | Some x, Some y => Return (NInt (x + y))
  | _, _ =>
      let? x := to_float a in
      let? y := to_float b in
      Return (NFloat (f_add x y))
  end.

Definition num_compare (a b : number) : option comparison :=
  match a, b with
  | NFloat x, NFloat y => f_compare x y
  | NFloat x, _ => z ← int_value b; f_compare_Z x z
  | _, NFloat y => z ← int_value a; CompOpp <$> f_compare_Z y z
  | _, _ => x ← int_value a; y ← int_value b; Some (x ?= y)
  end.

(** [a < b] and [a <= b]; both are [False] when a NaN is involved. *)
Definition num_lt (a b : number) : bool :=
  match num_compare a b with
  | Some Lt => true
  | _ => false
  end.

Definition num_le (a b : number) : bool :=
  match num_compare a b with
  | Some Lt | Some Eq => true
  | _ => false
  end.

(** [round(a, ndigits)] for [ndigits >= 0]: an int (or bool) rounds to
    itself as an int, a float as its implementation says. *)
Definition py_round (a : number) (ndigits : nat) : number :=
  match a with
  | NBool b => NInt (Z.b2z b)
  | NInt z => NInt z
  | NFloat f => NFloat (f_round f ndigits)
  end.

End Python.

Arguments number : clear implicits.
Arguments pyobj : clear implicits.

(** ** The object heap and the monad of methods *)

Section Heap.

Context {F : Type} `{FloatImpl F}.

(** The three concrete classes, each with its descriptive attribute. *)
Inductive appliance_class : Type :=
  | Iron (_steam_booster : bool)
  | TV (_screen_size_inches : number F)
  | WashingMachine (_capacity_kg : number F).

(** An instance of (a subclass of) [Appliance].  The attributes are
    private and set once by [__init__], after its [isinstance] checks:
    the fields carry the types those checks establish. *)
Record Appliance : Type := mkAppliance {
  cls : appliance_class;
  _name : string;
  _power_consumption_watts : number F;
  _is_on : bool
}.

(** An instance of [EnergyCalculator].  [appliances] is the list the
    caller passed (no code of the repository changes that list after the
    calculator is built, so it is kept as a value). *)
Record EnergyCalculator : Type := mkEnergyCalculator {
  appliances : list (pyobj F);
  _tariff_kwh : number F
}.

Inductive object : Type :=
  | ObjAppliance (a : Appliance)
  | ObjCalculator (c : EnergyCalculator).

Record world : Type := mkWorld {
  heap : gmap loc object;
  stdout : list string               (* lines printed so far *)
}.

(** A method: it reads and writes the world, and raises or returns.
    What was written before a [raise] stays written. *)
Definition M (A : Type) : Type := world -> result A * world.

Definition ret {A} (a : A) : M A := fun w => (Return a, w).
Definition raise {A} (e : exn) : M A := fun w => (Raise e, w).
Definition bind {A B} (m : M A) (k : A -> M B) : M B :=
  fun w =>
    match m w with
    | (inl e, w') => (inl e, w')
    | (inr a, w') => k a w'
    end.
Definition lift {A} (r : result A) : M A := fun w => (r, w).

(** [print(line)] *)
Definition print (line : string) : M unit :=
  fun w => (Return tt, mkWorld (heap w) (stdout w ++ [line])).

(** Attribute access on an object that is not of the expected class is an
    [AttributeError]. *)
Definition get_appliance (self : loc) : M Appliance :=
  fun w =>
    match heap w !! self with
    | Some (ObjAppliance a) => (Return a, w)
    | _ => (Raise AttributeError, w)
    end.

Definition get_calculator (self : loc) : M EnergyCalculator :=
  fun w =>
    match heap w !! self with
    | Some (ObjCalculator c) => (Return c, w)
    | _ => (Raise AttributeError, w)
    end.

Definition store (self : loc) (o : object) : M unit :=
  fun w => (Return tt, mkWorld (<[self := o]> (heap w)) (stdout w)).

(** Object creation: a location the heap does not use yet. *)
Definition new (o : object) : M (pyobj F) :=
  fun w =>
    let l := fresh (dom (heap w)) in
    (Return (PyRef l), mkWorld (<[l := o]> (heap w)) (stdout w)).

(** [for x in xs: s = body(s, x)] *)
Fixpoint for_in {A S : Type} (xs : list A) (body : S -> A -> M S) (s : S)
  : M S :=
  match xs with
  | [] => ret s
  | x :: xs' => bind (body s x) (for_in xs' body)
  end.

End Heap.

Arguments Appliance : clear implicits.
Arguments appliance_class : clear implicits.
Arguments EnergyCalculator : clear implicits.
Arguments object : clear implicits.
Arguments world : clear implicits.
Arguments M : clear implicits.

Notation "'let!' x ':=' m 'in' k" := (bind m (fun x => k))
  (at level 10, x pattern, m at level 100, k at level 200).
Notation "'do!' m 'in' k" := (bind m (fun _ => k))
  (at level 10, m at level 100, k at level 200).

(** ** appliances.py *)

Section Appliances.

Context {F : Type} `{FloatImpl F}.

(** [Appliance.__init__]: the two checks, in the order of the source.
    It returns the validated [name] and [power_consumption_watts]. *)
Definition Appliance__init__ (name power_consumption_watts : pyobj F)
  : result (string * number F) :=
  match name with
  | PyStr s =>
      if String.eqb s "" then Raise ValueError
      else
        match power_consumption_watts with
        | PyNum p =>
            if num_le p (NInt 0) then Raise ValueError
            else Return (s, p)
        | _ => Raise ValueError
        end
  | _ => Raise ValueError
  end.

(** The read-only properties. *)
Definition name (self : loc) : M F string :=
  let! a := get_appliance self in ret (_name a).

Definition power_consumption_watts (self : loc) : M F (number F) :=
  let! a := get_appliance self in ret (_power_consumption_watts a).

Definition is_on (self : loc) : M F bool :=
  let! a := get_appliance self in ret (_is_on a).

Definition set_is_on (self : loc) (b : bool) : M F unit :=
  let! a := get_appliance self in
  store self
    (ObjAppliance (mkAppliance (cls a) (_name a) (_power_consumption_watts a) b)).

Definition turn_on (self : loc) : M F unit :=
  do! set_is_on self true in
  let! n := name self in
  print (String.append n " включен.").

Definition turn_off (self : loc) : M F unit :=
  do! set_is_on self false in
  let! n := name self in
  print (String.append n " выключен.").

(** [Iron(name, power_consumption_watts, steam_booster)]: the checks of
    [Appliance.__init__], then the check of the class.  The object enters
    the heap when all checks have passed (an object whose [__init__] raises
    is never seen by the caller). *)
Definition Iron__init__ (name power_consumption_watts steam_booster : pyobj F)
  : M F (pyobj F) :=
  let! (n, p) := lift (Appliance__init__ name power_consumption_watts) in
  match steam_booster with
  | PyNum (NBool b) => new (ObjAppliance (mkAppliance (Iron b) n p false))
  | _ => raise ValueError
  end.

(** [TV(name, power_consumption_watts, screen_size_inches)] *)
Definition TV__init__ (name power_consumption_watts screen_size_inches : pyobj F)
  : M F (pyobj F) :=
  let! (n, p) := lift (Appliance__init__ name power_consumption_watts) in
  match screen_size_inches with
  | PyNum s =>
      if num_le s (NInt 0) then raise ValueError
      else new (ObjAppliance (mkAppliance (TV s) n p false))
  | _ => raise ValueError
  end.

(** [WashingMachine(name, power_consumption_watts, capacity_kg)] *)
Definition WashingMachine__init__
  (name power_consumption_watts capacity_kg : pyobj F) : M F (pyobj F) :=
  let! (n, p) := lift (Appliance__init__ name power_consumption_watts) in
  match capacity_kg with
  | PyNum c =>
      if num_le c (NInt 0) then raise ValueError
      else new (ObjAppliance (mkAppliance (WashingMachine c) n p false))
  | _ => raise ValueError
  end.

(** [Iron.calculate_energy_consumption(hours)] *)
Definition Iron_calculate_energy_consumption (self : loc) (hours : pyobj F)
  : M F (number F) :=
  let! on := is_on self in
  if negb on then ret (NFloat f_zero)
  else
    match hours with
    | PyNum h =>
        if num_lt h (NInt 0) then raise ValueError
        else
          let! p := power_consumption_watts self in
          let! kw := lift (num_truediv p (NInt 1000)) in
          let! consumption_kwh := lift (num_mul kw h) in
          ret consumption_kwh
    | _ => raise ValueError
    end.

(** [TV.calculate_energy_consumption(hours)] *)
Definition TV_calculate_energy_consumption (self : loc) (hours : pyobj F)
  : M F (number F) :=
  let! on := is_on self in
  if negb on then ret (NFloat f_zero)
  else
    match hours with
    | PyNum h =>
        if num_lt h (NInt 0) then raise ValueError
        else
          let! p := power_consumption_watts self in
          let! kw := lift (num_truediv p (NInt 1000)) in
          let! consumption_kwh := lift (num_mul kw h) in
          ret consumption_kwh
    | _ => raise ValueError
    end.

(** [WashingMachine.calculate_energy_consumption(hours)] *)
Definition WashingMachine_calculate_energy_consumption
  (self : loc) (hours : pyobj F) : M F (number F) :=
  let! on := is_on self in
  if negb on then ret (NFloat f_zero)
  else
    match hours with
    | PyNum h =>
        if num_lt h (NInt 0) then raise ValueError
        else
          let! p := power_consumption_watts self in
          let! kw := lift (num_truediv p (NInt 1000)) in
          let! consumption_kwh := lift (num_mul kw h) in
          ret consumption_kwh
    | _ => raise ValueError
    end.

(** The abstract method: the call goes to the implementation of the
    object's class. *)
Definition calculate_energy_consumption (self : loc) (hours : pyobj F)
  : M F (number F) :=
  let! a := get_appliance self in
  match cls a with
  | Iron _ => Iron_calculate_energy_consumption self hours
  | TV _ => TV_calculate_energy_consumption self hours
  | WashingMachine _ => WashingMachine_calculate_energy_consumption self hours
  end.

End Appliances.

(** ** calculator.py *)

Section Calculator.

Context {F : Type} `{FloatImpl F}.

(** One element of the ["details"] list: the dict with the keys
    ["name"], ["consumption_kwh"] and ["cost"]. *)
Record detail : Type := mkDetail {
  d_name : string;
  d_consumption_kwh : number F;
  d_cost : number F
}.

(** The dict [calculate_total_consumption_and_cost] returns. *)
Record CalculationResult : Type := mkResult {
  total_consumption_kwh : number F;
  total_cost : number F;
  details : list detail
}.

(** [isinstance(app, Appliance)] *)
Definition isinstance_Appliance (app : pyobj F) : M F bool :=
  fun w =>
    match app with
    | PyRef l =>
        match heap w !! l with
        | Some (ObjAppliance _) => (Return true, w)
        | _ => (Return false, w)
        end
    | _ => (Return false, w)
    end.

(** [all(isinstance(app, Appliance) for app in appliances)] *)
Fixpoint all_isinstance_Appliance (apps : list (pyobj F)) : M F bool :=
  match apps with
  | [] => ret true
  | app :: apps' =>
      let! ok := isinstance_Appliance app in
      if ok then all_isinstance_Appliance apps' else ret false
  end.

(** [EnergyCalculator(appliances, tariff_kwh)].  (The default value of
    [tariff_kwh] is not modelled: the argument is always given.) *)
Definition EnergyCalculator__init__ (appliances tariff_kwh : pyobj F)
  : M F (pyobj F) :=
  match appliances with
  | PyList apps =>
      let! ok := all_isinstance_Appliance apps in
      if negb ok then raise TypeError
      else
        match tariff_kwh with
        | PyNum t =>
            if num_lt t (NInt 0) then raise ValueError
            else new (ObjCalculator (mkEnergyCalculator apps t))
        | _ => raise ValueError
        end
  | _ => raise TypeError
  end.

(** The [tariff_kwh] property: getter and setter. *)
Definition tariff_kwh (self : loc) : M F (number F) :=
  let! c := get_calculator self in ret (_tariff_kwh c).

Definition set_tariff_kwh (self : loc) (value : pyobj F) : M F unit :=
  match value with
  | PyNum v =>
      if num_lt v (NInt 0) then raise ValueError
      else
        let! c := get_calculator self in
        store self (ObjCalculator (mkEnergyCalculator (appliances c) v))
  | _ => raise ValueError
  end.

(** The local variables of the loop: [total_consumption_kwh],
    [total_cost] and [detailed_results]. *)
Definition locals : Type := number F * number F * list detail.

(** The body of [for appliance in self.appliances]. *)
Definition loop_body (self : loc) (period_hours : pyobj F)
  (vars : locals) (appliance : pyobj F) : M F locals :=
  let '(total_consumption_kwh, total_cost, detailed_results) := vars in
  match appliance with
  | PyRef a =>
      let! on := is_on a in
      if on then
        let! consumption_kwh := calculate_energy_consumption a period_hours in
        let! t := tariff_kwh self in
        let! cost := lift (num_mul consumption_kwh t) in
        let! total_consumption_kwh :=
          lift (num_add total_consumption_kwh consumption_kwh) in
        let! total_cost := lift (num_add total_cost cost) in
        let! n := name a in
        ret (total_consumption_kwh, total_cost,
             detailed_results ++
               [mkDetail n (py_round consumption_kwh 3) (py_round cost 2)])
      else
        let! n := name a in
        ret (total_consumption_kwh, total_cost,
             detailed_results ++ [mkDetail n (NFloat f_zero) (NFloat f_zero)])
  | _ => raise AttributeError
  end.

(** [EnergyCalculator.calculate_total_consumption_and_cost(period_hours)] *)
Definition calculate_total_consumption_and_cost
  (self : loc) (period_hours : pyobj F) : M F CalculationResult :=
  match period_hours with
  | PyNum p =>
      if num_lt p (NInt 0) then raise ValueError
      else
        let! c := get_calculator self in
        let! (total_consumption_kwh, total_cost, detailed_results) :=
          for_in (appliances c) (loop_body self period_hours)
                 (NFloat f_zero, NFloat f_zero, []) in
        ret (mkResult (py_round total_consumption_kwh 3)
                      (py_round total_cost 2)
                      detailed_results)
  | _ => raise ValueError
  end.

End Calculator.

Arguments detail : clear implicits.
Arguments CalculationResult : clear implicits.

(** ** database.py *)

Module Database.
Section Database.

Context {F : Type}.

(** A value as [sqlite3] hands it to Python. *)
Inductive sqlval : Type :=
  | SqlNull
  | SqlInteger (z : Z)
  | SqlReal (f : F)
  | SqlText (s : string).

(** A row of the table [consumption_records], as [_create_table] declares
    it.  [timestamp] is [TEXT NOT NULL] and written from
    [datetime.now().isoformat()]. *)
Record row : Type := mkRow {
  id : Z;
  appliance_name : string;
  power_consumption_watts : sqlval;
  hours_used : sqlval;
  consumption_kwh : sqlval;
  cost : sqlval;
  tariff : sqlval;
  timestamp : string
}.

(** The SQLite engine is an external collaborator.  What [get_all_records]
    sees of it is the cursor: either every [execute] raises
    [sqlite3.Error] (closed connection, missing table, unreadable file), or
    the table can be read. *)
Inductive cursor : Type :=
  | Unreadable (error : string)
  | Readable (consumption_records : list row).

(** [ORDER BY timestamp DESC] under SQLite's default (byte-wise) collation:
    a row goes before the rows whose timestamp is not greater.  Rows with
    equal timestamps keep their table order. *)
Fixpoint insert_desc (r : row) (sorted : list row) : list row :=
  match sorted with
  | [] => [r]
  | x :: xs =>
      if String.leb (timestamp x) (timestamp r) then r :: x :: xs
      else x :: insert_desc r xs
  end.

Fixpoint order_by_timestamp_desc (rows : list row) : list row :=
  match rows with
  | [] => []
  | r :: rows' => insert_desc r (order_by_timestamp_desc rows')
  end.

(** The tuple [fetchall] yields for a row of [SELECT *]. *)
Definition as_tuple (r : row) : list sqlval :=
  [SqlInteger (id r); SqlText (appliance_name r); power_consumption_watts r;
   hours_used r; consumption_kwh r; cost r; tariff r; SqlText (timestamp r)].

(** [cursor.description], first components. *)
Definition column_names : list string :=
  ["id"; "appliance_name"; "power_consumption_watts"; "hours_used";
   "consumption_kwh"; "cost"; "tariff"; "timestamp"].

(** [execute("SELECT * FROM consumption_records ORDER BY timestamp DESC")]
    followed by [fetchall()] and the reading of [description]. *)
Definition execute_select_all (c : cursor)
  : result (list (list sqlval) * list string) :=
  match c with
  | Unreadable error => Raise (sqlite3_Error error)
  | Readable t =>
      Return (map as_tuple (order_by_timestamp_desc t), column_names)
  end.

(** A record as [get_all_records] returns it: a dict from column name to
    value. *)
Definition record_dict : Type := gmap string sqlval.

(** [for i, col_name in enumerate(column_names):
       record_dict[col_name] = row[i]] *)
Fixpoint fill_record (tuple : list sqlval) (i : nat) (cols : list string)
  (d : record_dict) : result record_dict :=
  match cols with
  | [] => Return d
  | col_name :: cols' =>
      match tuple !! i with
      | Some v => fill_record tuple (S i) cols' (<[col_name := v]> d)
      | None => Raise IndexError
      end
  end.

(** [for row in rows: ...; results.append(record_dict)] *)
Fixpoint convert_rows (rows : list (list sqlval)) (cols : list string)
  (results : list record_dict) : result (list record_dict) :=
  match rows with
  | [] => Return results
  | tuple :: rows' =>
      let? d := fill_record tuple 0 cols ∅ in
      convert_rows rows' cols (results ++ [d])
  end.

(** [DatabaseManager.get_all_records]: the [try] body, and the handler
    that turns an [sqlite3.Error] into a printed line and an empty list.
    It returns the value (or the exception that is not caught) and the
    lines printed. *)
Definition get_all_records (self_cursor : cursor)
  : result (list record_dict) * list string :=
  let body :=
    let? (rows, names) := execute_select_all self_cursor in
    convert_rows rows names [] in
  match body with
  | inl (sqlite3_Error e) =>
    (Return [], [String.append "Ошибка при получении записей: " e])
  | other => (other, [])
  end.

(** The dict of a row. *)
Definition dict_of_row (r : row) : record_dict :=
  list_to_map (zip column_names (as_tuple r)).

(** Newest first. *)
Definition newer_or_equal (a b : row) : Prop :=
  String.leb (timestamp b) (timestamp a) = true.

End Database.
End Database.

Arguments Database.sqlval : clear implicits.
Arguments Database.row : clear implicits.
Arguments Database.cursor : clear implicits.
Arguments Database.record_dict : clear implicits.

(** ** The specification's reading of the operations *)

Section Reading.

Context {F : Type} `{FloatImpl F}.

(** [0 <= h] and [h < 0], as Python evaluates them. *)
Definition non_negative (h : number F) : Prop := num_le (NInt 0) h = true.
Definition negative (h : number F) : Prop := num_lt h (NInt 0) = true.
Definition positive_number (p : number F) : Prop := num_lt (NInt 0) p = true.

(** Section 4.1: [0] when off, [(powerWatts / 1000) * hours] when on. *)
Definition computeEnergy (a : Appliance F) (hours : number F)
  : result (number F) :=
  if _is_on a then
    let? kw := num_truediv (_power_consumption_watts a) (NInt 1000) in
    num_mul kw hours
  else Return (NFloat f_zero).

(** Section 4.2, [computeTotal]: what one appliance adds to the totals
    (nothing when it is off) and its detail entry. *)
Definition contribution (tariff period : number F) (a : Appliance F)
  : result (option (number F * number F)) :=
  if _is_on a then
    let? energy := computeEnergy a period in
    let? cost := num_mul energy tariff in
    Return (Some (energy, cost))
  else Return None.

Definition detail_of (a : Appliance F) (c : option (number F * number F))
  : detail F :=
  match c with
  | Some (energy, cost) =>
      mkDetail (_name a) (py_round energy 3) (py_round cost 2)
  | None => mkDetail (_name a) (NFloat f_zero) (NFloat f_zero)
  end.

Fixpoint contributions (tariff period : number F) (apps : list (Appliance F))
  : result (list (option (number F * number F))) :=
  match apps with
  | [] => Return []
  | a :: apps' =>
      let? c := contribution tariff period a in
      let? cs := contributions tariff period apps' in
      Return (c :: cs)
  end.

(** A running total: it starts at [0.0] and takes the values in order. *)
Definition running_total_from (start : number F) (xs : list (number F))
  : result (number F) :=
  fold_left (fun total x => let? t := total in num_add t x) xs (Return start).

Definition running_total (xs : list (number F)) : result (number F) :=
  running_total_from (NFloat f_zero) xs.

Definition computeTotal (tariff period : number F) (apps : list (Appliance F))
  : result (CalculationResult F) :=
  let? cs := contributions tariff period apps in
  let? energy := running_total (map fst (omap id cs)) in
  let? cost := running_total (map snd (omap id cs)) in
  Return (mkResult (py_round energy 3) (py_round cost 2)
                   (zip_with detail_of apps cs)).

(** The object at a location is an appliance. *)
Definition appliance_at (w : world F) (l : loc) (a : Appliance F) : Prop :=
  heap w !! l = Some (ObjAppliance a).

Definition calculator_at (w : world F) (l : loc) (c : EnergyCalculator F)
  : Prop :=
  heap w !! l = Some (ObjCalculator c).

(** [isinstance(x, Appliance)] holds of [x] in [w]. *)
Definition is_Appliance (w : world F) (x : pyobj F) : Prop :=
  exists l a, x = PyRef l /\ appliance_at w l a.

(** What [Appliance.__init__] lets through: a non-empty string and a
    number for which [power <= 0] is false. *)
Definition base_arguments_ok (nm power : pyobj F) : Prop :=
  exists s p, nm = PyStr s /\ s <> "" /\ power = PyNum p
              /\ num_le p (NInt 0) = false.

(** An appliance with its switch set. *)
Definition switched (a : Appliance F) (on : bool) : Appliance F :=
  mkAppliance (cls a) (_name a) (_power_consumption_watts a) on.

(** The world after a switch of the appliance at [l]: the object with its
    new state, and one more printed line. *)
Definition after_switch (w : world F) (l : loc) (a : Appliance F) (on : bool)
  : world F :=
  mkWorld (<[l := ObjAppliance (switched a on)]> (heap w))
          (stdout w ++
             [String.append (_name a) (if on then " включен." else " выключен.")]).

(** A method that leaves the world as it found it. *)
Definition read_only {A} (m : M F A) : Prop := forall w, (m w).2 = w.

End Reading.

(** ** Example worlds *)

Section Examples.

Context {F : Type} `{FloatImpl F}.

(** A heap with an iron at location 1, a TV at 2, a washing machine at 3
    and a calculator over the three at 4. *)
Definition household (iron tv washer : Appliance F) (tariff : number F)
  : world F :=
  mkWorld
    (<[4%positive :=
         ObjCalculator
           (mkEnergyCalculator
              [PyRef 1%positive; PyRef 2%positive; PyRef 3%positive] tariff)]>
     (<[3%positive := ObjAppliance washer]>
     (<[2%positive := ObjAppliance tv]>
     (<[1%positive := ObjAppliance iron]> ∅))))
    [].

Definition iron_of (power : number F) (on : bool) : Appliance F :=
  mkAppliance (Iron false) "Утюг" power on.

Definition tv_of (power : number F) (on : bool) : Appliance F :=
  mkAppliance (TV (NInt 55)) "Телевизор" power on.

Definition washer_of (power : number F) (on : bool) : Appliance F :=
  mkAppliance (WashingMachine (NInt 7)) "Стиральная машина" power on.

End Examples.

(** The iron and the washing machine switched on or off together, the TV
    off, at 0.15 per kWh; in binary64. *)
Definition two_kilowatt_household (on : bool) : world float :=
  household (iron_of (NInt 2000) on) (tv_of (NInt 150) false)
            (washer_of (NFloat 2200%float) on) (NFloat 0.15%float).

(** A one-watt iron, the only appliance that is on, at 1000 per kWh. *)
Definition one_watt_household {F : Type} `{FloatImpl F} : world F :=
  household (iron_of (NInt 1) true) (tv_of (NInt 150) false)
            (washer_of (NInt 2200) false) (NInt 1000).

(** Two appliances of 1e17 W and 3e17 W that are on, at 0.7 per kWh: sizes
    at which the floats are far apart. *)
Definition huge_household : world float :=
  household (iron_of (NFloat 1e17%float) true) (tv_of (NInt 150) false)
            (washer_of (NFloat 3e17%float) true) (NFloat 0.7%float).

Definition empty_world {F : Type} : world F := mkWorld ∅ [].

(** Section 8, first scenario: one appliance of 2000 W, switched on, at
    0.15 per kWh, over 2 hours; built the way [main.py] builds it. *)
Definition scenario_one_appliance : M float (CalculationResult float) :=
  let! iron :=
    Iron__init__ (PyStr "Утюг") (PyNum (NInt 2000)) (PyNum (NBool false)) in
  match iron with
  | PyRef l =>
      do! turn_on l in
      let! calculator :=
        EnergyCalculator__init__ (PyList [iron]) (PyNum (NFloat 0.15%float)) in
      match calculator with
      | PyRef c => calculate_total_consumption_and_cost c (PyNum (NInt 2))
      | _ => raise AttributeError
      end
  | _ => raise AttributeError
  end.

(** Section 8, second scenario: a TV of 1000 W that is on and a washing
    machine that is off, at 0.20 per kWh, over 1 hour. *)
Definition scenario_one_on_one_off : M float (CalculationResult float) :=
  let! tv := TV__init__ (PyStr "Телевизор") (PyNum (NInt 1000)) (PyNum (NInt 55)) in
  let! washer :=
    WashingMachine__init__ (PyStr "Стиральная машина") (PyNum (NInt 2200))
      (PyNum (NInt 7)) in
  match tv with
  | PyRef l =>
      do! turn_on l in
      let! calculator :=
        EnergyCalculator__init__ (PyList [tv; washer])
          (PyNum (NFloat 0.2%float)) in
      match calculator with
      | PyRef c => calculate_total_consumption_and_cost c (PyNum (NInt 1))
      | _ => raise AttributeError
      end
  | _ => raise AttributeError
  end.

(** Three stored records, the middle one written last. *)
Definition three_records : list (Database.row float) :=
  [Database.mkRow 1 "Утюг" (Database.SqlInteger 2000) (Database.SqlReal 2%float)
     (Database.SqlReal 4%float) (Database.SqlReal 0.6%float)
     (Database.SqlReal 0.15%float) "2024-05-01T10:00:00";
   Database.mkRow 2 "Телевизор" (Database.SqlInteger 150)
     (Database.SqlReal 2%float) (Database.SqlReal 0.3%float)
     (Database.SqlReal 0.05%float) (Database.SqlReal 0.15%float)
     "2024-05-01T10:00:00.250000";
   Database.mkRow 3 "Утюг" (Database.SqlInteger 2000) (Database.SqlReal 1%float)
     (Database.SqlReal 2%float) (Database.SqlReal 0.3%float)
     (Database.SqlReal 0.15%float) "2024-04-30T23:59:59.999999"].

(** ** calculator.py and database.py: the remaining methods *)

Section CalculatorLength.

Context {F : Type} `{FloatImpl F}.

(** [EnergyCalculator.__len__] *)
Definition EnergyCalculator__len__ (self : loc) : M F nat :=
  let! c := get_calculator self in ret (length (appliances c)).

End CalculatorLength.

Module DatabaseManager.
Section DatabaseManager.

Context {F : Type}.

Import Database.

(** [s.endswith(suffix)] *)
Definition endswith (s suffix : string) : bool :=
  let n := String.length s in
  let m := String.length suffix in
  (m <=? n)%nat && String.eqb (String.substring (n - m) m s) suffix.

(** What [sqlite3] finds behind a file name (the engine is external):
    [connect] raises, or the first statement raises, or the file has no
    table [consumption_records] yet, or it has one, with its rows. *)
Inductive db_file : Type :=
  | CannotOpen (error : string)
  | CannotCreateTable (error : string)
  | NoTable
  | HasTable (consumption_records : list (row F)).

(** An instance of [DatabaseManager]: [_conn] and [_cursor] are two views
    of the one connection.  The table of a readable cursor is the table as
    this connection reads it, with the rows it has inserted, committed or
    not. *)
Record manager : Type := mkManager {
  db_name : string;
  _cursor : cursor F
}.

(** [DatabaseManager._connect]: the connection, or the error printed and
    raised again. *)
Definition _connect (file : db_file) : result db_file * list string :=
  match file with
  | CannotOpen e =>
      (Raise (sqlite3_Error e),
       [String.append "Ошибка подключения к базе данных: " e])
  | _ => (Return file, [])
  end.

(** [DatabaseManager._create_table]: [CREATE TABLE IF NOT EXISTS] and
    [commit].  Without a connection [self._cursor] is [None], which has no
    [execute]; [__init__] never gets there. *)
Definition _create_table (conn : db_file) : result (cursor F) * list string :=
  match conn with
  | CannotOpen _ => (Raise AttributeError, [])
  | CannotCreateTable e =>
      (Raise (sqlite3_Error e),
       [String.append "Ошибка при создании таблицы: " e])
  | NoTable => (Return (Readable []), [])
  | HasTable t => (Return (Readable t), [])
  end.

(** [DatabaseManager(db_name)]; [open_file] is the file system as
    [sqlite3.connect] sees it.  (The default name is not modelled.) *)
Definition DatabaseManager__init__
  (name : pyobj F) (open_file : string -> db_file)
  : result manager * list string :=
  match name with
  | PyStr s =>
      if negb (endswith s ".db") then (Raise ValueError, [])
      else
        match _connect (open_file s) with
        | (inl e, out) => (Raise e, out)
        | (inr conn, out) =>
            match _create_table conn with
            | (inl e, out') => (Raise e, out ++ out')
            | (inr c, out') => (Return (mkManager s c), out ++ out')
            end
        end
  | _ => (Raise ValueError, [])
  end.

(** The five numbers of a record, as the engine binds and stores them
    (type adaptation, column affinity, [NOT NULL]): the engine's business,
    it may raise. *)
Definition numbers : Type :=
  number F * number F * number F * number F * number F.

Definition stored_numbers : Type :=
  sqlval F * sqlval F * sqlval F * sqlval F * sqlval F.

Variable adapt : numbers -> result stored_numbers.

(** The [AUTOINCREMENT] key the engine gives to the next row. *)
Variable next_rowid : list (row F) -> Z.

(** [execute("INSERT INTO consumption_records ...")]: the row enters the
    table as the connection reads it; it is not committed yet. *)
Definition execute_insert (c : cursor F) (appliance_name : string)
  (values : numbers) (timestamp : string) : result (cursor F) :=
  match c with
  | Unreadable e => Raise (sqlite3_Error e)
  | Readable t =>
      let? (power, hours, consumption, cost, tariff) := adapt values in
      Return (Readable (t ++ [mkRow (next_rowid t) appliance_name power hours
                                consumption cost tariff timestamp]))
  end.

(** What [self._conn.commit()] does, which is the engine's business.  It
    returns; or it raises [sqlite3.Error] and leaves the transaction open
    (a locked database), and the connection goes on reading the rows it has
    inserted; or it raises and the engine rolls the transaction back (a full
    disk, an I/O error), and the connection reads the table that leaves. *)
Inductive commit_answer : Type :=
  | Committed
  | StillOpen (error : string)
  | RolledBack (error : string) (consumption_records : list (row F)).

(** [self._conn.commit()], called with the cursor the [INSERT] left. *)
Definition commit (answer : commit_answer) (c : cursor F)
  : result unit * cursor F :=
  match answer with
  | Committed => (Return tt, c)
  | StillOpen e => (Raise (sqlite3_Error e), c)
  | RolledBack e t => (Raise (sqlite3_Error e), Readable t)
  end.

(** [DatabaseManager.save_record]; [now] is what
    [datetime.datetime.now().isoformat()] gives and [answer] what [commit]
    does if the call gets to it.  The [INSERT] and the [commit] are two
    statements of the [try]: an [sqlite3.Error] of either is printed and
    raised again, and when it is the [commit] that raises the [INSERT] has
    been done.  Any other exception passes through. *)
Definition save_record (self : manager) (now : string)
  (answer : commit_answer) (appliance_name : string)
  (power_consumption_watts hours_used consumption_kwh cost tariff : number F)
  : result unit * manager * list string :=
  let timestamp := now in
  match execute_insert (_cursor self) appliance_name
          (power_consumption_watts, hours_used, consumption_kwh, cost, tariff)
          timestamp with
  | inr c =>
      match commit answer c with
      | (inr _, c') =>
          (Return tt, mkManager (db_name self) c',
           [String.append "Запись сохранена в БД: " appliance_name])
      | (inl (sqlite3_Error e), c') =>
          (Raise (sqlite3_Error e), mkManager (db_name self) c',
           [String.append "Ошибка при сохранении записи: " e])
      | (inl e, c') => (Raise e, mkManager (db_name self) c', [])
      end
  | inl (sqlite3_Error e) =>
      (Raise (sqlite3_Error e), self,
       [String.append "Ошибка при сохранении записи: " e])
  | inl e => (Raise e, self, [])
  end.

(** What a closed connection answers to every statement. *)
Definition closed_database : string := "Cannot operate on a closed database.".

(** [DatabaseManager.close]: a connection object is always true, so the
    connection is closed and the line is printed, every time. *)
Definition close (self : manager) : manager * list string :=
  (mkManager (db_name self) (Unreadable closed_database),
   ["Соединение с БД закрыто."]).

End DatabaseManager.
End DatabaseManager.

Arguments DatabaseManager.db_file : clear implicits.
Arguments DatabaseManager.manager : clear implicits.
Arguments DatabaseManager.numbers : clear implicits.
Arguments DatabaseManager.stored_numbers : clear implicits.
Arguments DatabaseManager.commit_answer : clear implicits.

(** ** main.py: saving the details of a calculation *)

Section Main.

Context {F : Type} `{FloatImpl F}.

Variable adapt :
  DatabaseManager.numbers F -> result (DatabaseManager.stored_numbers F).
Variable next_rowid : list (Database.row F) -> Z.

(** The clock: what the [k]-th call of [datetime.datetime.now().isoformat()]
    gives. *)
Variable clock : nat -> string.

(** What [commit] does in the [k]-th call of [save_record], if that call
    gets to it. *)
Variable commits : nat -> DatabaseManager.commit_answer F.

(** [str(e)] of a caught exception. *)
Variable exn_text : exn -> string.

(** [next((app for app in appliance_objects if app.name == name), None)] *)
Fixpoint next_named (appliance_objects : list (pyobj F)) (wanted : string)
  : M F (option loc) :=
  match appliance_objects with
  | [] => ret None
  | PyRef app :: rest =>
      let! n := name app in
      if String.eqb n wanted then ret (Some app) else next_named rest wanted
  | _ :: _ => raise AttributeError
  end.

Fixpoint print_all (lines : list string) : M F unit :=
  match lines with
  | [] => ret tt
  | line :: lines' => do! print line in print_all lines'
  end.

(** [try: body except Exception as e: handler(e)] *)
Definition try_except {A} (body : M F A) (handler : exn -> M F A) : M F A :=
  fun w =>
    match body w with
    | (inl e, w') => handler e w'
    | (inr a, w') => (Return a, w')
    end.

Definition could_not_save (d : detail F) (e : exn) : string :=
  String.append "Не удалось сохранить запись для "
    (String.append (d_name d) (String.append " в БД: " (exn_text e))).

(** The body of [for detail in calculation_results['details']] in [main]
    (the branch where the manager exists).  The state of the loop is the
    manager and the number of calls of [save_record] so far, each of which
    reads the clock once. *)
Definition save_detail (calculator : loc) (appliance_objects : list (pyobj F))
  (period_hours : number F) (state : DatabaseManager.manager F * nat)
  (d : detail F) : M F (DatabaseManager.manager F * nat) :=
  let '(db_manager, tick) := state in
  let! appliance_obj := next_named appliance_objects (d_name d) in
  match appliance_obj with
  | Some a =>
      try_except
        (let! power := power_consumption_watts a in
         let! tariff := tariff_kwh calculator in
         match DatabaseManager.save_record adapt next_rowid db_manager
                 (clock tick) (commits tick) (d_name d) power period_hours
                 (d_consumption_kwh d) (d_cost d) tariff with
         | (inr _, db_manager', out) =>
             do! print_all out in ret (db_manager', S tick)
         | (inl e, db_manager', out) =>
             do! print_all out in
             do! print (could_not_save d e) in
             ret (db_manager', S tick)
         end)
        (fun e => do! print (could_not_save d e) in ret (db_manager, tick))
  | None =>
      do! print
            (String.append
               "Предупреждение: не найден объект для сохранения записи о "
               (String.append (d_name d) " в БД.")) in
      ret (db_manager, tick)
  end.

(** The loop over the details. *)
Definition save_details (calculator : loc) (appliance_objects : list (pyobj F))
  (period_hours : number F) (ds : list (detail F))
  (state : DatabaseManager.manager F * nat)
  : M F (DatabaseManager.manager F * nat) :=
  for_in ds (save_detail calculator appliance_objects period_hours) state.

End Main.

(** An engine, a clock and exception texts to run the database code on.
    The engine stores numbers by the affinity of their column, as SQLite
    does for the table [_create_table] declares: [power_consumption_watts]
    is [INTEGER], and a float that is a whole number is stored there as
    that integer; the other four are [REAL], and an integer is stored there
    as a float.  A NaN is bound as [NULL], which [NOT NULL] refuses; an
    integer outside 64 bits is refused by the binding.  Keys count up from
    the largest one, the clock ticks once a second. *)
Definition whole_number (f : float) : option Z :=
  match Prim2SF f with
  | S754_zero _ => Some 0
  | S754_finite s m e =>
      let v := if s then Zneg m else Zpos m in
      if 0 <=? e then Some (v * 2 ^ e)
      else if Zpos m mod 2 ^ (- e) =? 0 then Some (v / 2 ^ (- e))
      else None
  | _ => None
  end.

Definition not_null_failed (column : string) : exn :=
  sqlite3_Error
    (String.append "NOT NULL constraint failed: consumption_records." column).

(** The binding of a parameter: an [int] has to fit 64 bits. *)
Definition bind_number (n : number float) : result unit :=
  match n with
  | NInt z =>
      if (- 2 ^ 63 <=? z) && (z <? 2 ^ 63) then Return tt
      else Raise OverflowError
  | _ => Return tt
  end.

Definition example_store_integer (column : string) (n : number float)
  : result (Database.sqlval float) :=
  match n with
  | NBool b => Return (Database.SqlInteger (Z.b2z b))
  | NInt z => Return (Database.SqlInteger z)
  | NFloat f =>
      if PrimFloat.is_nan f then Raise (not_null_failed column)
      else
        match whole_number f with
        | Some z =>
            if (- 2 ^ 63 <? z) && (z <? 2 ^ 63 - 1)
            then Return (Database.SqlInteger z)
            else Return (Database.SqlReal f)
        | None => Return (Database.SqlReal f)
        end
  end.

Definition example_store_real (column : string) (n : number float)
  : result (Database.sqlval float) :=
  match n with
  | NBool b =>
      let? f := Binary64.of_Z (Z.b2z b) in Return (Database.SqlReal f)
  | NInt z => let? f := Binary64.of_Z z in Return (Database.SqlReal f)
  | NFloat f =>
      if PrimFloat.is_nan f then Raise (not_null_failed column)
      else Return (Database.SqlReal f)
  end.

(** The parameters are bound in their order, then the row is stored column
    by column. *)
Definition example_adapt (values : DatabaseManager.numbers float)
  : result (DatabaseManager.stored_numbers float) :=
  let '(p, h, k, c, t) := values in
  let? _ := bind_number p in
  let? _ := bind_number h in
  let? _ := bind_number k in
  let? _ := bind_number c in
  let? _ := bind_number t in
  let? p' := example_store_integer "power_consumption_watts" p in
  let? h' := example_store_real "hours_used" h in
  let? k' := example_store_real "consumption_kwh" k in
  let? c' := example_store_real "cost" c in
  let? t' := example_store_real "tariff" t in
  Return (p', h', k', c', t').

(** Commits that return, but for the second one, which finds the database
    locked. *)
Definition example_commits (k : nat) : DatabaseManager.commit_answer float :=
  match k with
  | 1%nat => DatabaseManager.StillOpen "database is locked"
  | _ => DatabaseManager.Committed
  end.

Definition example_next_rowid (t : list (Database.row float)) : Z :=
  1 + fold_right Z.max 0 (map Database.id t).

Definition example_clock (k : nat) : string :=
  nth k ["2024-05-02T09:00:00"; "2024-05-02T09:00:01"; "2024-05-02T09:00:02"]
      "2024-05-02T09:00:03".

Definition example_exn_text (e : exn) : string :=
  match e with
  | sqlite3_Error text => text
  | _ => ""
  end.

Definition example_manager : DatabaseManager.manager float :=
  DatabaseManager.mkManager "energy_consumption.db"
    (Database.Readable three_records).

(** The appliances of [two_kilowatt_household true] and the details of
    their total over two hours. *)
Definition two_kilowatt_appliances : list (Appliance float) :=
  [iron_of (NInt 2000) true; tv_of (NInt 150) false;
   washer_of (NFloat 2200%float) true].

Definition two_kilowatt_calculator : EnergyCalculator float :=
  mkEnergyCalculator [PyRef 1%positive; PyRef 2%positive; PyRef 3%positive]
    (NFloat 0.15%float).

Definition two_hour_details : list (detail float) :=
  [mkDetail "Утюг" (NFloat 4%float) (NFloat 0.6%float);
   mkDetail "Телевизор" (NFloat 0%float) (NFloat 0%float);
   mkDetail "Стиральная машина" (NFloat 4.4%float) (NFloat 0.66%float)].

(** ** The values of binary64 floats

    What a float is worth as a rational number, to state how far the
    results of the float operations are from the exact ones. *)

(** The location of [N / D] between its floor and the next integer, as
    [SpecFloat] records it while it shifts a mantissa. *)
Definition loc_of (N D : Z) : location :=
  if N mod D =? 0 then loc_Exact else loc_Inexact (2 * (N mod D) ?= D).

Definition represents (mrs : shr_record) (N D : Z) : Prop :=
  shr_m mrs = N / D /\ loc_of_shr_record mrs = loc_of N D.

(** The magnitude and the sign of a float; its value.  Infinities and NaN
    have no value: they are given 0, and the statements that use values
    ask for finite floats. *)
Definition SFmag (x : spec_float) : Q :=
  match x with
  | S754_finite _ m e => (inject_Z (Z.pos m) * 2 ^ e)%Q
  | _ => 0%Q
  end.

Definition SFsign (x : spec_float) : bool :=
  match x with
  | S754_finite s _ _ | S754_zero s | S754_infinity s => s
  | S754_nan => false
  end.

Definition SF2Q (x : spec_float) : Q :=
  if SFsign x then (- SFmag x)%Q else SFmag x.

Definition SFfinite (x : spec_float) : bool :=
  match x with
  | S754_finite _ _ _ | S754_zero _ => true
  | _ => false
  end.

Definition F2Q (x : float) : Q := SF2Q (Prim2SF x).

Definition finite (x : float) : bool := SFfinite (Prim2SF x).

(** The unit roundoff [2^-53] and half the smallest positive float,
    [2^-1075]. *)
Definition u53 : Q := 1 # 2 ^ 53.
Definition eta : Q := 1 # 2 ^ 1075.

(** The allowance for the floating-point error of a total over [n]
    appliances: [(n + 1) * 2^-50] of the sizes involved. *)
Definition float_error (n : nat) (tariff energy cost : Q) : Q :=
  ((inject_Z (Z.of_nat n) + 1) * (1 # 2 ^ 50)
   * (cost + tariff * energy + tariff + 1))%Q.

(** * Properties *)

Section Properties.

Context {F : Type} `{FloatImpl F}.

Implicit Types (w : world F) (a : Appliance F) (c : EnergyCalculator F).
Implicit Types (h p t : number F) (self l : loc).

(** *** Running a method *)

Lemma get_appliance_at w l a :
  appliance_at w l a -> get_appliance l w = (Return a, w).
Proof. unfold appliance_at, get_appliance. intros ->. reflexivity. Qed.

Lemma get_calculator_at w l c :
  calculator_at w l c -> get_calculator l w = (Return c, w).
Proof. unfold calculator_at, get_calculator. intros ->. reflexivity. Qed.

Lemma is_on_at w l a : appliance_at w l a -> is_on l w = (Return (_is_on a), w).
Proof.
  intros Hl. unfold is_on, bind. rewrite (get_appliance_at _ _ _ Hl). reflexivity.
Qed.

Lemma name_at w l a : appliance_at w l a -> name l w = (Return (_name a), w).
Proof.
  intros Hl. unfold name, bind. rewrite (get_appliance_at _ _ _ Hl). reflexivity.
Qed.

Lemma power_at w l a :
  appliance_at w l a ->
  power_consumption_watts l w = (Return (_power_consumption_watts a), w).
Proof.
  intros Hl. unfold power_consumption_watts, bind.
  rewrite (get_appliance_at _ _ _ Hl). reflexivity.
Qed.

Lemma tariff_at w l c :
  calculator_at w l c -> tariff_kwh l w = (Return (_tariff_kwh c), w).
Proof.
  intros Hl. unfold tariff_kwh, bind. rewrite (get_calculator_at _ _ _ Hl).
  reflexivity.
Qed.

(** [0 <= h] excludes [h < 0]. *)
Lemma non_negative_not_negative h : non_negative h -> num_lt h (NInt 0) = false.
Proof.
  unfold non_negative, num_le, num_lt.
  destruct h as [b|z|f]; simpl.
  - destruct b; simpl; intros; reflexivity.
  - destruct z; simpl; congruence.
  - destruct (f_compare_Z f 0) as [[]|]; simpl; congruence.
Qed.

(** The three implementations have the same body. *)
Lemma variants_agree self (hours : pyobj F) w :
  Iron_calculate_energy_consumption self hours w
    = TV_calculate_energy_consumption self hours w
  /\ TV_calculate_energy_consumption self hours w
    = WashingMachine_calculate_energy_consumption self hours w.
Proof. split; reflexivity. Qed.

Lemma calculate_energy_consumption_Iron w self a (hours : pyobj F) :
  appliance_at w self a ->
  calculate_energy_consumption self hours w
    = Iron_calculate_energy_consumption self hours w.
Proof.
  intros Hl. unfold calculate_energy_consumption, bind.
  rewrite (get_appliance_at _ _ _ Hl). destruct (cls a); reflexivity.
Qed.

(** What the method does, by cases on the state and on the argument. *)
Lemma calculate_energy_consumption_off w self a (hours : pyobj F) :
  appliance_at w self a -> _is_on a = false ->
  calculate_energy_consumption self hours w = (Return (NFloat f_zero), w).
Proof.
  intros Hl Hoff. rewrite (calculate_energy_consumption_Iron _ _ _ _ Hl).
  unfold Iron_calculate_energy_consumption, bind.
  rewrite (is_on_at _ _ _ Hl), Hoff. reflexivity.
Qed.

Lemma calculate_energy_consumption_on w self a h :
  appliance_at w self a -> _is_on a = true -> num_lt h (NInt 0) = false ->
  calculate_energy_consumption self (PyNum h) w = (computeEnergy a h, w).
Proof.
  intros Hl Hon Hh. rewrite (calculate_energy_consumption_Iron _ _ _ _ Hl).
  unfold Iron_calculate_energy_consumption, computeEnergy, bind, lift, ret.
  rewrite (is_on_at _ _ _ Hl), Hon. simpl.
  rewrite Hh, (power_at _ _ _ Hl).
  destruct (num_truediv _ _) as [e|kw]; simpl; [reflexivity|].
  destruct (num_mul kw h); reflexivity.
Qed.

Lemma calculate_energy_consumption_on_negative w self a h :
  appliance_at w self a -> _is_on a = true -> negative h ->
  calculate_energy_consumption self (PyNum h) w = (Raise ValueError, w).
Proof.
  intros Hl Hon Hh. rewrite (calculate_energy_consumption_Iron _ _ _ _ Hl).
  unfold Iron_calculate_energy_consumption, bind, raise.
  rewrite (is_on_at _ _ _ Hl), Hon. unfold negative in Hh. simpl.
  rewrite Hh. reflexivity.
Qed.

(** *** Methods that only read *)

Lemma read_only_ret {A} (x : A) : read_only (F:=F) (ret x).
Proof. intros w. reflexivity. Qed.

Lemma read_only_raise {A} (e : exn) : read_only (F:=F) (raise (A:=A) e).
Proof. intros w. reflexivity. Qed.

Lemma read_only_lift {A} (r : result A) : read_only (F:=F) (lift r).
Proof. intros w. reflexivity. Qed.

Lemma read_only_bind {A B} (m : M F A) (k : A -> M F B) :
  read_only m -> (forall x, read_only (k x)) -> read_only (bind m k).
Proof.
  intros Hm Hk w. unfold bind. specialize (Hm w).
  destruct (m w) as [[e|x] w1]; simpl in *; subst; [reflexivity|apply Hk].
Qed.

Lemma read_only_get_appliance l : read_only (F:=F) (get_appliance l).
Proof.
  intros w. unfold get_appliance. destruct (heap w !! l) as [[]|]; reflexivity.
Qed.

Lemma read_only_get_calculator l : read_only (F:=F) (get_calculator l).
Proof.
  intros w. unfold get_calculator. destruct (heap w !! l) as [[]|]; reflexivity.
Qed.

Create HintDb read_only.

#[local] Hint Resolve read_only_ret read_only_raise read_only_lift
  read_only_get_appliance read_only_get_calculator : read_only.

(** A bind of read-only parts is read-only; so is a branch. *)
Ltac read_only_step :=
  match goal with
  | |- read_only (bind _ _) => apply read_only_bind; [|intros ?]
  | |- read_only (if ?b then _ else _) => destruct b
  | |- read_only (match ?x with _ => _ end) => destruct x
  | |- read_only _ => solve [auto with read_only]
  end.

Lemma read_only_is_on l : read_only (F:=F) (is_on l).
Proof. unfold is_on. repeat read_only_step. Qed.

Lemma read_only_name l : read_only (F:=F) (name l).
Proof. unfold name. repeat read_only_step. Qed.

Lemma read_only_power l : read_only (F:=F) (power_consumption_watts l).
Proof. unfold power_consumption_watts. repeat read_only_step. Qed.

Lemma read_only_tariff_kwh l : read_only (F:=F) (tariff_kwh l).
Proof. unfold tariff_kwh. repeat read_only_step. Qed.

#[local] Hint Resolve read_only_is_on read_only_name read_only_power
  read_only_tariff_kwh : read_only.

Lemma read_only_Iron_calculate self (hours : pyobj F) :
  read_only (Iron_calculate_energy_consumption self hours).
Proof. unfold Iron_calculate_energy_consumption. repeat read_only_step. Qed.

Lemma read_only_TV_calculate self (hours : pyobj F) :
  read_only (TV_calculate_energy_consumption self hours).
Proof. unfold TV_calculate_energy_consumption. repeat read_only_step. Qed.

Lemma read_only_WashingMachine_calculate self (hours : pyobj F) :
  read_only (WashingMachine_calculate_energy_consumption self hours).
Proof.
  unfold WashingMachine_calculate_energy_consumption. repeat read_only_step.
Qed.

#[local] Hint Resolve read_only_Iron_calculate read_only_TV_calculate
  read_only_WashingMachine_calculate : read_only.

Lemma read_only_calculate_energy_consumption self (hours : pyobj F) :
  read_only (calculate_energy_consumption self hours).
Proof. unfold calculate_energy_consumption. repeat read_only_step. Qed.

#[local] Hint Resolve read_only_calculate_energy_consumption : read_only.

Lemma read_only_loop_body self (period : pyobj F) vars (app : pyobj F) :
  read_only (loop_body self period vars app).
Proof.
  unfold loop_body. destruct vars as [[tc tk] ds]. repeat read_only_step.
Qed.

Lemma read_only_for_in {A S} (xs : list A) (body : S -> A -> M F S) s :
  (forall s x, read_only (body s x)) -> read_only (for_in xs body s).
Proof.
  intros Hbody. revert s.
  induction xs as [|x xs IH]; intros s; simpl.
  - apply read_only_ret.
  - apply read_only_bind; [apply Hbody | exact IH].
Qed.

Lemma read_only_calculate_total self (period : pyobj F) :
  read_only (calculate_total_consumption_and_cost self period).
Proof.
  unfold calculate_total_consumption_and_cost.
  destruct period; try apply read_only_raise.
  destruct (num_lt n (NInt 0)); [apply read_only_raise|].
  apply read_only_bind; [auto with read_only|intros c].
  apply read_only_bind.
  - apply read_only_for_in. intros; apply read_only_loop_body.
  - intros [[tc tk] ds]. apply read_only_ret.
Qed.

Lemma read_only_isinstance_Appliance (x : pyobj F) :
  read_only (isinstance_Appliance x).
Proof.
  intros w. unfold isinstance_Appliance.
  destruct x; try reflexivity. destruct (heap w !! l) as [[]|]; reflexivity.
Qed.

(** *** EnergyCalculator.__init__ and the tariff *)

Lemma isinstance_Appliance_true w (x : pyobj F) :
  is_Appliance w x -> isinstance_Appliance x w = (Return true, w).
Proof.
  intros (l & a & -> & Hl). unfold isinstance_Appliance.
  unfold appliance_at in Hl. rewrite Hl. reflexivity.
Qed.

Lemma isinstance_Appliance_false w (x : pyobj F) :
  ~ is_Appliance w x -> isinstance_Appliance x w = (Return false, w).
Proof.
  intros Hn. unfold isinstance_Appliance.
  destruct x as [| | | |l]; try reflexivity.
  destruct (heap w !! l) as [[a|c]|] eqn:Hl; try reflexivity.
  exfalso. apply Hn. by exists l, a.
Qed.

Lemma isinstance_Appliance_total w (x : pyobj F) :
  exists b, isinstance_Appliance x w = (Return b, w).
Proof.
  unfold isinstance_Appliance. destruct x; eauto.
  destruct (heap w !! l) as [[]|]; eauto.
Qed.

Lemma all_isinstance_total w (apps : list (pyobj F)) :
  exists b, all_isinstance_Appliance apps w = (Return b, w).
Proof.
  induction apps as [|x apps IH]; simpl; [by exists true|].
  unfold bind. destruct (isinstance_Appliance_total w x) as [b ->].
  destruct b; [exact IH | by exists false].
Qed.

Lemma all_isinstance_true w (apps : list (pyobj F)) :
  Forall (is_Appliance w) apps ->
  all_isinstance_Appliance apps w = (Return true, w).
Proof.
  induction 1 as [|x apps Hx _ IH]; simpl; [reflexivity|].
  unfold bind. by rewrite (isinstance_Appliance_true _ _ Hx).
Qed.

Lemma all_isinstance_false w (apps : list (pyobj F)) :
  Exists (fun x => ~ is_Appliance w x) apps ->
  all_isinstance_Appliance apps w = (Return false, w).
Proof.
  induction 1 as [x apps Hx|x apps _ IH]; simpl; unfold bind.
  - by rewrite (isinstance_Appliance_false _ _ Hx).
  - destruct (isinstance_Appliance_total w x) as [[] ->]; [exact IH|reflexivity].
Qed.

(** *** Construction and switching of appliances *)

(** What [Appliance.__init__] rejects and what it lets through. *)
Lemma Appliance__init___empty_name (power : pyobj F) :
  Appliance__init__ (PyStr "") power = Raise ValueError.
Proof. reflexivity. Qed.

Lemma Appliance__init___not_a_number (nm : string) (power : pyobj F) :
  (forall p, power <> PyNum p) ->
  exists e, Appliance__init__ (PyStr nm) power = Raise e /\ ValidationError e.
Proof.
  intros Hp. exists ValueError. split; [|by left].
  unfold Appliance__init__. destruct (String.eqb nm ""); [reflexivity|].
  destruct power; try reflexivity. by destruct (Hp n).
Qed.

Lemma Appliance__init___not_above_zero (nm : string) p :
  num_le p (NInt 0) = true ->
  exists e,
    Appliance__init__ (PyStr nm) (PyNum p) = Raise e /\ ValidationError e.
Proof.
  intros Hp. exists ValueError. split; [|by left].
  unfold Appliance__init__. rewrite Hp. by destruct (String.eqb nm "").
Qed.

Lemma Appliance__init___accepts (nm power : pyobj F) s p :
  Appliance__init__ nm power = Return (s, p) ->
  nm = PyStr s /\ power = PyNum p /\ s <> "" /\ num_le p (NInt 0) = false.
Proof.
  unfold Appliance__init__. destruct nm as [| |s'| |]; try discriminate.
  destruct (String.eqb_spec s' ""); [discriminate|].
  destruct power as [|p'| | |]; try discriminate.
  destruct (num_le p' (NInt 0)) eqn:Hp; [discriminate|].
  by intros [= <- <-].
Qed.

(** Switching on or off writes [_is_on] and prints; the name, the power and
    the class of the appliance stay, and so does every other object. *)
Lemma set_is_on_at w l a b :
  appliance_at w l a ->
  set_is_on l b w
  = (Return tt,
     mkWorld (<[l := ObjAppliance (mkAppliance (cls a) (_name a)
                                     (_power_consumption_watts a) b)]> (heap w))
             (stdout w)).
Proof.
  intros Hl. unfold set_is_on, bind. by rewrite (get_appliance_at _ _ _ Hl).
Qed.

Lemma turn_on_keeps_name_and_power w l a :
  appliance_at w l a ->
  exists w',
    turn_on l w = (Return tt, w')
    /\ appliance_at w' l
         (mkAppliance (cls a) (_name a) (_power_consumption_watts a) true)
    /\ forall l', l' <> l -> heap w' !! l' = heap w !! l'.
Proof.
  intros Hl. unfold turn_on, bind. rewrite (set_is_on_at _ _ _ _ Hl).
  set (w1 := mkWorld _ _).
  assert (H1 : appliance_at w1 l
                 (mkAppliance (cls a) (_name a) (_power_consumption_watts a) true))
    by apply lookup_insert_eq.
  rewrite (name_at _ _ _ H1). eexists. split; [reflexivity|].
  split; [exact H1|]. intros l' Hne. simpl. by apply lookup_insert_ne.
Qed.

Lemma turn_off_keeps_name_and_power w l a :
  appliance_at w l a ->
  exists w',
    turn_off l w = (Return tt, w')
    /\ appliance_at w' l
         (mkAppliance (cls a) (_name a) (_power_consumption_watts a) false)
    /\ forall l', l' <> l -> heap w' !! l' = heap w !! l'.
Proof.
  intros Hl. unfold turn_off, bind. rewrite (set_is_on_at _ _ _ _ Hl).
  set (w1 := mkWorld _ _).
  assert (H1 : appliance_at w1 l
                 (mkAppliance (cls a) (_name a) (_power_consumption_watts a) false))
    by apply lookup_insert_eq.
  rewrite (name_at _ _ _ H1). eexists. split; [reflexivity|].
  split; [exact H1|]. intros l' Hne. simpl. by apply lookup_insert_ne.
Qed.

(** *** Appliance.calculate_energy_consumption *)

(** C1.  For every appliance and every non-negative number of hours,
    [calculate_energy_consumption] returns [0.0] when the appliance is off
    and the value of [(power / 1000) * hours] when it is on; the
    implementations of [Iron], [TV] and [WashingMachine] all do so. *)
Theorem C1_energy_linear_when_on_zero_when_off w self a h :
  appliance_at w self a ->
  non_negative h ->
  (_is_on a = false ->
     calculate_energy_consumption self (PyNum h) w = (Return (NFloat f_zero), w))
  /\ (_is_on a = true ->
     calculate_energy_consumption self (PyNum h) w
       = (let? kw := num_truediv (_power_consumption_watts a) (NInt 1000) in
          num_mul kw h, w))
  /\ Iron_calculate_energy_consumption self (PyNum h) w
       = calculate_energy_consumption self (PyNum h) w
  /\ TV_calculate_energy_consumption self (PyNum h) w
       = calculate_energy_consumption self (PyNum h) w
  /\ WashingMachine_calculate_energy_consumption self (PyNum h) w
       = calculate_energy_consumption self (PyNum h) w.
Proof.
  intros Hl Hh. apply non_negative_not_negative in Hh.
  split; [|split; [|repeat split]].
  - intros Hoff. by apply calculate_energy_consumption_off with a.
  - intros Hon. rewrite (calculate_energy_consumption_on _ _ a) by done.
    unfold computeEnergy. by rewrite Hon.
  - symmetry. by apply calculate_energy_consumption_Iron with a.
  - rewrite (calculate_energy_consumption_Iron _ _ a) by done. reflexivity.
  - rewrite (calculate_energy_consumption_Iron _ _ a) by done. reflexivity.
Qed.

(** C2, as the code has it.  With a negative number of hours, an appliance
    that is on raises [ValueError] (a validation error) and nothing
    changes; an appliance that is off returns [0.0]: its hours are not
    looked at. *)
Theorem C2_negative_hours_rejected_when_on w self a h :
  appliance_at w self a ->
  negative h ->
  (_is_on a = true ->
     calculate_energy_consumption self (PyNum h) w = (Raise ValueError, w)
     /\ ValidationError ValueError)
  /\ (_is_on a = false ->
     calculate_energy_consumption self (PyNum h) w = (Return (NFloat f_zero), w)).
Proof.
  intros Hl Hh. split.
  - intros Hon. split; [|by left].
    by apply calculate_energy_consumption_on_negative with a.
  - intros Hoff. by apply calculate_energy_consumption_off with a.
Qed.

(** C10.  An appliance that is off returns [0.0] for every argument, a
    negative number or no number at all, and raises nothing: in the three
    implementations the test of [is_on] comes before the test of [hours]. *)
Theorem C10_off_returns_zero_for_any_hours w self a (hours : pyobj F) :
  appliance_at w self a ->
  _is_on a = false ->
  calculate_energy_consumption self hours w = (Return (NFloat f_zero), w)
  /\ Iron_calculate_energy_consumption self hours w
       = (Return (NFloat f_zero), w)
  /\ TV_calculate_energy_consumption self hours w
       = (Return (NFloat f_zero), w)
  /\ WashingMachine_calculate_energy_consumption self hours w
       = (Return (NFloat f_zero), w).
Proof.
  intros Hl Hoff.
  assert (Hi : Iron_calculate_energy_consumption self hours w
               = (Return (NFloat f_zero), w)).
  { rewrite <- (calculate_energy_consumption_Iron _ _ a) by done.
    by apply calculate_energy_consumption_off with a. }
  repeat split; try exact Hi.
  by apply calculate_energy_consumption_off with a.
Qed.

(** *** The loop of calculate_total_consumption_and_cost *)

Lemma num_truediv_float (x y k : number F) :
  num_truediv x y = Return k -> exists f, k = NFloat f.
Proof.
  unfold num_truediv, rbind.
  destruct (int_value x), (int_value y);
    repeat match goal with
           | |- context [if ?b then _ else _] => destruct b
           | |- context [match ?r with inl _ => _ | inr _ => _ end] =>
               destruct r
           end; intros [= <-] || discriminate; eauto.
Qed.

Lemma num_mul_float_l (f : F) (y k : number F) :
  num_mul (NFloat f) y = Return k -> exists g, k = NFloat g.
Proof.
  unfold num_mul, rbind. simpl.
  destruct (to_float y); intros [= <-] || discriminate; eauto.
Qed.

Lemma num_add_floats (x y : F) :
  num_add (NFloat x) (NFloat y) = Return (NFloat (f_add x y)).
Proof. reflexivity. Qed.

(** Where an appliance contributes, its energy and its cost are floats. *)
Lemma contribution_floats t p a (energy cost : number F) :
  contribution t p a = Return (Some (energy, cost)) ->
  exists fe fc, energy = NFloat fe /\ cost = NFloat fc.
Proof.
  unfold contribution, computeEnergy, rbind.
  destruct (_is_on a); [|discriminate].
  destruct (num_truediv _ _) as [|kw] eqn:Hkw; [discriminate|].
  destruct (num_truediv_float _ _ _ Hkw) as [fk ->].
  destruct (num_mul (NFloat fk) p) as [|e] eqn:He; [discriminate|].
  destruct (num_mul_float_l _ _ _ He) as [fe ->].
  destruct (num_mul (NFloat fe) t) as [|k] eqn:Hk; [discriminate|].
  destruct (num_mul_float_l _ _ _ Hk) as [fc ->].
  intros [= <- <-]. eauto.
Qed.

Lemma running_total_from_zero xs :
  running_total xs = running_total_from (NFloat f_zero) xs.
Proof. reflexivity. Qed.

(** One turn of the loop, for an appliance of the heap. *)
Lemma loop_body_contribution w self c l a p (E C : F) ds :
  calculator_at w self c ->
  appliance_at w l a ->
  num_lt p (NInt 0) = false ->
  loop_body self (PyNum p) (NFloat E, NFloat C, ds) (PyRef l) w
  = (match contribution (_tariff_kwh c) p a with
     | inl e => Raise e
     | inr None => Return (NFloat E, NFloat C, ds ++ [detail_of a None])
     | inr (Some (energy, cost)) =>
         let? E' := num_add (NFloat E) energy in
         let? C' := num_add (NFloat C) cost in
         Return (E', C', ds ++ [detail_of a (Some (energy, cost))])
     end, w).
Proof.
  intros Hc Ha Hp. unfold loop_body, contribution, bind, lift, ret.
  rewrite (is_on_at _ _ _ Ha).
  destruct (_is_on a) eqn:Hon.
  - rewrite (calculate_energy_consumption_on _ _ _ _ Ha Hon Hp).
    destruct (computeEnergy a p) as [e|energy] eqn:He; simpl; [reflexivity|].
    rewrite (tariff_at _ _ _ Hc).
    destruct (num_mul energy (_tariff_kwh c)) as [e|cost] eqn:Hk; simpl;
      [reflexivity|].
    destruct (num_add (NFloat E) energy) as [e|E']; simpl; [reflexivity|].
    destruct (num_add (NFloat C) cost) as [e|C']; simpl; [reflexivity|].
    rewrite (name_at _ _ _ Ha). reflexivity.
  - rewrite (name_at _ _ _ Ha). reflexivity.
Qed.

(** The whole loop: it fails where the first contribution fails, and
    otherwise leaves the running totals and one entry per appliance. *)
Lemma for_in_contributions w self c p :
  calculator_at w self c ->
  num_lt p (NInt 0) = false ->
  forall ls apps, Forall2 (appliance_at w) ls apps ->
  forall (E C : F) ds,
  for_in (map PyRef ls) (loop_body self (PyNum p)) (NFloat E, NFloat C, ds) w
  = (let? cs := contributions (_tariff_kwh c) p apps in
     let? E' := running_total_from (NFloat E) (map fst (omap id cs)) in
     let? C' := running_total_from (NFloat C) (map snd (omap id cs)) in
     Return (E', C', ds ++ zip_with detail_of apps cs), w).
Proof.
  intros Hc Hp ls apps Hall.
  induction Hall as [|l a ls apps Ha _ IH]; intros E C ds.
  - simpl. unfold ret. by rewrite app_nil_r.
  - cbn [map for_in contributions]. unfold bind at 1.
    rewrite (loop_body_contribution _ _ _ _ _ _ _ _ _ Hc Ha Hp).
    destruct (contribution (_tariff_kwh c) p a) as [e|[[energy cost]|]] eqn:Hk;
      cbn [rbind]; [reflexivity| |].
    + destruct (contribution_floats _ _ _ _ _ Hk) as (fe & fc & -> & ->).
      rewrite !num_add_floats. cbn [rbind]. rewrite IH.
      destruct (contributions _ _ apps) as [e|cs]; cbn [rbind]; [reflexivity|].
      unfold running_total_from. simpl. by rewrite <- app_assoc.
    + rewrite IH.
      destruct (contributions _ _ apps) as [e|cs]; cbn [rbind]; [reflexivity|].
      simpl. by rewrite <- app_assoc.
Qed.

Lemma contributions_length t p apps cs :
  contributions t p apps = Return cs -> length cs = length apps.
Proof.
  revert cs. induction apps as [|a apps IH]; intros cs; simpl.
  - by intros [= <-].
  - unfold rbind. destruct (contribution t p a); [discriminate|].
    destruct (contributions t p apps) as [|cs']; [discriminate|].
    intros [= <-]. simpl. f_equal. by apply IH.
Qed.

Lemma detail_names apps (cs : list (option (number F * number F))) :
  length cs = length apps ->
  map d_name (zip_with detail_of apps cs) = map _name apps.
Proof.
  revert cs. induction apps as [|a apps IH]; intros [|k cs]; simpl; try done.
  intros [= Hlen]. f_equal; [by destruct k as [[]|]|by apply IH].
Qed.

Lemma contributions_entries t p apps cs :
  contributions t p apps = Return cs ->
  Forall2
    (fun a d =>
       d_name d = _name a
       /\ if _is_on a then
            exists energy cost,
              computeEnergy a p = Return energy
              /\ num_mul energy t = Return cost
              /\ d_consumption_kwh d = py_round energy 3
              /\ d_cost d = py_round cost 2
          else d_consumption_kwh d = NFloat f_zero /\ d_cost d = NFloat f_zero)
    apps (zip_with detail_of apps cs).
Proof.
  revert cs. induction apps as [|a apps IH]; intros cs; simpl.
  - intros [= <-]. constructor.
  - unfold rbind at 1.
    destruct (contribution t p a) as [|k] eqn:Hk; [discriminate|].
    unfold rbind. destruct (contributions t p apps) as [|cs']; [discriminate|].
    intros [= <-]. simpl. constructor; [|by apply IH].
    unfold contribution, rbind in Hk. destruct (_is_on a).
    + destruct (computeEnergy a p) as [|energy]; [discriminate|].
      destruct (num_mul energy t) as [|cost] eqn:Hcost; [discriminate|].
      injection Hk as <-. simpl. split; [reflexivity|]. by exists energy, cost.
    + injection Hk as <-. by simpl.
Qed.

(** *** EnergyCalculator *)

(** C5.  [calculate_total_consumption_and_cost] leaves the world as it
    found it, whatever it returns or raises: every appliance and every
    calculator is as before and nothing is printed.  A second call with the
    same period therefore gives the same outcome. *)
Theorem C5_total_is_repeatable_and_mutates_nothing
  w self (period_hours : pyobj F) :
  let out := calculate_total_consumption_and_cost self period_hours w in
  out.2 = w
  /\ (forall l a, appliance_at w l a -> appliance_at out.2 l a)
  /\ (forall l c, calculator_at w l c -> calculator_at out.2 l c)
  /\ calculate_total_consumption_and_cost self period_hours out.2 = out.
Proof.
  intros out.
  assert (Hw : out.2 = w) by apply read_only_calculate_total.
  rewrite Hw. repeat split; done.
Qed.

(** C6.  [EnergyCalculator(appliances, tariff_kwh)] raises a validation
    error and changes nothing when the list has an element that is not an
    [Appliance] ([TypeError]), and when the tariff is negative, whatever the
    collection is.  With a list of appliances and a non-negative tariff it
    creates a calculator that holds that list and that tariff. *)
Theorem C6_calculator_construction w (apps : list (pyobj F)) t :
  (Exists (fun x => ~ is_Appliance w x) apps ->
     forall tariff : pyobj F,
       EnergyCalculator__init__ (PyList apps) tariff w = (Raise TypeError, w)
       /\ ValidationError TypeError)
  /\ (negative t ->
     forall collection : pyobj F,
     exists e,
       EnergyCalculator__init__ collection (PyNum t) w = (Raise e, w)
       /\ ValidationError e)
  /\ (Forall (is_Appliance w) apps -> non_negative t ->
     exists l w',
       EnergyCalculator__init__ (PyList apps) (PyNum t) w
         = (Return (PyRef l), w')
       /\ heap w !! l = None
       /\ w' = mkWorld (<[l := ObjCalculator (mkEnergyCalculator apps t)]>
                         (heap w)) (stdout w)
       /\ tariff_kwh l w' = (Return t, w')).
Proof.
  split; [|split].
  - intros Hbad tariff. split; [|by right].
    unfold EnergyCalculator__init__, bind.
    by rewrite (all_isinstance_false _ _ Hbad).
  - intros Hneg collection. unfold EnergyCalculator__init__.
    destruct collection as [| | |xs|]; try (exists TypeError; split; [done|by right]).
    unfold bind. destruct (all_isinstance_total w xs) as [[] ->]; simpl.
    + unfold negative in Hneg. rewrite Hneg.
      exists ValueError. split; [done|by left].
    + exists TypeError. split; [done|by right].
  - intros Hall Hnn. apply non_negative_not_negative in Hnn.
    unfold EnergyCalculator__init__, bind.
    rewrite (all_isinstance_true _ _ Hall). simpl. rewrite Hnn.
    unfold new. eexists _, _. split; [reflexivity|].
    split; [|split; [reflexivity|]].
    + apply (not_elem_of_dom (D:=gset loc)), is_fresh.
    + apply (tariff_at _ _ (mkEnergyCalculator apps t)).
      unfold calculator_at. simpl. apply lookup_insert_eq.
Qed.

(** C7.  Setting [tariff_kwh] to a negative number raises [ValueError] and
    leaves the world, the stored tariff included, as it was; setting it to a
    non-negative number stores exactly that number. *)
Theorem C7_tariff_setter w self c v :
  calculator_at w self c ->
  (negative v ->
     set_tariff_kwh self (PyNum v) w = (Raise ValueError, w)
     /\ ValidationError ValueError
     /\ tariff_kwh self w = (Return (_tariff_kwh c), w))
  /\ (non_negative v ->
     let w' := mkWorld
                 (<[self := ObjCalculator (mkEnergyCalculator (appliances c) v)]>
                    (heap w)) (stdout w) in
     set_tariff_kwh self (PyNum v) w = (Return tt, w')
     /\ tariff_kwh self w' = (Return v, w')).
Proof.
  intros Hc. split.
  - intros Hneg. unfold negative in Hneg.
    unfold set_tariff_kwh. rewrite Hneg.
    split; [done|]. split; [by left|]. by apply tariff_at.
  - intros Hnn w'. apply non_negative_not_negative in Hnn.
    unfold set_tariff_kwh. rewrite Hnn. unfold bind.
    rewrite (get_calculator_at _ _ _ Hc). split; [reflexivity|].
    apply (tariff_at _ _ (mkEnergyCalculator (appliances c) v)).
    unfold calculator_at. simpl. apply lookup_insert_eq.
Qed.

(** The total of a calculator over appliances of the heap, as a value. *)
Lemma calculate_total_is_computeTotal w self c ls apps p :
  calculator_at w self c ->
  appliances c = map PyRef ls ->
  Forall2 (appliance_at w) ls apps ->
  num_lt p (NInt 0) = false ->
  calculate_total_consumption_and_cost self (PyNum p) w
  = (computeTotal (_tariff_kwh c) p apps, w).
Proof.
  intros Hc Happs Hall Hp.
  unfold calculate_total_consumption_and_cost, computeTotal, bind.
  rewrite Hp, (get_calculator_at _ _ _ Hc), Happs.
  rewrite (for_in_contributions _ _ _ _ Hc Hp _ _ Hall).
  destruct (contributions _ _ apps) as [e|cs]; cbn [rbind]; [reflexivity|].
  rewrite !running_total_from_zero.
  destruct (running_total_from _ (map fst _)) as [e|E]; cbn [rbind];
    [reflexivity|].
  destruct (running_total_from _ (map snd _)) as [e|C]; cbn [rbind];
    reflexivity.
Qed.

(** C3.  For a calculator over appliances of the heap and a non-negative
    period, [calculate_total_consumption_and_cost] does what section 4.2
    says: it goes through the appliances in list order and fails where the
    first contribution fails; otherwise the details have one entry per
    appliance, in that order, with the appliance's name; an appliance that
    is on has its rounded energy and cost there and adds both to the
    running totals; an appliance that is off has [0.0] and [0.0] there and
    adds nothing. *)
Theorem C3_one_detail_per_appliance_in_order w self c ls apps p :
  calculator_at w self c ->
  appliances c = map PyRef ls ->
  Forall2 (appliance_at w) ls apps ->
  non_negative p ->
  calculate_total_consumption_and_cost self (PyNum p) w
    = (computeTotal (_tariff_kwh c) p apps, w)
  /\ forall r,
      computeTotal (_tariff_kwh c) p apps = Return r ->
      map d_name (details r) = map _name apps
      /\ Forall2
           (fun a d =>
              d_name d = _name a
              /\ if _is_on a then
                   exists energy cost,
                     computeEnergy a p = Return energy
                     /\ num_mul energy (_tariff_kwh c) = Return cost
                     /\ d_consumption_kwh d = py_round energy 3
                     /\ d_cost d = py_round cost 2
                 else d_consumption_kwh d = NFloat f_zero
                      /\ d_cost d = NFloat f_zero)
           apps (details r).
Proof.
  intros Hc Happs Hall Hp. apply non_negative_not_negative in Hp. split.
  - unfold calculate_total_consumption_and_cost, computeTotal, bind.
    rewrite Hp, (get_calculator_at _ _ _ Hc), Happs.
    rewrite (for_in_contributions _ _ _ _ Hc Hp _ _ Hall).
    destruct (contributions _ _ apps) as [e|cs]; cbn [rbind]; [reflexivity|].
    rewrite !running_total_from_zero.
    destruct (running_total_from _ (map fst _)) as [e|E]; cbn [rbind];
      [reflexivity|].
    destruct (running_total_from _ (map snd _)) as [e|C]; cbn [rbind];
      reflexivity.
  - intros r. unfold computeTotal, rbind.
    destruct (contributions _ _ apps) as [|cs] eqn:Hcs; [discriminate|].
    destruct (running_total _); [discriminate|].
    destruct (running_total _); [discriminate|].
    intros [= <-]. simpl. split.
    + apply detail_names. by apply contributions_length in Hcs.
    + by apply contributions_entries.
Qed.

End Properties.

(** *** Rounding to decimals, and accepted powers in exact arithmetic *)

Section ExactArithmetic.

Local Open Scope Z_scope.

Lemma round_half_even_near (n d : Z) :
  0 < d -> 2 * Z.abs (round_half_even n d * d - n) <= d.
Proof.
  intros Hd. unfold round_half_even.
  pose proof (Z.div_mod n d ltac:(lia)) as Hn.
  pose proof (Z.mod_pos_bound n d Hd) as Hr.
  set (q := n / d) in *. set (r := n mod d) in *.
  clearbody q r. subst n.
  assert (Hq : q * d - (d * q + r) = - r) by ring.
  assert (Hq1 : (q + 1) * d - (d * q + r) = d - r) by ring.
  destruct (Z.compare_spec (2 * r) d) as [Hc|Hc|Hc].
  - destruct (Z.even q); rewrite ?Hq, ?Hq1; lia.
  - rewrite Hq. lia.
  - rewrite Hq1. lia.
Qed.

Lemma pow10_pos (n : nat) : 0 < 10 ^ Z.of_nat n.
Proof. apply Z.pow_pos_nonneg; lia. Qed.

(** In exact arithmetic every number is comparable with 0: a power that
    [Appliance.__init__] lets through is strictly positive. *)
Lemma exact_accepted_power_is_positive (nm power : pyobj Q) s p :
  Appliance__init__ nm power = Return (s, p) -> positive_number p.
Proof.
  intros Hok. apply Appliance__init___accepts in Hok as (_ & _ & _ & Hp).
  unfold positive_number, num_lt. unfold num_le in Hp.
  destruct p as [b|z|q]; simpl in *.
  - by destruct b.
  - by destruct z.
  - revert Hp. by destruct (q ?= inject_Z 0)%Q.
Qed.

End ExactArithmetic.

(** *** Rounding in binary64

    The operations of Rocq's primitive floats are specified by
    [SpecFloat]; the lemmas below read off these specifications how far a
    product, a sum and a quotient are from the exact ones. *)

Section Binary64Rounding.

Abbreviation fexp := (SpecFloat.fexp prec emax).

Lemma fexp_spec (e : Z) : fexp e = Z.max (e - 53) (-1074).
Proof. reflexivity. Qed.

(** ** The number of binary digits *)

Lemma digits2_pos_size (p : positive) : digits2_pos p = Pos.size p.
Proof. induction p as [p IH|p IH|]; simpl; congruence. Qed.

Lemma Zdigits2_bounds (m : Z) :
  0 <= m -> 0 <= Zdigits2 m /\ m < 2 ^ Zdigits2 m
            /\ (0 < m -> 2 ^ (Zdigits2 m - 1) <= m).
Proof.
  intros Hm. destruct m as [|p|p]; [simpl; lia| |lia].
  unfold Zdigits2. rewrite digits2_pos_size.
  pose proof (Pos.size_gt p) as Hgt. pose proof (Pos.size_le p) as Hle.
  apply Pos2Z.pos_lt_pos in Hgt. apply Pos2Z.pos_le_pos in Hle.
  rewrite Pos2Z.inj_pow in Hgt, Hle.
  split; [lia|]. split; [exact Hgt|]. intros _.
  replace (Z.pos (Pos.size p)) with (Z.succ (Z.pos (Pos.size p) - 1)) in Hle
    by lia.
  rewrite Z.pow_succ_r in Hle by lia. lia.
Qed.

Lemma Zdigits2_le (m j : Z) : 0 <= m < 2 ^ j -> 0 <= j -> Zdigits2 m <= j.
Proof.
  intros [Hm Hj] Hj0. destruct (Zdigits2_bounds m Hm) as (Hd & _ & Hlow).
  destruct (Z.eq_dec m 0) as [->|Hne]; [simpl; lia|].
  destruct (Z_le_gt_dec (Zdigits2 m) j) as [|Hgt]; [done|].
  assert (2 ^ j <= 2 ^ (Zdigits2 m - 1)) by (apply Z.pow_le_mono_r; lia).
  lia.
Qed.

Lemma Zdigits2_gt (m j : Z) : 0 <= j -> 2 ^ j <= m -> j < Zdigits2 m.
Proof.
  intros Hj Hm.
  assert (Hm0 : 0 <= m) by (pose proof (Z.pow_pos_nonneg 2 j); lia).
  destruct (Zdigits2_bounds m Hm0) as (Hd & Hup & _).
  destruct (Z_lt_le_dec j (Zdigits2 m)) as [|Hle]; [done|].
  assert (2 ^ Zdigits2 m <= 2 ^ j) by (apply Z.pow_le_mono_r; lia).
  lia.
Qed.

Lemma Zdigits2_mul_pow2 (m d : Z) :
  0 < m -> 0 <= d -> Zdigits2 (m * 2 ^ d) = Zdigits2 m + d.
Proof.
  intros Hm Hd.
  destruct (Zdigits2_bounds m ltac:(lia)) as (Hd0 & Hup & Hlow).
  specialize (Hlow Hm).
  assert (Hp : 0 < 2 ^ d) by (apply Z.pow_pos_nonneg; lia).
  assert (Hdm : 0 < Zdigits2 m).
  { destruct (Z.eq_dec (Zdigits2 m) 0) as [E|E]; [|lia].
    rewrite E in Hup. simpl in Hup. lia. }
  apply Z.le_antisymm.
  - apply Zdigits2_le; [|lia]. split; [nia|].
    rewrite Z.pow_add_r by lia. nia.
  - assert (Zdigits2 m + d - 1 < Zdigits2 (m * 2 ^ d)); [|lia].
    apply Zdigits2_gt; [lia|].
    replace (Zdigits2 m + d - 1) with (Zdigits2 m - 1 + d) by lia.
    rewrite Z.pow_add_r by lia. nia.
Qed.

(** ** Shifting right with a record of what was lost *)

Lemma represents_of_loc (N D : Z) :
  represents (shr_record_of_loc (N / D) (loc_of N D)) N D.
Proof.
  unfold represents.
  destruct (loc_of N D) as [|[| |]]; simpl; auto.
Qed.

Lemma shr_1_represents (mrs : shr_record) (N D : Z) :
  0 <= N -> 0 < D -> represents mrs N D -> represents (shr_1 mrs) N (D * 2).
Proof.
  intros HN HD [Hm Hl].
  pose proof (Z.div_mod N D ltac:(lia)) as Hdm.
  pose proof (Z.mod_pos_bound N D HD) as Hr.
  assert (Hq : 0 <= N / D) by (apply Z.div_pos; lia).
  assert (Hdiv : N / (D * 2) = N / D / 2) by (rewrite Z.div_div; lia).
  assert (Hmod : N mod (D * 2) = N mod D + D * ((N / D) mod 2))
    by (apply Z.rem_mul_r; lia).
  pose proof (Z.div_mod (N / D) 2 ltac:(lia)) as Hq2.
  pose proof (Z.mod_pos_bound (N / D) 2 ltac:(lia)) as Hr2.
  unfold represents, loc_of. rewrite Hdiv, Hmod.
  unfold loc_of in Hl.
  set (q := N / D) in *. set (r := N mod D) in *.
  destruct mrs as [m b s]. simpl in Hm. subst m. simpl in Hl.
  assert (Hs : (b || s) = negb (r =? 0)).
  { destruct (r =? 0); destruct b, s; simpl in *; congruence. }
  unfold shr_1. rewrite Hs. clear Hl Hs b s.
  destruct q as [|[p|p|]|p] eqn:Eq; try lia; simpl shr_m;
    simpl loc_of_shr_record.
  - (* 0 *)
    change (0 / 2) with 0. change (0 mod 2) with 0.
    rewrite Z.mul_0_r, Z.add_0_r. split; [done|].
    destruct (Z.eqb_spec r 0) as [E|E]; simpl; [done|].
    f_equal. symmetry. apply Z.compare_lt_iff. lia.
  - (* p~1 *)
    assert (H2 : Z.pos p~1 / 2 = Z.pos p /\ Z.pos p~1 mod 2 = 1).
    { rewrite Pos2Z.inj_xI. split.
      - symmetry. apply (Z.div_unique _ 2 _ 1); lia.
      - symmetry. apply (Z.mod_unique _ 2 (Z.pos p) 1); lia. }
    destruct H2 as [-> ->]. split; [done|].
    destruct (Z.eqb_spec (r + D * 1) 0) as [E|E]; [lia|].
    destruct (Z.eqb_spec r 0) as [E0|E0]; simpl; f_equal; symmetry.
    + apply Z.compare_eq_iff. lia.
    + apply Z.compare_gt_iff. lia.
  - (* p~0 *)
    assert (H2 : Z.pos p~0 / 2 = Z.pos p /\ Z.pos p~0 mod 2 = 0).
    { rewrite Pos2Z.inj_xO. split.
      - symmetry. apply (Z.div_unique _ 2 _ 0); lia.
      - symmetry. apply (Z.mod_unique _ 2 (Z.pos p) 0); lia. }
    destruct H2 as [-> ->]. split; [done|].
    rewrite Z.mul_0_r, Z.add_0_r.
    destruct (Z.eqb_spec r 0) as [E0|E0]; simpl; [done|].
    f_equal. symmetry. apply Z.compare_lt_iff. lia.
  - (* 1 *)
    change (1 / 2) with 0. change (1 mod 2) with 1. split; [done|].
    destruct (Z.eqb_spec (r + D * 1) 0) as [E|E]; [lia|].
    destruct (Z.eqb_spec r 0) as [E0|E0]; simpl; f_equal; symmetry.
    + apply Z.compare_eq_iff. lia.
    + apply Z.compare_gt_iff. lia.
Qed.

Lemma iter_pos_shr_1_represents (p : positive) :
  forall (mrs : shr_record) (N D : Z),
    0 <= N -> 0 < D -> represents mrs N D ->
    represents (SpecFloat.iter_pos shr_1 p mrs) N (D * 2 ^ Z.pos p).
Proof.
  induction p as [p IH|p IH|]; intros mrs N D HN HD Hrep; simpl SpecFloat.iter_pos.
  - apply shr_1_represents in Hrep; [|done..].
    apply IH in Hrep; [|lia..]. apply IH in Hrep; [|lia..].
    replace (D * 2 ^ Z.pos p~1) with (D * 2 * 2 ^ Z.pos p * 2 ^ Z.pos p);
      [done|].
    rewrite (Pos2Z.inj_xI p).
    replace (2 * Z.pos p + 1) with (Z.pos p + Z.pos p + 1) by lia.
    rewrite !Z.pow_add_r by lia. ring.
  - apply IH in Hrep; [|lia..]. apply IH in Hrep; [|lia..].
    replace (D * 2 ^ Z.pos p~0) with (D * 2 ^ Z.pos p * 2 ^ Z.pos p); [done|].
    rewrite (Pos2Z.inj_xO p).
    replace (2 * Z.pos p) with (Z.pos p + Z.pos p) by lia.
    rewrite Z.pow_add_r by lia. ring.
  - apply shr_1_represents in Hrep; [|done..]. by rewrite Z.pow_1_r.
Qed.

Lemma shr_represents (mrs : shr_record) (e n N D : Z) :
  0 <= N -> 0 < D -> represents mrs N D ->
  represents (shr mrs e n).1 N (D * 2 ^ Z.max 0 n)
  /\ (shr mrs e n).2 = e + Z.max 0 n.
Proof.
  intros HN HD Hrep. destruct n as [|p|p]; simpl.
  - rewrite Z.mul_1_r. split; [done|lia].
  - split; [|done]. by apply iter_pos_shr_1_represents.
  - rewrite Z.mul_1_r. split; [done|lia].
Qed.

Lemma round_nearest_even_represents (mrs : shr_record) (N D : Z) :
  0 < D -> represents mrs N D ->
  round_nearest_even (shr_m mrs) (loc_of_shr_record mrs)
  = round_half_even N D.
Proof.
  intros HD [-> ->]. unfold loc_of, round_half_even.
  pose proof (Z.mod_pos_bound N D HD) as Hr.
  destruct (Z.eqb_spec (N mod D) 0) as [E|E]; simpl.
  - rewrite E. simpl. by destruct D.
  - by destruct (2 * (N mod D) ?= D).
Qed.

Lemma round_half_even_bounds (N D : Z) :
  0 < D -> N / D <= round_half_even N D <= N / D + 1.
Proof.
  intros HD. unfold round_half_even.
  destruct (2 * (N mod D) ?= D); [destruct (Z.even _)|..]; lia.
Qed.

Lemma round_half_even_exact (N D : Z) :
  0 < D -> N mod D = 0 -> round_half_even N D = N / D.
Proof.
  intros HD E. unfold round_half_even. rewrite E. simpl. by destruct D.
Qed.

(** ** [binary_round_aux] *)

(** What [binary_round_aux] returns for the integer part [N / D] and the
    location of the fraction [N / D] at exponent [e]: the fraction rounded
    to the nearest integer, ties to even, at the exponent of the format
    (shifted once more when the rounding carried). *)
Lemma binary_round_aux_spec (s : bool) (e N D : Z) :
  0 <= N -> 0 < D ->
  let m := N / D in
  let n := Z.max 0 (fexp (Zdigits2 m + e) - e) in
  let k := round_half_even N (D * 2 ^ n) in
  match binary_round_aux prec emax s m e (loc_of N D) with
  | S754_zero s' => s' = s /\ k = 0
  | S754_finite s' m' e' =>
      s' = s /\ e + n <= e' <= 971 /\ Z.pos m' * 2 ^ (e' - (e + n)) = k
      /\ (e' = e + n \/ Z.pos m' = 2 ^ 52) /\ Z.pos m' < 2 ^ 53
  | S754_infinity s' => s' = s
  | S754_nan => False
  end.
Proof.
  intros HN HD m n k. unfold binary_round_aux, shr_fexp.
  change (emax - prec) with 971.
  assert (Hndef : n = Z.max 0 (Z.max (Zdigits2 m + e - 53) (-1074) - e))
    by reflexivity.
  fold (fexp (Zdigits2 m + e)).
  pose proof (represents_of_loc N D) as Hrep0. fold m in Hrep0.
  destruct (shr_represents _ e (fexp (Zdigits2 m + e) - e) N D HN HD Hrep0)
    as [Hrep1 He1].
  fold n in Hrep1, He1.
  destruct (shr _ e _) as [mrs1 e1]. simpl in Hrep1, He1. subst e1.
  assert (Hn : 0 <= n) by lia.
  assert (HD1 : 0 < D * 2 ^ n) by (apply Z.mul_pos_pos; [lia|];
                                   apply Z.pow_pos_nonneg; lia).
  rewrite (round_nearest_even_represents _ _ _ HD1 Hrep1). fold k.
  (* the rounded mantissa is at most 2^53 *)
  assert (Hm : 0 <= m) by (apply Z.div_pos; lia).
  destruct (Zdigits2_bounds m Hm) as (Hd0 & Hdu & _).
  pose proof (round_half_even_bounds N (D * 2 ^ n) HD1) as Hk. fold k in Hk.
  rewrite <- Z.div_div in Hk by lia. fold m in Hk.
  assert (Hm1 : m / 2 ^ n < 2 ^ 53).
  { apply Z.div_lt_upper_bound; [apply Z.pow_pos_nonneg; lia|].
    rewrite <- Z.pow_add_r by lia.
    eapply Z.lt_le_trans; [exact Hdu|].
    apply Z.pow_le_mono_r; lia. }
  assert (Hm0 : 0 <= m / 2 ^ n)
    by (apply Z.div_pos; [lia|apply Z.pow_pos_nonneg; lia]).
  assert (Hk0 : 0 <= k <= 2 ^ 53) by lia.
  assert (He : -1074 <= e + n) by lia.
  (* the second shift *)
  assert (Hrepk : represents (Build_shr_record k false false) k 1).
  { unfold represents, loc_of. simpl. by rewrite Z.div_1_r, Z.mod_1_r. }
  destruct (shr_represents _ (e + n) (fexp (Zdigits2 k + (e + n)) - (e + n))
              k 1 ltac:(lia) ltac:(lia) Hrepk) as [Hrep2 He2].
  simpl shr_record_of_loc.
  destruct (shr _ (e + n) _) as [mrs2 e2]. simpl in Hrep2, He2. subst e2.
  destruct Hrep2 as [Hm2 _]. rewrite Z.mul_1_l in Hm2. rewrite Hm2.
  destruct (Zdigits2_bounds k ltac:(lia)) as (Hdk0 & Hdku & Hdkl).
  destruct (Z.eq_dec k (2 ^ 53)) as [Ek|Ek].
  - (* carry *)
    assert (Hdk : Zdigits2 k = 54).
    { rewrite Ek. reflexivity. }
    rewrite Hdk, fexp_spec.
    replace (Z.max 0 (Z.max (54 + (e + n) - 53) (-1074) - (e + n))) with 1
      by lia.
    rewrite Ek. change (2 ^ 53 / 2 ^ 1) with (Z.pos (2 ^ 52)).
    cbv iota. destruct (e + n + 1 <=? 971) eqn:Hle; cbv iota; [|done].
    apply Z.leb_le in Hle.
    split; [done|]. split; [lia|]. split; [|split; [by right|done]].
    replace (e + n + 1 - (e + n)) with 1 by lia. reflexivity.
  - assert (Hdk : Zdigits2 k <= 53).
    { destruct (Z.eq_dec k 0) as [->|Ek0]; [simpl; lia|].
      destruct (Z_le_gt_dec (Zdigits2 k) 53) as [|Hgt]; [done|].
      assert (2 ^ 53 <= 2 ^ (Zdigits2 k - 1))
        by (apply Z.pow_le_mono_r; lia).
      lia. }
    rewrite fexp_spec.
    replace (Z.max 0 (Z.max (Zdigits2 k + (e + n) - 53) (-1074) - (e + n)))
      with 0 by lia.
    rewrite Z.pow_0_r, Z.div_1_r, Z.add_0_r.
    destruct k as [|pk|pk]; [done| |lia].
    cbv iota. destruct (e + n <=? 971) eqn:Hle; cbv iota; [|done].
    apply Z.leb_le in Hle.
    split; [done|]. split; [lia|]. split; [|split; [by left|lia]].
    rewrite Z.sub_diag. lia.
Qed.

(** In the normal range the rounded mantissa has its 53 digits. *)
Lemma round_half_even_normal (e N D : Z) :
  0 <= N -> 0 < D ->
  let m := N / D in
  let n := Z.max 0 (fexp (Zdigits2 m + e) - e) in
  e + n = fexp (Zdigits2 m + e) ->
  -1074 < Zdigits2 m + e - 53 ->
  2 ^ 52 <= round_half_even N (D * 2 ^ n).
Proof.
  intros HN HD m n Hef Hnorm. rewrite fexp_spec in Hef.
  assert (Hndef : n = Z.max 0 (Z.max (Zdigits2 m + e - 53) (-1074) - e))
    by reflexivity.
  assert (Hn : 0 <= n) by lia.
  assert (HDn : 0 < D * 2 ^ n)
    by (apply Z.mul_pos_pos; [lia|]; apply Z.pow_pos_nonneg; lia).
  pose proof (round_half_even_bounds N (D * 2 ^ n) HDn) as Hk.
  rewrite <- Z.div_div in Hk by lia. fold m in Hk.
  assert (Hm : 0 <= m) by (apply Z.div_pos; lia).
  destruct (Zdigits2_bounds m Hm) as (_ & _ & Hlow).
  assert (Hmpos : 0 < m).
  { destruct (Z.eq_dec m 0) as [E|E]; [|lia].
    rewrite E in Hnorm, Hef. change (Zdigits2 0) with 0 in Hnorm, Hef. lia. }
  specialize (Hlow Hmpos).
  eapply Z.le_trans; [|apply Hk].
  apply Z.div_le_lower_bound; [apply Z.pow_pos_nonneg; lia|].
  rewrite <- Z.pow_add_r by lia.
  eapply Z.le_trans; [|exact Hlow].
  apply Z.pow_le_mono_r; lia.
Qed.

(** A result that was rounded at the exponent of the format is a float of
    the format. *)
Lemma binary_round_aux_valid (s : bool) (e N D : Z) :
  0 <= N -> 0 < D -> e <= fexp (Zdigits2 (N / D) + e) ->
  valid_binary (binary_round_aux prec emax s (N / D) e (loc_of N D)) = true.
Proof.
  intros HN HD Hle.
  pose proof (binary_round_aux_spec s e N D HN HD) as Hspec.
  pose proof (round_half_even_normal e N D HN HD) as Hnormal.
  cbv zeta in Hspec, Hnormal.
  set (m := N / D) in *.
  set (n := Z.max 0 (fexp (Zdigits2 m + e) - e)) in *.
  set (k := round_half_even N (D * 2 ^ n)) in *.
  assert (Hef : e + n = fexp (Zdigits2 m + e)) by lia.
  specialize (Hnormal Hef). rewrite fexp_spec in Hef.
  destruct (binary_round_aux _ _ _ _ _ _) as [| | |s' m' e']; try done.
  destruct Hspec as (_ & He' & Hval & Hcase & Hlt).
  unfold SpecFloat.valid_binary, bounded, canonical_mantissa.
  change (emax - prec) with 971.
  apply andb_true_intro. split; [|apply Z.leb_le; lia].
  apply Z.eqb_eq. change (Z.pos (digits2_pos m')) with (Zdigits2 (Z.pos m')).
  rewrite fexp_spec.
  assert (Hd53 : Zdigits2 (Z.pos m') <= 53) by (apply Zdigits2_le; lia).
  destruct (Z.eq_dec (Z.pos m') (2 ^ 52)) as [E|E].
  - rewrite E. change (Zdigits2 (2 ^ 52)) with 53. lia.
  - destruct Hcase as [He|]; [|done]. subst e'.
    rewrite Z.sub_diag, Z.mul_1_r in Hval.
    destruct (Z_le_gt_dec (Zdigits2 m + e - 53) (-1074)) as [Hsub|Hnorm].
    + lia.
    + assert (52 < Zdigits2 (Z.pos m'))
        by (apply Zdigits2_gt; [lia|]; rewrite Hval; apply Hnormal; lia).
      lia.
Qed.


(** ** Values *)

Local Open Scope Q_scope.

Lemma u53_pos : 0 < u53.
Proof. reflexivity. Qed.

Lemma eta_pos : 0 < eta.
Proof. reflexivity. Qed.

Lemma pow2_pos (e : Z) : 0 < 2 ^ e.
Proof. by apply Qpower_0_lt. Qed.

Lemma pow2_add (a b : Z) : 2 ^ (a + b) == 2 ^ a * 2 ^ b.
Proof. by apply Qpower_plus. Qed.

Lemma pow2_inject (n : Z) : (0 <= n)%Z -> 2 ^ n == inject_Z (2 ^ n).
Proof. intros Hn. by rewrite Zpower_Qpower. Qed.

Lemma SFmag_nonneg (x : spec_float) : 0 <= SFmag x.
Proof.
  destruct x as [| | |s m e]; simpl; try lra.
  pose proof (pow2_pos e). assert (0 < inject_Z (Z.pos m)) by done. nra.
Qed.

Lemma near_algebra (a b c P : Q) :
  0 < c -> 0 < P -> - c <= 2 * (a * c - b) <= c ->
  Qabs (a * P - b / c * P) <= P * (1 # 2).
Proof.
  intros Hc HP Hab.
  assert (Hb : b == b / c * c) by (field; lra).
  set (y := b / c) in *. clearbody y.
  apply Qabs_Qle_condition.
  assert (H1 : (a - y - (1 # 2)) * c <= 0) by (rewrite Hb in Hab; lra).
  assert (H2 : 0 <= (a - y + (1 # 2)) * c) by (rewrite Hb in Hab; lra).
  assert (H3 : a - y <= 1 # 2) by nra.
  assert (H4 : - (1 # 2) <= a - y) by nra.
  split; nra.
Qed.

Lemma binary_round_aux_near (s : bool) (e N D : Z) :
  (0 <= N)%Z -> (0 < D)%Z ->
  ((N mod D = 0)%Z \/ (e <= fexp (Zdigits2 (N / D) + e))%Z) ->
  let r := binary_round_aux prec emax s (N / D) e (loc_of N D) in
  let x := inject_Z N / inject_Z D * 2 ^ e in
  SFfinite r = true ->
  SFsign r = s
  /\ Qabs (SFmag r - x) <= u53 * SFmag r + eta
  /\ ((N mod D = 0)%Z -> (-1074 <= e)%Z ->
      Qabs (SFmag r - x) <= u53 * SFmag r).
Proof.
  intros HN HD Hcond r x Hfin.
  pose proof (binary_round_aux_spec s e N D HN HD) as Hspec.
  cbv zeta in Hspec. fold r in Hspec.
  set (m := (N / D)%Z) in *.
  set (n := Z.max 0 (fexp (Zdigits2 m + e) - e)) in *.
  set (k := round_half_even N (D * 2 ^ n)) in *.
  assert (Hndef : n = Z.max 0 (Z.max (Zdigits2 m + e - 53) (-1074) - e))
    by reflexivity.
  assert (Hn : (0 <= n)%Z) by lia.
  assert (HDn : (0 < D * 2 ^ n)%Z)
    by (apply Z.mul_pos_pos; [lia|]; apply Z.pow_pos_nonneg; lia).
  pose proof (round_half_even_near N (D * 2 ^ n) HDn) as Hnear. fold k in Hnear.
  pose proof (round_half_even_bounds N (D * 2 ^ n) HDn) as Hk. fold k in Hk.
  rewrite <- Z.div_div in Hk by lia. fold m in Hk.
  assert (Hm : (0 <= m)%Z) by (apply Z.div_pos; lia).
  (* the magnitude of the result is k * 2^(e+n) *)
  assert (Hmag : SFsign r = s /\ SFmag r == inject_Z k * 2 ^ (e + n)).
  { destruct r as [s'|s'|  |s' m' e']; try discriminate.
    - destruct Hspec as [-> ->]. split; [done|]. simpl. ring.
    - destruct Hspec as (-> & He' & Hval & _). split; [done|]. simpl.
      rewrite <- Hval, inject_Z_mult.
      rewrite <- (pow2_inject (e' - (e + n))) by lia.
      rewrite <- Qmult_assoc, <- pow2_add.
      by replace (e' - (e + n) + (e + n))%Z with e' by lia. }
  destruct Hmag as [Hsign Hmag]. split; [exact Hsign|].
  (* the distance to x is at most half a unit in the last place *)
  assert (Hx : x == inject_Z N / inject_Z (D * 2 ^ n) * 2 ^ (e + n)).
  { unfold x. rewrite pow2_add, inject_Z_mult, (pow2_inject n) by lia.
    assert (~ inject_Z D == 0) by (change 0 with (inject_Z 0);
                                   rewrite inject_Z_injective; lia).
    assert (~ inject_Z (2 ^ n) == 0).
    { change 0 with (inject_Z 0). rewrite inject_Z_injective.
      pose proof (Z.pow_pos_nonneg 2 n). lia. }
    by field. }
  assert (Hhalf : Qabs (SFmag r - x) <= 2 ^ (e + n) * (1 # 2)).
  { rewrite Hmag, Hx. apply near_algebra.
    - change 0 with (inject_Z 0). rewrite <- Zlt_Qlt. done.
    - apply pow2_pos.
    - rewrite <- inject_Z_mult.
      change 2 with (inject_Z 2). unfold Qminus.
      rewrite <- inject_Z_opp, <- inject_Z_opp, <- inject_Z_plus,
        <- inject_Z_mult, <- !Zle_Qle.
      lia. }
  assert (Hround : (e + n = fexp (Zdigits2 m + e))%Z ->
                   ((N mod D)%Z = 0%Z -> (-1074 <= e)%Z -> (0 < n)%Z) ->
                   Qabs (SFmag r - x) <= u53 * SFmag r + eta
                   /\ ((N mod D = 0)%Z -> (-1074 <= e)%Z ->
                       Qabs (SFmag r - x) <= u53 * SFmag r)).
  { intros Hef Hpos. rewrite fexp_spec in Hef.
    pose proof (SFmag_nonneg r) as Hr0. pose proof u53_pos as Hu.
    assert (Hur : 0 <= u53 * SFmag r) by (apply Qmult_le_0_compat; lra).
    destruct (Z_le_gt_dec (Zdigits2 m + e - 53) (-1074)) as [Hsub|Hnorm].
    - (* the subnormal range *)
      assert (Hen : (e + n = -1074)%Z) by lia.
      rewrite Hen in Hhalf.
      change (2 ^ (-1074) * (1 # 2)) with eta in Hhalf.
      split; [lra|]. intros Hex He. specialize (Hpos Hex He). lia.
    - (* the normal range: the mantissa has 53 digits *)
      assert (Hk52 : (2 ^ 52 <= k)%Z).
      { destruct (Zdigits2_bounds m Hm) as (_ & _ & Hlow).
        assert (Hmpos : (0 < m)%Z).
        { destruct (Z.eq_dec m 0%Z) as [E|E]; [|lia].
          rewrite E in Hnorm, Hef. change (Zdigits2 0) with 0%Z in Hnorm, Hef.
          lia. }
        specialize (Hlow Hmpos).
        assert (Hnd : n = (Zdigits2 m - 53)%Z) by lia.
        eapply Z.le_trans; [|apply Hk].
        apply Z.div_le_lower_bound; [apply Z.pow_pos_nonneg; lia|].
        rewrite <- Z.pow_add_r by lia.
        eapply Z.le_trans; [|exact Hlow].
        apply Z.pow_le_mono_r; lia. }
      assert (Hbig : 2 ^ (e + n) * (1 # 2) <= u53 * SFmag r).
      { rewrite Hmag. pose proof (pow2_pos (e + n)) as HP.
        assert (Hk' : inject_Z (2 ^ 52) <= inject_Z k) by by rewrite <- Zle_Qle.
        assert (Hc : u53 * inject_Z (2 ^ 52) == 1 # 2) by reflexivity.
        apply Qle_trans with (u53 * (inject_Z (2 ^ 52) * 2 ^ (e + n))).
        - rewrite Qmult_assoc, Hc. lra.
        - apply Qmult_le_l; [exact Hu|].
          apply Qmult_le_compat_r; [exact Hk'|lra]. }
      pose proof eta_pos. split; [lra|]. intros _ _. lra. }
  destruct (Z.eq_dec (N mod D) 0%Z) as [Hex|Hex].
  - destruct (Z.eq_dec n 0%Z) as [Hn0|Hn0].
    + (* nothing was lost *)
      assert (Hzero : SFmag r - x == 0).
      { rewrite Hmag. unfold x, k. rewrite Hn0, Z.pow_0_r, Z.mul_1_r, Z.add_0_r.
        rewrite round_half_even_exact by done.
        pose proof (Z.div_mod N D ltac:(lia)) as Hdm. rewrite Hex in Hdm.
        rewrite Hdm at 2. rewrite Z.add_0_r, inject_Z_mult.
        assert (~ inject_Z D == 0) by (change 0 with (inject_Z 0);
                                       rewrite inject_Z_injective; lia).
        by field. }
      rewrite Hzero. change (Qabs 0) with 0.
      pose proof (SFmag_nonneg r). pose proof u53_pos. pose proof eta_pos.
      split; [|intros _ _]; nra.
    + apply Hround; [|lia]. lia.
  - apply Hround; [|done]. destruct Hcond as [|Hle]; [done|]. lia.
Qed.

Lemma Qabs_SF2Q (x : spec_float) : Qabs (SF2Q x) == SFmag x.
Proof.
  pose proof (SFmag_nonneg x). unfold SF2Q.
  destruct (SFsign x); [rewrite Qabs_opp|]; by apply Qabs_pos.
Qed.

(** The value when the sign is known. *)
Lemma SF2Q_signed (x : spec_float) (s : bool) :
  SFsign x = s -> SF2Q x == (if s then - 1 else 1) * SFmag x.
Proof. intros <-. unfold SF2Q. destruct (SFsign x); ring. Qed.

Lemma SF2Q_finite (s : bool) (m : positive) (e : Z) :
  SF2Q (S754_finite s m e)
  == (if s then - 1 else 1) * (inject_Z (Z.pos m) * 2 ^ e).
Proof. by apply SF2Q_signed. Qed.

Lemma Qabs_signed (s : bool) (a b : Q) :
  Qabs ((if s then - 1 else 1) * a - (if s then - 1 else 1) * b)
  == Qabs (a - b).
Proof.
  destruct s.
  - setoid_replace (- 1 * a - - 1 * b) with (- (a - b)) using relation Qeq by ring.
    apply Qabs_opp.
  - by setoid_replace (1 * a - 1 * b) with (a - b) using relation Qeq by ring.
Qed.

(** ** Rounding an integer mantissa *)

Lemma binary_round_aux_exact_form (s : bool) (m e : Z) :
  binary_round_aux prec emax s m e loc_Exact
  = binary_round_aux prec emax s (m / 1) e (loc_of m 1).
Proof. unfold loc_of. by rewrite Z.mod_1_r, Z.div_1_r. Qed.

Lemma binary_round_aux_exact_near (s : bool) (m e : Z) :
  (0 <= m)%Z ->
  let r := binary_round_aux prec emax s m e loc_Exact in
  ((e <= fexp (Zdigits2 m + e))%Z -> valid_binary r = true)
  /\ (SFfinite r = true ->
      SFsign r = s
      /\ Qabs (SFmag r - inject_Z m * 2 ^ e) <= u53 * SFmag r + eta
      /\ ((-1074 <= e)%Z ->
          Qabs (SFmag r - inject_Z m * 2 ^ e) <= u53 * SFmag r)).
Proof.
  intros Hm r. unfold r. rewrite binary_round_aux_exact_form. split.
  - intros Hle. apply binary_round_aux_valid; [done..|].
    by rewrite Z.div_1_r.
  - intros Hfin.
    destruct (binary_round_aux_near s e m 1 Hm ltac:(done)
                ltac:(left; apply Z.mod_1_r) Hfin) as (Hs & Hn & Hrel).
    assert (Hx : inject_Z m / inject_Z 1 * 2 ^ e == inject_Z m * 2 ^ e)
      by (change (inject_Z 1) with 1; field).
    rewrite Hx in Hn, Hrel. split; [done|]. split; [done|].
    intros He. apply Hrel; [apply Z.mod_1_r|done].
Qed.

Lemma Pos_iter_xO (m d : positive) :
  Z.pos (Pos.iter xO m d) = (Z.pos m * 2 ^ Z.pos d)%Z.
Proof.
  induction d as [|d IH] using Pos.peano_ind.
  - simpl. lia.
  - rewrite Pos.iter_succ, Pos2Z.inj_xO, IH, Pos2Z.inj_succ, Z.pow_succ_r by lia.
    ring.
Qed.

Lemma shl_align_spec (mx : positive) (ex et : Z) :
  (shl_align mx ex et).2 = Z.min ex et
  /\ Z.pos (shl_align mx ex et).1
     = (Z.pos mx * 2 ^ (ex - (shl_align mx ex et).2))%Z.
Proof.
  unfold shl_align. destruct (et - ex)%Z as [|d|d] eqn:Hd; simpl.
  - split; [lia|]. rewrite Z.sub_diag. lia.
  - split; [lia|]. rewrite Z.sub_diag. lia.
  - split; [lia|]. rewrite Pos_iter_xO. f_equal. f_equal. lia.
Qed.

Lemma binary_round_near (sx : bool) (mx : positive) (ex : Z) :
  let r := binary_round prec emax sx mx ex in
  valid_binary r = true
  /\ (SFfinite r = true ->
      SFsign r = sx
      /\ Qabs (SFmag r - inject_Z (Z.pos mx) * 2 ^ ex) <= u53 * SFmag r + eta
      /\ ((-1074 <= ex)%Z ->
          Qabs (SFmag r - inject_Z (Z.pos mx) * 2 ^ ex) <= u53 * SFmag r)).
Proof.
  intros r. unfold r, binary_round.
  change (Z.pos (digits2_pos mx)) with (Zdigits2 (Z.pos mx)).
  destruct (shl_align_spec mx ex (fexp (Zdigits2 (Z.pos mx) + ex)))
    as [He Hm].
  destruct (shl_align mx ex _) as [mz ez]. cbn [fst snd] in He, Hm.
  assert (Hsh : (0 <= ex - ez)%Z) by lia.
  assert (Hdig : (Zdigits2 (Z.pos mz) + ez = Zdigits2 (Z.pos mx) + ex)%Z).
  { rewrite Hm, Zdigits2_mul_pow2 by lia. lia. }
  destruct (binary_round_aux_exact_near sx (Z.pos mz) ez ltac:(done))
    as [Hvalid Hnear].
  split.
  - apply Hvalid. rewrite Hdig. lia.
  - intros Hfin. destruct (Hnear Hfin) as (Hs & Hn & Hrel).
    assert (Hx : inject_Z (Z.pos mz) * 2 ^ ez
                 == inject_Z (Z.pos mx) * 2 ^ ex).
    { rewrite Hm, inject_Z_mult, <- pow2_inject, <- Qmult_assoc, <- pow2_add
        by lia.
      by replace (ex - ez + ez)%Z with ex by lia. }
    rewrite Hx in Hn, Hrel. split; [done|]. split; [done|].
    intros Hex. apply Hrel. rewrite fexp_spec in He. lia.
Qed.

Lemma binary_normalize_near (m e : Z) (sz : bool) :
  let r := binary_normalize prec emax m e sz in
  valid_binary r = true
  /\ (SFfinite r = true ->
      Qabs (SF2Q r - inject_Z m * 2 ^ e) <= u53 * Qabs (SF2Q r) + eta
      /\ ((-1074 <= e)%Z ->
          Qabs (SF2Q r - inject_Z m * 2 ^ e) <= u53 * Qabs (SF2Q r))
      /\ ((0 <= m)%Z -> 0 <= SF2Q r)).
Proof.
  intros r. unfold r, binary_normalize. destruct m as [|p|p].
  - split; [done|]. intros _.
    pose proof u53_pos as Hu. pose proof eta_pos as Heta.
    assert (Hz0 : SF2Q (S754_zero sz) - inject_Z 0 * 2 ^ e == 0).
    { unfold SF2Q. simpl. destruct sz; ring. }
    assert (Hz1 : SF2Q (S754_zero sz) == 0) by (unfold SF2Q; by destruct sz).
    rewrite Hz0, Hz1. change (Qabs 0) with 0. repeat split; lra.
  - destruct (binary_round_near false p e) as [Hv Hn]. split; [done|].
    intros Hfin. destruct (Hn Hfin) as (Hs & Hnear & Hrel).
    rewrite Qabs_SF2Q, (SF2Q_signed _ _ Hs).
    setoid_replace (1 * SFmag (binary_round prec emax false p e)
                    - inject_Z (Z.pos p) * 2 ^ e)
      with (SFmag (binary_round prec emax false p e)
            - inject_Z (Z.pos p) * 2 ^ e) using relation Qeq by ring.
    split; [done|]. split; [done|]. intros _.
    pose proof (SFmag_nonneg (binary_round prec emax false p e)). lra.
  - destruct (binary_round_near true p e) as [Hv Hn]. split; [done|].
    intros Hfin. destruct (Hn Hfin) as (Hs & Hnear & Hrel).
    rewrite Qabs_SF2Q, (SF2Q_signed _ _ Hs).
    assert (Hx : inject_Z (Z.neg p) * 2 ^ e
                 == - 1 * (inject_Z (Z.pos p) * 2 ^ e)).
    { change (Z.neg p) with (- Z.pos p)%Z. rewrite inject_Z_opp. ring. }
    rewrite Hx, (Qabs_signed true).
    split; [done|]. split; [done|]. intros Hneg. lia.
Qed.

(** ** Multiplication *)

Lemma SFmul_near (x y : spec_float) :
  SFfinite (SFmul prec emax x y) = true ->
  SFfinite x = true /\ SFfinite y = true
  /\ Qabs (SF2Q (SFmul prec emax x y) - SF2Q x * SF2Q y)
     <= u53 * Qabs (SF2Q (SFmul prec emax x y)) + eta
  /\ (0 <= SF2Q x -> 0 <= SF2Q y -> 0 <= SF2Q (SFmul prec emax x y)).
Proof.
  pose proof u53_pos as Hu. pose proof eta_pos as Heta.
  assert (Hzero : forall s z,
            SF2Q (S754_zero s) == 0
            /\ Qabs (SF2Q (S754_zero s) - z * 0)
               <= u53 * Qabs (SF2Q (S754_zero s)) + eta).
  { intros s z. assert (H0 : SF2Q (S754_zero s) == 0)
      by (unfold SF2Q; by destruct s).
    split; [done|]. rewrite H0.
    setoid_replace (0 - z * 0) with 0 using relation Qeq by ring.
    change (Qabs 0) with 0. lra. }
  intros Hfin.
  destruct x as [sx|sx| |sx mx ex], y as [sy|sy| |sy my ey];
    try discriminate Hfin; (split; [done|]); (split; [done|]).
  - simpl SFmul. destruct (Hzero (xorb sx sy) (SF2Q (S754_zero sx))) as [H0 H1].
    assert (Hy : SF2Q (S754_zero sy) == 0) by (unfold SF2Q; by destruct sy).
    rewrite Hy. split; [done|]. intros _ _. lra.
  - simpl SFmul. destruct (Hzero (xorb sx sy) (SF2Q (S754_finite sy my ey)))
      as [H0 H1].
    assert (Hx : SF2Q (S754_zero sx) == 0) by (unfold SF2Q; by destruct sx).
    rewrite Hx, Qmult_comm. split; [done|]. intros _ _. lra.
  - simpl SFmul. destruct (Hzero (xorb sx sy) (SF2Q (S754_finite sx mx ex)))
      as [H0 H1].
    assert (Hy : SF2Q (S754_zero sy) == 0) by (unfold SF2Q; by destruct sy).
    rewrite Hy. split; [done|]. intros _ _. lra.
  - simpl SFmul in *.
    destruct (binary_round_aux_exact_near (xorb sx sy) (Z.pos (mx * my))
                (ex + ey) ltac:(done)) as [_ Hnear].
    destruct (Hnear Hfin) as (Hs & Hn & _).
    set (r := binary_round_aux _ _ _ _ _ _) in *.
    assert (Hprod : SF2Q (S754_finite sx mx ex) * SF2Q (S754_finite sy my ey)
                    == (if xorb sx sy then - 1 else 1)
                       * (inject_Z (Z.pos (mx * my)) * 2 ^ (ex + ey))).
    { rewrite !SF2Q_finite, Pos2Z.inj_mul, inject_Z_mult, pow2_add.
      destruct sx, sy; simpl; ring. }
    split.
    + rewrite Qabs_SF2Q, Hprod, (SF2Q_signed _ _ Hs), Qabs_signed. exact Hn.
    + intros Hx Hy. rewrite (SF2Q_signed _ _ Hs).
      assert (Hpos : forall s m e, 0 <= SF2Q (S754_finite s m e) -> s = false).
      { intros s m e. rewrite SF2Q_finite. destruct s; [|done].
        pose proof (pow2_pos e). assert (0 < inject_Z (Z.pos m)) by done.
        intros. nra. }
      rewrite (Hpos _ _ _ Hx), (Hpos _ _ _ Hy). simpl.
      pose proof (SFmag_nonneg r). lra.
Qed.

(** ** Addition *)

Lemma valid_binary_exponent (s : bool) (m : positive) (e : Z) :
  valid_binary (S754_finite s m e) = true ->
  (-1074 <= e <= 971)%Z /\ (Z.pos m < 2 ^ 53)%Z.
Proof.
  unfold SpecFloat.valid_binary, bounded, canonical_mantissa.
  change (emax - prec)%Z with 971%Z.
  change (Z.pos (digits2_pos m)) with (Zdigits2 (Z.pos m)).
  intros [Hc Hb]%andb_prop. apply Z.eqb_eq in Hc. apply Z.leb_le in Hb.
  rewrite fexp_spec in Hc. split; [lia|].
  destruct (Zdigits2_bounds (Z.pos m) ltac:(done)) as (_ & Hup & _).
  eapply Z.lt_le_trans; [exact Hup|]. apply Z.pow_le_mono_r; lia.
Qed.

Lemma SFadd_near (x y : spec_float) :
  valid_binary x = true -> valid_binary y = true ->
  SFfinite (SFadd prec emax x y) = true ->
  SFfinite x = true /\ SFfinite y = true
  /\ Qabs (SF2Q (SFadd prec emax x y) - (SF2Q x + SF2Q y))
     <= u53 * Qabs (SF2Q (SFadd prec emax x y))
  /\ valid_binary (SFadd prec emax x y) = true.
Proof.
  pose proof u53_pos as Hu.
  assert (Hz : forall s, SF2Q (S754_zero s) == 0)
    by (intros s; unfold SF2Q; by destruct s).
  assert (Hsame : forall z, Qabs (z - (0 + z)) <= u53 * Qabs z).
  { intros z. setoid_replace (z - (0 + z)) with 0 using relation Qeq by ring.
    change (Qabs 0) with 0. pose proof (Qabs_nonneg z). nra. }
  intros Hvx Hvy Hfin.
  destruct x as [sx|sx| |sx mx ex], y as [sy|sy| |sy my ey];
    try discriminate Hfin; try (destruct sx, sy; discriminate Hfin);
    (split; [done|]); (split; [done|]).
  - split; [|by destruct sx, sy].
    assert (H0 : SF2Q (SFadd prec emax (S754_zero sx) (S754_zero sy)) == 0)
      by (destruct sx, sy; apply Hz).
    rewrite H0, !Hz. change (Qabs (0 - (0 + 0))) with 0.
    change (Qabs 0) with 0. lra.
  - simpl SFadd. split; [|done]. rewrite Hz. apply Hsame.
  - simpl SFadd. split; [|done]. rewrite Hz, Qplus_comm. apply Hsame.
  - simpl SFadd in *.
    destruct (valid_binary_exponent _ _ _ Hvx) as [Hex _].
    destruct (valid_binary_exponent _ _ _ Hvy) as [Hey _].
    destruct (shl_align_spec mx ex (Z.min ex ey)) as [Hxe Hxm].
    destruct (shl_align_spec my ey (Z.min ex ey)) as [Hye Hym].
    set (ez := Z.min ex ey) in *.
    set (z := (cond_Zopp sx (Z.pos (shl_align mx ex ez).1)
               + cond_Zopp sy (Z.pos (shl_align my ey ez).1))%Z) in *.
    destruct (binary_normalize_near z ez false) as [Hv Hn].
    split; [|done]. destruct (Hn Hfin) as (_ & Hrel & _).
    assert (Hsum : SF2Q (S754_finite sx mx ex) + SF2Q (S754_finite sy my ey)
                   == inject_Z z * 2 ^ ez).
    { unfold z. rewrite inject_Z_plus, !SF2Q_finite.
      assert (Hx : inject_Z (Z.pos mx) * 2 ^ ex
                   == inject_Z (Z.pos (shl_align mx ex ez).1) * 2 ^ ez).
      { rewrite Hxm, Hxe, inject_Z_mult, <- pow2_inject, <- Qmult_assoc,
          <- pow2_add by lia.
        by replace (ex - Z.min ex ez + ez)%Z with ex by lia. }
      assert (Hy : inject_Z (Z.pos my) * 2 ^ ey
                   == inject_Z (Z.pos (shl_align my ey ez).1) * 2 ^ ez).
      { rewrite Hym, Hye, inject_Z_mult, <- pow2_inject, <- Qmult_assoc,
          <- pow2_add by lia.
        by replace (ey - Z.min ey ez + ez)%Z with ey by lia. }
      rewrite Hx, Hy.
      destruct sx, sy; unfold cond_Zopp; rewrite ?inject_Z_opp; ring. }
    rewrite Hsum. apply Hrel. lia.
Qed.

(** ** Division *)

Lemma new_location_loc_of (N D : Z) :
  (0 < D)%Z -> new_location D (N mod D) = loc_of N D.
Proof.
  intros HD. pose proof (Z.mod_pos_bound N D HD) as Hr.
  unfold new_location, new_location_even, new_location_odd, loc_of.
  set (r := (N mod D)%Z) in *.
  destruct (Z.even D) eqn:Hev; [done|].
  destruct (Z.eqb_spec r 0) as [E|E]; [done|]. f_equal.
  assert (Hodd : Z.odd D = true) by (rewrite <- Z.negb_even, Hev; done).
  apply Z.odd_spec in Hodd as [h Hh].
  destruct (Z.compare_spec (2 * r + 1) D) as [Hc|Hc|Hc]; symmetry.
  - apply Z.compare_lt_iff. lia.
  - apply Z.compare_lt_iff. lia.
  - apply Z.compare_gt_iff. lia.
Qed.

Lemma fexp_mono (a b : Z) : (a <= b)%Z -> (fexp a <= fexp b)%Z.
Proof. rewrite !fexp_spec. lia. Qed.

Lemma SFdiv_finite_near (sx sy : bool) (mx my : positive) (ex ey : Z) :
  let r := SFdiv prec emax (S754_finite sx mx ex) (S754_finite sy my ey) in
  valid_binary r = true
  /\ (SFfinite r = true ->
      SFsign r = xorb sx sy
      /\ Qabs (SFmag r
               - (inject_Z (Z.pos mx) * 2 ^ ex) / (inject_Z (Z.pos my) * 2 ^ ey))
         <= u53 * SFmag r + eta).
Proof.
  intros r. unfold r. simpl SFdiv. unfold SFdiv_core_binary.
  fold (fexp (Zdigits2 (Z.pos mx) + ex - (Zdigits2 (Z.pos my) + ey))).
  set (d1 := Zdigits2 (Z.pos mx)). set (d2 := Zdigits2 (Z.pos my)).
  set (e' := Z.min (fexp (d1 + ex - (d2 + ey))) (ex - ey)).
  set (sh := (ex - ey - e')%Z).
  assert (Hsh : (0 <= sh)%Z) by (unfold sh, e'; lia).
  set (m' := match sh with
             | 0%Z => Z.pos mx
             | Z.pos _ => Z.shiftl (Z.pos mx) sh
             | Z.neg _ => 0%Z
             end).
  assert (Hm' : m' = (Z.pos mx * 2 ^ sh)%Z).
  { unfold m'. destruct sh as [|p|p] eqn:E; [lia| |lia].
    by rewrite Z.shiftl_mul_pow2. }
  clearbody m'.
  assert (Hp : (0 < 2 ^ sh)%Z) by (apply Z.pow_pos_nonneg; lia).
  assert (HN : (0 <= m')%Z) by nia.
  assert (Hqr : Z.div_eucl m' (Z.pos my) = (m' / Z.pos my, m' mod Z.pos my)%Z).
  { unfold Z.div, Z.modulo. by destruct (Z.div_eucl m' (Z.pos my)). }
  rewrite Hqr, new_location_loc_of by done.
  (* the quotient has enough digits *)
  assert (Hle : (e' <= fexp (Zdigits2 (m' / Z.pos my) + e'))%Z).
  { apply Z.le_trans with (fexp (d1 + ex - (d2 + ey))); [unfold e'; lia|].
    apply fexp_mono.
    assert (Hq0 : (0 <= m' / Z.pos my)%Z) by (apply Z.div_pos; lia).
    destruct (Zdigits2_bounds _ Hq0) as (Hd0 & _ & _).
    destruct (Z_le_gt_dec (d1 - d2 + sh) 0) as [Hsmall|Hbig];
      [unfold sh in Hsmall; lia|].
    assert (Hj : (d1 - d2 + sh - 1 < Zdigits2 (m' / Z.pos my))%Z);
      [|unfold sh in Hj; lia].
    apply Zdigits2_gt; [lia|].
    destruct (Zdigits2_bounds (Z.pos mx) ltac:(done)) as (_ & _ & Hl1).
    destruct (Zdigits2_bounds (Z.pos my) ltac:(done)) as (Hd2 & Hu2 & _).
    specialize (Hl1 ltac:(done)). fold d1 in Hl1. fold d2 in Hu2, Hd2.
    assert (Hd1 : (0 < d1)%Z).
    { destruct (Z_lt_le_dec 0 d1) as [|Hd]; [done|]. unfold d1 in Hd.
      simpl in Hd. lia. }
    apply Z.div_le_lower_bound; [lia|].
    assert (H1 : (2 ^ (d1 - 1) * 2 ^ sh <= m')%Z) by (rewrite Hm'; nia).
    rewrite <- Z.pow_add_r in H1 by lia.
    assert (H2 : (2 ^ (d1 - d2 + sh - 1) * 2 ^ d2 = 2 ^ (d1 - 1 + sh))%Z).
    { rewrite <- Z.pow_add_r by lia. f_equal. lia. }
    assert (H3 : (0 < 2 ^ (d1 - d2 + sh - 1))%Z)
      by (apply Z.pow_pos_nonneg; lia).
    nia. }
  split; [by apply binary_round_aux_valid|].
  intros Hfin.
  destruct (binary_round_aux_near (xorb sx sy) e' m' (Z.pos my) HN
              ltac:(done) (or_intror Hle) Hfin) as (Hs & Hn & _).
  split; [done|].
  assert (Hx : inject_Z m' / inject_Z (Z.pos my) * 2 ^ e'
               == (inject_Z (Z.pos mx) * 2 ^ ex)
                  / (inject_Z (Z.pos my) * 2 ^ ey)).
  { rewrite Hm', inject_Z_mult, <- pow2_inject by lia.
    assert (Hex : 2 ^ ex == 2 ^ sh * 2 ^ e' * 2 ^ ey).
    { rewrite <- !pow2_add. by replace (sh + e' + ey)%Z with ex
        by (unfold sh; lia). }
    rewrite Hex.
    pose proof (pow2_pos ey). assert (0 < inject_Z (Z.pos my)) by done.
    field. split; lra. }
  by rewrite Hx in Hn.
Qed.

(** ** Primitive floats *)

Lemma F2Q_non_finite (x : float) : finite x = false -> F2Q x == 0.
Proof.
  unfold finite, F2Q, SF2Q. by destruct (Prim2SF x) as [| [|] | |].
Qed.

Lemma Qabs_F2Q_eta (x : float) : Qabs (F2Q x) * eta <= 1 # 2 ^ 51.
Proof.
  unfold F2Q. rewrite Qabs_SF2Q.
  pose proof (Prim2SF_valid x) as Hv.
  destruct (Prim2SF x) as [| | |s m e]; try done.
  destruct (valid_binary_exponent _ _ _ Hv) as [He Hm]. simpl SFmag.
  assert (H1 : inject_Z (Z.pos m) <= inject_Z (2 ^ 53))
    by (rewrite <- Zle_Qle; lia).
  assert (H2 : 2 ^ e <= 2 ^ 971) by (apply Qpower_le_compat_l; [lia|done]).
  pose proof (pow2_pos e) as H3.
  assert (H4 : 0 < inject_Z (Z.pos m)) by done.
  assert (H5 : inject_Z (2 ^ 53) * 2 ^ 971 * eta == 1 # 2 ^ 51)
    by (vm_compute; reflexivity).
  rewrite <- H5.
  apply Qmult_le_compat_r; [|done].
  apply Qle_trans with (inject_Z (2 ^ 53) * 2 ^ e).
  - apply Qmult_le_compat_r; lra.
  - apply Qmult_le_l; [done|lra].
Qed.

Lemma mul_near (x y : float) :
  finite (x * y) = true ->
  finite x = true /\ finite y = true
  /\ Qabs (F2Q (x * y) - F2Q x * F2Q y) <= u53 * Qabs (F2Q (x * y)) + eta
  /\ (0 <= F2Q x -> 0 <= F2Q y -> 0 <= F2Q (x * y)).
Proof. unfold finite, F2Q. rewrite mul_spec. apply SFmul_near. Qed.

Lemma add_near (x y : float) :
  finite (x + y) = true ->
  finite x = true /\ finite y = true
  /\ Qabs (F2Q (x + y) - (F2Q x + F2Q y)) <= u53 * Qabs (F2Q (x + y))
  /\ (0 <= F2Q x -> 0 <= F2Q y -> 0 <= F2Q (x + y)).
Proof.
  unfold finite, F2Q. rewrite add_spec. intros Hfin.
  destruct (SFadd_near _ _ (Prim2SF_valid x) (Prim2SF_valid y) Hfin)
    as (Hx & Hy & Hn & _).
  split; [done|]. split; [done|]. split; [done|].
  intros Hx0 Hy0. set (z := SF2Q _) in *.
  apply Qabs_Qle_condition in Hn as [Hlow _].
  destruct (Qlt_le_dec z 0) as [Hneg|]; [|done].
  rewrite (Qabs_neg z) in Hlow by lra.
  pose proof u53_pos. assert (u53 < 1) by reflexivity. nra.
Qed.

(** ** [round(x, ndigits)] *)

Lemma Prim2SF_zeros :
  Prim2SF zero = S754_zero false /\ Prim2SF neg_zero = S754_zero true.
Proof. split; reflexivity. Qed.

(** The decimal that [round] picks is within half a unit of its last
    place. *)
Lemma round_decimal_near (m : positive) (e : Z) (p : positive) :
  let k := if (0 <=? e)%Z then (Z.pos m * Z.pos p * 2 ^ e)%Z
           else round_half_even (Z.pos m * Z.pos p) (2 ^ (- e)) in
  (0 <= k)%Z
  /\ Qabs (inject_Z k / inject_Z (Z.pos p) - inject_Z (Z.pos m) * 2 ^ e)
     <= 1 # 2 * p.
Proof.
  intros k. assert (Hp : 0 < inject_Z (Z.pos p)) by done.
  destruct (Z.leb_spec 0 e) as [He|He]; unfold k.
  - split; [nia|].
    assert (Hz : inject_Z (Z.pos m * Z.pos p * 2 ^ e) / inject_Z (Z.pos p)
                 - inject_Z (Z.pos m) * 2 ^ e == 0).
    { rewrite !inject_Z_mult, <- pow2_inject by done. field. lra. }
    rewrite Hz. done.
  - set (D := (2 ^ (- e))%Z).
    assert (HD : (0 < D)%Z) by (apply Z.pow_pos_nonneg; lia).
    pose proof (round_half_even_near (Z.pos m * Z.pos p) D HD) as Hnear.
    pose proof (round_half_even_bounds (Z.pos m * Z.pos p) D HD) as Hb.
    assert (Hq : (0 <= Z.pos m * Z.pos p / D)%Z) by (apply Z.div_pos; lia).
    set (k' := round_half_even _ D) in *. split; [lia|].
    assert (HDq : 0 < inject_Z D) by (change 0 with (inject_Z 0);
                                      by rewrite <- Zlt_Qlt).
    assert (He' : 2 ^ e == / inject_Z D).
    { unfold D. rewrite <- pow2_inject by lia.
      rewrite Qpower_opp. by rewrite Qinv_involutive. }
    rewrite He'.
    assert (Hn : - inject_Z D
                 <= 2 * (inject_Z k' * inject_Z D
                         - inject_Z (Z.pos m) * inject_Z (Z.pos p))
                 <= inject_Z D).
    { rewrite <- !inject_Z_mult. change 2 with (inject_Z 2). unfold Qminus.
      rewrite <- !inject_Z_opp, <- inject_Z_plus, <- inject_Z_mult,
        <- !Zle_Qle.
      lia. }
    set (a := inject_Z k') in *. set (b := inject_Z (Z.pos m)) in *.
    set (c := inject_Z (Z.pos p)) in *. set (d := inject_Z D) in *.
    assert (Hhalf : (1 # 2 * p) == (1 # 2) / c).
    { unfold c. rewrite Qmake_Qdiv, Pos2Z.inj_mul, inject_Z_mult.
      change (inject_Z 1) with 1. change (inject_Z 2) with 2. field. fold c.
      lra. }
    rewrite Hhalf.
    assert (Heq : a / c - b * / d == (a * d - b * c) / (c * d))
      by (field; split; lra).
    rewrite Heq. apply Qabs_Qle_condition.
    assert (Hcd : 0 < c * d) by nra.
    split.
    + apply Qle_shift_div_l; [done|].
      setoid_replace (- ((1 # 2) / c) * (c * d)) with (- (1 # 2) * d)
        using relation Qeq by (field; lra).
      lra.
    + apply Qle_shift_div_r; [done|].
      setoid_replace ((1 # 2) / c * (c * d)) with ((1 # 2) * d)
        using relation Qeq by (field; lra).
      lra.
Qed.

Lemma round_near (x : float) (ndigits : nat) :
  finite (Binary64.round x ndigits) = true ->
  finite x = true
  /\ Qabs (F2Q (Binary64.round x ndigits) - F2Q x)
     <= (1 # 2 * Z.to_pos (10 ^ Z.of_nat ndigits))
        + u53 * Qabs (F2Q (Binary64.round x ndigits)) + eta
  /\ (0 <= F2Q x -> 0 <= F2Q (Binary64.round x ndigits)).
Proof.
  pose proof u53_pos as Hu. pose proof eta_pos as Heta.
  assert (Hsame : forall z c, 0 < c -> Qabs (z - z) <= c + u53 * Qabs z + eta).
  { intros z c Hc. setoid_replace (z - z) with 0 using relation Qeq by ring.
    change (Qabs 0) with 0. pose proof (Qabs_nonneg z). nra. }
  assert (Hc : 0 < 1 # 2 * Z.to_pos (10 ^ Z.of_nat ndigits)) by done.
  unfold Binary64.round, finite, F2Q.
  destruct (Prim2SF x) as [s|s| |s m e] eqn:Hx;
    try (rewrite Hx; intros Hfin; split; [done|]; split; [by apply Hsame|done]).
  pose proof (pow10_pos ndigits) as Hp.
  destruct (10 ^ Z.of_nat ndigits)%Z as [|p|p] eqn:Ep; try lia.
  cbv zeta. simpl Z.to_pos.
  destruct (round_decimal_near m e p) as [Hk0 Hkn]. cbv zeta in Hk0, Hkn.
  set (k := if (0 <=? e)%Z then _ else _) in *.
  assert (Hzero : k = 0%Z ->
            forall z, SF2Q z == 0 ->
            Qabs (SF2Q z - SF2Q (S754_finite s m e))
            <= (1 # 2 * p) + u53 * Qabs (SF2Q z) + eta).
  { intros E z Hz. rewrite E in Hkn. rewrite Hz, SF2Q_finite.
    change (Qabs 0) with 0.
    setoid_replace (inject_Z 0 / inject_Z (Z.pos p)
                    - inject_Z (Z.pos m) * 2 ^ e)
      with (- (inject_Z (Z.pos m) * 2 ^ e)) using relation Qeq in Hkn
      by (change (inject_Z 0) with 0; field; done).
    rewrite Qabs_opp in Hkn.
    setoid_replace (0 - (if s then - 1 else 1) * (inject_Z (Z.pos m) * 2 ^ e))
      with ((if s then - 1 else 1) * 0
            - (if s then - 1 else 1) * (inject_Z (Z.pos m) * 2 ^ e))
      using relation Qeq by ring.
    rewrite Qabs_signed.
    setoid_replace (0 - inject_Z (Z.pos m) * 2 ^ e)
      with (- (inject_Z (Z.pos m) * 2 ^ e)) using relation Qeq by ring.
    rewrite Qabs_opp. lra. }
  destruct k as [|k'|k'] eqn:Ek; [| |lia].
  - intros _. split; [done|].
    destruct Prim2SF_zeros as [Hz Hnz].
    split.
    + destruct s; rewrite ?Hz, ?Hnz; by apply Hzero.
    + intros _. by destruct s; rewrite ?Hz, ?Hnz.
  - destruct (SFdiv_finite_near s false k' p 0 0) as [Hv Hn].
    change (Binary64.exact_Z (Z.pos p)) with (S754_finite false p 0).
    rewrite (Prim2SF_SF2Prim _ Hv).
    set (r := SFdiv _ _ _ _) in *.
    intros Hfin. split; [done|]. destruct (Hn Hfin) as [Hs Hnear].
    rewrite xorb_false_r in Hs.
    rewrite Qabs_SF2Q, (SF2Q_signed _ _ Hs), SF2Q_finite, Qabs_signed.
    assert (Hq : inject_Z (Z.pos k') * 2 ^ 0 / (inject_Z (Z.pos p) * 2 ^ 0)
                 == inject_Z (Z.pos k') / inject_Z (Z.pos p)).
    { change (2 ^ 0) with 1. assert (0 < inject_Z (Z.pos p)) by done.
      field. lra. }
    rewrite Hq in Hnear. split.
    + set (a := SFmag r) in *. set (q := _ / _) in *.
      set (b := inject_Z (Z.pos m) * 2 ^ e) in *.
      apply Qabs_Qle_condition in Hnear as [H1 H2].
      apply Qabs_Qle_condition in Hkn as [H3 H4].
      apply Qabs_Qle_condition. split; lra.
    + intros Hx0.
      assert (s = false) as ->.
      { destruct s; [|done]. pose proof (pow2_pos e).
        assert (0 < inject_Z (Z.pos m)) by done. nra. }
      pose proof (SFmag_nonneg r). lra.
Qed.

(** ** Running sums *)

(** One turn of the two running sums, in numbers: [a] is the energy so
    far, [b] the cost so far, [x] the energy of the appliance and [y] its
    cost as computed. *)
Lemma running_sums_step (a0 b0 x y a1 b1 t : Q) :
  0 <= a0 -> 0 <= b0 -> 0 <= x -> 0 <= y -> 0 <= a1 -> 0 <= b1 -> 0 <= t ->
  Qabs (a1 - (a0 + x)) <= u53 * a1 ->
  Qabs (y - x * t) <= u53 * y + eta ->
  Qabs (b1 - (b0 + y)) <= u53 * b1 ->
  a0 <= (1 + u53) * a1 /\ b0 <= (1 + u53) * b1
  /\ Qabs (b1 - t * a1)
     <= Qabs (b0 - t * a0) + 3 * u53 * b1 + u53 * (t * a1) + eta.
Proof.
  intros Ha0 Hb0 Hx Hy Ha1 Hb1 Ht H1 H2 H3.
  pose proof u53_pos as Hu. assert (Hu1 : u53 <= 1) by done.
  apply Qabs_Qle_condition in H1 as [H1l H1u].
  apply Qabs_Qle_condition in H2 as [H2l H2u].
  apply Qabs_Qle_condition in H3 as [H3l H3u].
  set (ua := u53 * a1) in *. set (ub := u53 * b1) in *.
  set (uy := u53 * y) in *.
  assert (Hua : 0 <= ua) by (unfold ua; nra).
  assert (Hub : 0 <= ub) by (unfold ub; nra).
  assert (Huy : uy <= 2 * ub).
  { assert (y <= b1 + ub) by lra. unfold uy, ub in *. nra. }
  assert (Hga : (1 + u53) * a1 == a1 + ua) by (unfold ua; ring).
  assert (Hgb : (1 + u53) * b1 == b1 + ub) by (unfold ub; ring).
  rewrite Hga, Hgb.
  split; [lra|]. split; [lra|].
  pose proof (Qle_Qabs (b0 - t * a0)) as Hd1.
  pose proof (Qle_Qabs (- (b0 - t * a0))) as Hd2. rewrite Qabs_opp in Hd2.
  set (d0 := Qabs (b0 - t * a0)) in *.
  assert (Hta : - (t * ua) <= t * a1 - t * (a0 + x) <= t * ua) by nra.
  assert (Hrw : u53 * (t * a1) == t * ua) by (unfold ua; ring).
  rewrite Hrw.
  apply Qabs_Qle_condition. split; nra.
Qed.

Lemma running_sums_chain (p a0 b0 a1 b1 A B t : Q) :
  0 <= p -> 2 * (p + 1) * u53 <= 1 ->
  0 <= a0 -> 0 <= b0 -> 0 <= a1 -> 0 <= b1 -> 0 <= A -> 0 <= B -> 0 <= t ->
  a0 <= (1 + u53) * a1 -> b0 <= (1 + u53) * b1 ->
  Qabs (b1 - t * a1)
  <= Qabs (b0 - t * a0) + 3 * u53 * b1 + u53 * (t * a1) + eta ->
  a1 <= (1 + 2 * p * u53) * A -> b1 <= (1 + 2 * p * u53) * B ->
  Qabs (B - t * A)
  <= Qabs (b1 - t * a1) + 6 * p * u53 * (B + t * A) + p * eta ->
  a0 <= (1 + 2 * (p + 1) * u53) * A
  /\ b0 <= (1 + 2 * (p + 1) * u53) * B
  /\ Qabs (B - t * A)
     <= Qabs (b0 - t * a0) + 6 * (p + 1) * u53 * (B + t * A) + (p + 1) * eta.
Proof.
  intros Hp Hn Ha0 Hb0 Ha1 Hb1 HA HB Ht Ha Hb Hstep HaA HbB HIH.
  pose proof u53_pos as Hu. pose proof eta_pos as Heta.
  set (M := 1 + 2 * p * u53) in *. set (M' := 1 + 2 * (p + 1) * u53).
  assert (HM : (1 + u53) * M <= M') by (unfold M, M'; nra).
  assert (HM2 : M <= 2) by (unfold M; nra).
  assert (HM0 : 0 <= M) by (unfold M; nra).
  assert (Ha' : (1 + u53) * a1 <= (1 + u53) * M * A) by nra.
  assert (Hb' : (1 + u53) * b1 <= (1 + u53) * M * B) by nra.
  assert (HA' : (1 + u53) * M * A <= M' * A) by nra.
  assert (HB' : (1 + u53) * M * B <= M' * B) by nra.
  split; [lra|]. split; [lra|].
  assert (Hb2 : b1 <= 2 * B) by nra.
  assert (Ha2' : a1 <= 2 * A) by nra.
  assert (Ha2 : t * a1 <= 2 * (t * A)) by nra.
  assert (HtA : 0 <= t * A) by nra.
  set (tA := t * A) in *. set (ta1 := t * a1) in *.
  assert (Hs : 3 * u53 * b1 + u53 * ta1 <= 6 * u53 * (B + tA)) by nra.
  set (d1 := Qabs (b1 - ta1)) in *. set (d0 := Qabs (b0 - t * a0)) in *.
  set (dF := Qabs (B - tA)) in *.
  assert (Hexp : 6 * (p + 1) * u53 * (B + tA)
                 == 6 * p * u53 * (B + tA) + 6 * u53 * (B + tA)) by ring.
  rewrite Hexp. lra.
Qed.

Lemma fold_left_add_finite (xs : list float) :
  forall a : float,
    finite (fold_left PrimFloat.add xs a) = true -> finite a = true.
Proof.
  induction xs as [|x xs IH]; intros a; [done|].
  cbn [fold_left]. intros Hf. by apply IH, add_near in Hf as [Ha _].
Qed.

(** The two running sums of the loop, over energies [es] that are not
    negative and a tariff [t] that is not negative: how far the sum of the
    costs is from the tariff times the sum of the energies. *)
Lemma running_sums_near (t : float) (es : list float) :
  forall E0 C0 : float,
    let E := fold_left PrimFloat.add es E0 in
    let C := fold_left PrimFloat.add
               (map (fun e => PrimFloat.mul e t) es) C0 in
    let n := inject_Z (Z.of_nat (length es)) in
    finite E = true -> finite C = true ->
    0 <= F2Q t -> Forall (fun e => 0 <= F2Q e) es ->
    0 <= F2Q E0 -> 0 <= F2Q C0 ->
    2 * n * u53 <= 1 ->
    0 <= F2Q E /\ 0 <= F2Q C
    /\ F2Q E0 <= (1 + 2 * n * u53) * F2Q E
    /\ F2Q C0 <= (1 + 2 * n * u53) * F2Q C
    /\ Qabs (F2Q C - F2Q t * F2Q E)
       <= Qabs (F2Q C0 - F2Q t * F2Q E0)
          + 6 * n * u53 * (F2Q C + F2Q t * F2Q E) + n * eta.
Proof.
  induction es as [|e es IH]; intros E0 C0 E C n HE HC Ht Hes HE0 HC0 Hn.
  - subst E C n. cbn [fold_left map length]. change (inject_Z (Z.of_nat 0)) with 0.
    pose proof (Qabs_nonneg (F2Q C0 - F2Q t * F2Q E0)).
    repeat split; try done; lra.
  - apply Forall_cons in Hes as [He Hes].
    subst E C. cbn [fold_left map] in *.
    assert (Hlen : n == inject_Z (Z.of_nat (length es)) + 1).
    { unfold n. cbn [length]. rewrite Nat2Z.inj_succ, <- Z.add_1_r.
      by rewrite inject_Z_plus. }
    set (p := inject_Z (Z.of_nat (length es))) in *.
    assert (Hp : 0 <= p).
    { unfold p. change 0 with (inject_Z 0). rewrite <- Zle_Qle. lia. }
    pose proof u53_pos as Hu.
    rewrite Hlen in Hn. rewrite Hlen. clearbody n. clear Hlen n.
    (* the head: one sum and one product *)
    pose proof (fold_left_add_finite _ _ HE) as HfE1.
    pose proof (fold_left_add_finite _ _ HC) as HfC1.
    destruct (add_near _ _ HfE1) as (_ & _ & HnE & HposE).
    destruct (add_near _ _ HfC1) as (_ & Hfy & HnC & HposC).
    destruct (mul_near _ _ Hfy) as (_ & _ & Hny & Hposy).
    specialize (Hposy He Ht). specialize (HposE HE0 He).
    specialize (HposC HC0 Hposy).
    rewrite (Qabs_pos _ HposE) in HnE. rewrite (Qabs_pos _ HposC) in HnC.
    rewrite (Qabs_pos _ Hposy) in Hny.
    destruct (running_sums_step _ _ _ _ _ _ _ HE0 HC0 He Hposy HposE HposC Ht
                HnE Hny HnC) as (Ha & Hb & Hstep).
    (* the tail *)
    destruct (IH (E0 + e)%float (C0 + e * t)%float HE HC Ht Hes HposE HposC)
      as (HA & HB & HaA & HbB & HIH); [fold p; nra|].
    fold p in HaA, HbB, HIH.
    split; [done|]. split; [done|].
    by apply (running_sums_chain p _ _ (F2Q (E0 + e)) (F2Q (C0 + e * t))).
Qed.

End Binary64Rounding.

(** *** Cost against energy, on binary64 *)

Section CostAgainstEnergy.

Local Open Scope Q_scope.

Implicit Types (a : Appliance float) (p t : number float).

(** **** Numbers that are not negative have values that are not negative *)

Lemma SF2Q_nonneg_of_sign (x : spec_float) :
  SFsign x = false \/ SFfinite x = false -> 0 <= SF2Q x.
Proof.
  intros [Hs|Hf].
  - rewrite (SF2Q_signed _ _ Hs). pose proof (SFmag_nonneg x). lra.
  - unfold SF2Q. destruct x as [| [|] | |]; try discriminate; done.
Qed.

Lemma F2Q_SF2Prim (x : spec_float) :
  valid_binary x = true -> F2Q (SF2Prim x) = SF2Q x.
Proof. intros Hv. unfold F2Q. by rewrite Prim2SF_SF2Prim. Qed.

Lemma F2Q_SF2Prim_nonneg (r : spec_float) :
  valid_binary r = true -> (SFfinite r = true -> 0 <= SF2Q r) ->
  0 <= F2Q (SF2Prim r).
Proof.
  intros Hv Hn. rewrite F2Q_SF2Prim by done.
  destruct (SFfinite r) eqn:Hf; [by apply Hn|].
  apply SF2Q_nonneg_of_sign. by right.
Qed.

Lemma of_Z_nonneg (z : Z) (f : float) :
  Binary64.of_Z z = Return f -> (0 <= z)%Z -> 0 <= F2Q f.
Proof.
  unfold Binary64.of_Z. intros Hf Hz.
  destruct (binary_normalize_near z 0 false) as [Hv Hn].
  remember (binary_normalize prec emax z 0 false) as r eqn:Hr.
  assert (Hfr : f = SF2Prim r)
    by (destruct r; try discriminate; by injection Hf).
  subst f. apply F2Q_SF2Prim_nonneg; [done|]. intros Hfin. by apply Hn.
Qed.

Lemma truediv_Z_nonneg (x y : Z) (f : float) :
  Binary64.truediv_Z x y = Return f -> (0 <= x)%Z -> (0 < y)%Z -> 0 <= F2Q f.
Proof.
  unfold Binary64.truediv_Z. intros Hf Hx Hy.
  destruct y as [|y|y]; try lia. destruct x as [|x|x]; try lia.
  - simpl in Hf. by injection Hf as <-.
  - change (Binary64.exact_Z (Z.pos x)) with (S754_finite false x 0) in Hf.
    change (Binary64.exact_Z (Z.pos y)) with (S754_finite false y 0) in Hf.
    destruct (SFdiv_finite_near false false x y 0 0) as [Hv Hn].
    remember (SFdiv prec emax (S754_finite false x 0) (S754_finite false y 0))
      as r eqn:Hr.
    assert (Hfr : f = SF2Prim r)
      by (destruct r; try discriminate; by injection Hf).
    subst f. apply F2Q_SF2Prim_nonneg; [done|]. intros Hfin.
    apply SF2Q_nonneg_of_sign. left. by apply Hn.
Qed.

Lemma div_nonneg (x y : float) :
  0 <= F2Q x -> 0 < F2Q y -> 0 <= F2Q (x / y).
Proof.
  unfold F2Q. rewrite div_spec. unfold SF64div.
  destruct (Prim2SF x) as [sx|sx| |sx mx ex] eqn:Hx,
           (Prim2SF y) as [sy|sy| |sy my ey] eqn:Hy;
    intros Hx0 Hy0;
    try (exfalso; revert Hy0; unfold SF2Q; simpl; destruct sy; lra);
    try (apply SF2Q_nonneg_of_sign; by right).
  - (* a zero over a finite float *)
    simpl. unfold SF2Q. simpl. destruct (xorb sx sy); lra.
  - assert (Hpos : forall s m e, 0 <= SF2Q (S754_finite s m e) -> s = false).
    { intros s m e. rewrite SF2Q_finite. destruct s; [|done].
      pose proof (pow2_pos e). assert (0 < inject_Z (Z.pos m)) by done.
      intros. nra. }
    rewrite (Hpos _ _ _ Hx0), (Hpos _ _ _ (Qlt_le_weak _ _ Hy0)).
    destruct (SFdiv_finite_near false false mx my ex ey) as [_ Hn].
    destruct (SFfinite (SFdiv prec emax (S754_finite false mx ex)
                          (S754_finite false my ey))) eqn:Hf.
    + apply SF2Q_nonneg_of_sign. left. by apply Hn.
    + apply SF2Q_nonneg_of_sign. by right.
Qed.

Lemma compare_Z_nonneg (f : float) :
  Binary64.compare_Z f 0 = Some Gt \/ Binary64.compare_Z f 0 = Some Eq ->
  0 <= F2Q f.
Proof.
  unfold Binary64.compare_Z, F2Q.
  destruct (Prim2SF f) as [s|s| |s m e]; intros Hc.
  - unfold SF2Q. by destruct s.
  - unfold SF2Q. by destruct s.
  - by destruct Hc.
  - apply SF2Q_nonneg_of_sign. left. simpl. destruct s; [|done].
    exfalso. destruct (Z.leb_spec 0 e) as [He|He].
    + pose proof (Z.pow_pos_nonneg 2 e ltac:(lia) He) as Hp.
      assert (Hneg : (Z.neg m * 2 ^ e < 0)%Z) by nia.
      destruct Hc as [Hc|Hc]; injection Hc as Hc.
      * apply Z.compare_gt_iff in Hc. lia.
      * apply Z.compare_eq_iff in Hc. lia.
    + destruct Hc as [Hc|Hc]; injection Hc as Hc; simpl in Hc; discriminate.
Qed.

Lemma to_float_nonneg (n : number float) (f : float) :
  to_float n = Return f -> non_negative n -> 0 <= F2Q f.
Proof.
  unfold non_negative, num_le, num_compare.
  destruct n as [b|z|x]; simpl; intros Hf Hn.
  - apply (of_Z_nonneg _ _ Hf). by destruct b.
  - apply (of_Z_nonneg _ _ Hf). destruct z; try done.
  - injection Hf as <-. apply compare_Z_nonneg.
    destruct (Binary64.compare_Z x 0) as [[| |]|]; simpl in Hn; try done;
      auto.
Qed.

Lemma positive_number_non_negative (n : number float) :
  positive_number n -> non_negative n.
Proof.
  unfold positive_number, non_negative, num_lt, num_le.
  by destruct (num_compare (NInt 0) n) as [[| |]|].
Qed.

Lemma mul_nonneg (x y : float) :
  0 <= F2Q x -> 0 <= F2Q y -> 0 <= F2Q (x * y).
Proof.
  intros Hx Hy. destruct (finite (x * y)) eqn:Hf.
  - by apply mul_near.
  - by rewrite F2Q_non_finite.
Qed.

(** **** The energies and the costs that enter the running sums *)

(** The energy of an appliance that is on, for a power above zero and
    hours that are not negative, is a float that is not negative. *)
Lemma computeEnergy_nonneg a p energy :
  _is_on a = true ->
  positive_number (_power_consumption_watts a) ->
  non_negative p ->
  computeEnergy a p = Return energy ->
  exists e, energy = NFloat e /\ 0 <= F2Q e.
Proof.
  intros Hon Hpow Hp. unfold computeEnergy. rewrite Hon.
  assert (Hkw : forall kw,
            num_truediv (_power_consumption_watts a) (NInt 1000) = Return kw ->
            exists k, kw = NFloat k /\ 0 <= F2Q k).
  { unfold num_truediv. unfold positive_number, num_lt, num_compare in Hpow.
    destruct (_power_consumption_watts a) as [b|z|f]; simpl in *; intros kw.
    - destruct (Binary64.truediv_Z (Z.b2z b) 1000) as [|q] eqn:Hq;
        [discriminate|].
      intros [= <-]. exists q. split; [done|].
      apply (truediv_Z_nonneg _ _ _ Hq); [by destruct b|done].
    - destruct (Binary64.truediv_Z z 1000) as [|q] eqn:Hq; [discriminate|].
      intros [= <-]. exists q. split; [done|].
      apply (truediv_Z_nonneg _ _ _ Hq); [|done]. by destruct z.
    - intros [= <-]. eexists. split; [reflexivity|].
      apply div_nonneg; [|done]. apply compare_Z_nonneg.
      destruct (Binary64.compare_Z f 0) as [[| |]|]; simpl in Hpow;
        try done; auto. }
  unfold rbind.
  destruct (num_truediv _ _) as [|kw]; [discriminate|].
  destruct (Hkw kw eq_refl) as (k & -> & Hk).
  unfold num_mul, rbind. simpl.
  destruct (to_float p) as [|h] eqn:Hh; [discriminate|].
  intros [= <-]. eexists. split; [reflexivity|].
  apply mul_nonneg; [done|]. by apply (to_float_nonneg p).
Qed.

(** What the contributions put into the two running sums: the energies
    [es] of the appliances that are on, and each of them times the
    tariff. *)
Lemma contributions_energies (t p : number float) (tf : float) apps :
  to_float t = Return tf ->
  non_negative p ->
  Forall (fun a => positive_number (_power_consumption_watts a)) apps ->
  forall cs,
    contributions t p apps = Return cs ->
    exists es,
      map fst (omap id cs) = map NFloat es
      /\ map snd (omap id cs) = map NFloat (map (fun e => PrimFloat.mul e tf) es)
      /\ Forall (fun e => 0 <= F2Q e) es
      /\ (length es <= length apps)%nat.
Proof.
  intros Ht Hp. induction 1 as [|a apps Ha _ IH]; intros cs; simpl.
  - intros [= <-]. by exists [].
  - unfold rbind at 1. unfold contribution.
    destruct (_is_on a) eqn:Hon.
    + unfold rbind at 2.
      destruct (computeEnergy a p) as [|energy] eqn:He; [discriminate|].
      destruct (computeEnergy_nonneg _ _ _ Hon Ha Hp He) as (e & -> & He0).
      unfold num_mul. simpl. rewrite Ht. cbn [rbind].
      destruct (contributions t p apps) as [|cs'] eqn:Hcs; [discriminate|].
      destruct (IH cs' eq_refl) as (es & Hfst & Hsnd & Hes & Hlen).
      cbn [rbind]. intros [= <-]. exists (e :: es). csimpl.
      rewrite Hfst, Hsnd. repeat split; try done; [by constructor|lia].
    + cbn [rbind].
      destruct (contributions t p apps) as [|cs'] eqn:Hcs; [discriminate|].
      destruct (IH cs' eq_refl) as (es & Hfst & Hsnd & Hes & Hlen).
      cbn [rbind]. intros [= <-]. exists es. csimpl.
      repeat split; try done. lia.
Qed.

Lemma running_total_from_fold_left (fs : list float) :
  forall start : float,
    running_total_from (NFloat start) (map NFloat fs)
    = Return (NFloat (fold_left PrimFloat.add fs start)).
Proof.
  induction fs as [|f fs IH]; intros start; [done|].
  unfold running_total_from in *. cbn [map fold_left rbind].
  rewrite num_add_floats. apply IH.
Qed.

Lemma add_nonneg (x y : float) :
  0 <= F2Q x -> 0 <= F2Q y -> 0 <= F2Q (x + y).
Proof.
  intros Hx Hy. destruct (finite (x + y)) eqn:Hf.
  - by apply add_near.
  - by rewrite F2Q_non_finite.
Qed.

Lemma fold_left_add_nonneg (xs : list float) :
  Forall (fun x => 0 <= F2Q x) xs ->
  forall a : float, 0 <= F2Q a -> 0 <= F2Q (fold_left PrimFloat.add xs a).
Proof.
  induction 1 as [|x xs Hx _ IH]; intros a Ha; [done|].
  cbn [fold_left]. by apply IH, add_nonneg.
Qed.

(** **** The total cost against the tariff times the total energy *)

(** The two roundings and the floating-point error of the running sums,
    put together. *)
Lemma cost_energy_algebra (a b c e t n N : Q) :
  0 <= a -> 0 <= b -> 0 <= c -> 0 <= e -> 0 <= t -> 0 <= n -> n <= N ->
  N + 1 <= inject_Z (2 ^ 50) ->
  t * eta <= 1 # 2 ^ 51 ->
  Qabs (c - b) <= (1 # 200) + u53 * c + eta ->
  Qabs (e - a) <= (1 # 2000) + u53 * e + eta ->
  Qabs (b - t * a) <= 0 + 6 * n * u53 * (b + t * a) + n * eta ->
  Qabs (c - t * e)
  <= (1 # 200) + t * (1 # 2000)
     + (N + 1) * (1 # 2 ^ 50) * (c + t * e + t + 1).
Proof.
  intros Ha Hb Hc He Ht Hn HnN HN Hte Hcb Hea Hba.
  pose proof u53_pos as Hu. pose proof eta_pos as Heta.
  assert (H50 : (1 # 2 ^ 50) == 8 * u53) by reflexivity.
  assert (H51 : (1 # 2 ^ 51) == 4 * u53) by reflexivity.
  assert (HP : inject_Z (2 ^ 50) * u53 == 1 # 8) by reflexivity.
  assert (HPe : inject_Z (2 ^ 50) * eta <= u53) by (vm_compute; discriminate).
  assert (Hu6 : 6 * u53 <= 1) by (vm_compute; discriminate).
  rewrite H50. rewrite H51 in Hte. clear H50 H51.
  set (P := inject_Z (2 ^ 50)) in *. clearbody P.
  apply Qabs_Qle_condition in Hcb as [Hcb1 Hcb2].
  apply Qabs_Qle_condition in Hea as [Hea1 Hea2].
  apply Qabs_Qle_condition in Hba as [Hba1 Hba2].
  (* the sizes *)
  assert (Hnu : n * u53 <= 1 # 8) by (clear - Hn HnN HN HP Hu; nra).
  assert (Hne : (n + 1) * eta <= u53) by (clear - Hn HnN HN HPe Heta; nra).
  assert (Hee : eta <= u53) by (clear - Hne Hn Heta; nra).
  assert (Hte1 : t * a <= t * e + t * (1 # 2000) + t * (u53 * e) + 4 * u53)
    by (clear - Hea1 Ht Hte; nra).
  assert (Hte2 : t * e <= t * a + t * (1 # 2000) + t * (u53 * e) + 4 * u53)
    by (clear - Hea2 Ht Hte; nra).
  set (K := 6 * n * u53) in *.
  assert (HK0 : 0 <= K) by (unfold K; clear - Hn Hu; nra).
  assert (HK1 : K <= 3 # 4) by (unfold K; clear - Hnu; nra).
  assert (Hte0 : 0 <= t * e) by (clear - Ht He; nra).
  assert (Hta0 : 0 <= t * a) by (clear - Ht Ha; nra).
  assert (Huc0 : 0 <= u53 * c) by (clear - Hu Hc; nra).
  assert (Hue0 : 0 <= u53 * e) by (clear - Hu He; nra).
  assert (Htue0 : 0 <= t * (u53 * e)) by (clear - Ht Hue0; nra).
  set (te := t * e) in *. set (ta := t * a) in *.
  set (uc := u53 * c) in *. set (tue := t * (u53 * e)) in *.
  (* the sum that the error of the running sums is relative to *)
  set (S := c + te + uc + tue + (1 # 200) + t * (1 # 2000) + 5 * u53).
  assert (HS : b + ta <= S) by (unfold S; clear - Hcb1 Hte1 Hee; lra).
  assert (HKS : K * (b + ta) <= K * S) by (clear - HK0 HS; nra).
  (* [K * S] against the allowance *)
  set (G := (N + 1) * (8 * u53)).
  assert (HG0 : K + 8 * u53 <= G)
    by (unfold K, G; clear - Hn HnN Hu; nra).
  assert (HKc : K * (c + uc) <= (G - u53) * c).
  { unfold uc. assert (K * (1 + u53) <= G - u53)
      by (clear - HG0 HK0 HK1 Hu; nra). clear - H Hc. nra. }
  assert (HKe : K * (te + tue) <= (G - u53) * te).
  { assert (Htue : tue == u53 * te) by (unfold tue, te; ring).
    rewrite Htue. assert (K * (1 + u53) <= G - u53)
      by (clear - HG0 HK0 HK1 Hu; nra). clear - H Hte0. nra. }
  assert (HKt : K * (t * (1 # 2000)) <= G * t)
    by (clear - HG0 HK0 Ht Hu; nra).
  assert (HK5 : K * ((1 # 200) + 5 * u53) + 6 * u53 <= G).
  { assert (Hu5 : (1 # 200) + 5 * u53 <= 1) by (vm_compute; discriminate).
    clear - HG0 HK0 Hu Hu5. nra. }
  assert (Hexp : K * S == K * (c + uc) + K * (te + tue)
                         + K * (t * (1 # 2000)) + K * ((1 # 200) + 5 * u53))
    by (unfold S; ring).
  rewrite Hexp in HKS.
  assert (Hgoal : G * (c + te + t + 1) == G * c + G * te + G * t + G) by ring.
  fold te. fold G. rewrite Hgoal.
  assert (Hne' : n * eta <= u53) by (clear - Hne Heta; lra).
  set (ne := n * eta) in *.
  assert (HGc : (G - u53) * c == G * c - uc) by (unfold uc; ring).
  assert (HGe : (G - u53) * te == G * te - tue) by (unfold tue, te; ring).
  rewrite HGc in HKc. rewrite HGe in HKe.
  set (Gc := G * c) in *. set (Gte := G * te) in *. set (Gt := G * t) in *.
  set (k1 := K * (c + uc)) in *. set (k2 := K * (te + tue)) in *.
  set (k3 := K * (t * (1 # 2000))) in *.
  set (k4 := K * ((1 # 200) + 5 * u53)) in *.
  set (kb := K * (b + ta)) in *.
  apply Qabs_Qle_condition.
  clear - Hcb1 Hcb2 Hte1 Hte2 Hba1 Hba2 HKS HKc HKe HKt HK5 Hne' Hee Hu.
  split; lra.
Qed.

(** C4, as the code has it, on binary64.  For a calculator over appliances
    of the heap whose powers are above zero, a tariff and a period that are
    not negative, and totals that are finite: the total cost that
    [calculate_total_consumption_and_cost] returns differs from the tariff
    times the total energy it returns by at most [0.005 + 0.0005 * tariff]
    (the cost is rounded to 2 decimals and the energy to 3, each from its
    own running sum) plus the allowance for the floating-point error of
    the sums, [(n + 1) * 2^-50 * (cost + tariff * energy + tariff + 1)] for
    [n] appliances.  The difference is within [0.01] for a tariff up to 9
    and sizes with [(n + 1) * (cost + tariff * energy + tariff + 1)] up to
    [2^30].  The tariff is taken as the float the code multiplies by. *)
Theorem C4_cost_within_rounding_of_tariff_times_energy
  (w : world float) self c ls apps p (tf : float) r :
  calculator_at w self c ->
  appliances c = map PyRef ls ->
  Forall2 (appliance_at w) ls apps ->
  non_negative p ->
  non_negative (_tariff_kwh c) ->
  Forall (fun a => positive_number (_power_consumption_watts a)) apps ->
  to_float (_tariff_kwh c) = Return tf ->
  calculate_total_consumption_and_cost self (PyNum p) w = (Return r, w) ->
  exists cost energy : float,
    total_cost r = NFloat cost
    /\ total_consumption_kwh r = NFloat energy
    /\ (finite tf = true -> finite cost = true -> finite energy = true ->
        Qabs (F2Q cost - F2Q tf * F2Q energy)
        <= (1 # 200) + F2Q tf * (1 # 2000)
           + float_error (length apps) (F2Q tf) (F2Q energy) (F2Q cost)
        /\ (F2Q tf <= 9 ->
            (inject_Z (Z.of_nat (length apps)) + 1)
            * (F2Q cost + F2Q tf * F2Q energy + F2Q tf + 1)
            <= inject_Z (2 ^ 30) ->
            Qabs (F2Q cost - F2Q tf * F2Q energy) <= 1 # 100)).
Proof.
  intros Hc Happs Hall Hp Ht Hpow Htf Hrun.
  rewrite (calculate_total_is_computeTotal _ _ _ _ _ _ Hc Happs Hall
             (non_negative_not_negative _ Hp)) in Hrun.
  injection Hrun as Hr. unfold computeTotal in Hr.
  destruct (contributions (_tariff_kwh c) p apps) as [|cs] eqn:Hcs;
    [discriminate|].
  destruct (contributions_energies _ _ _ _ Htf Hp Hpow _ Hcs)
    as (es & Hfst & Hsnd & Hes & Hlen).
  cbn [rbind] in Hr. unfold running_total in Hr.
  rewrite Hfst, Hsnd, !running_total_from_fold_left in Hr.
  cbn [rbind] in Hr. injection Hr as <-.
  change (@f_zero float _) with zero.
  set (E := fold_left PrimFloat.add es zero).
  set (C := fold_left PrimFloat.add (map (fun e => (e * tf)%float) es) zero).
  exists (Binary64.round C 2), (Binary64.round E 3).
  split; [reflexivity|]. split; [reflexivity|].
  intros Hft Hfc Hfe.
  destruct (round_near C 2 Hfc) as (HfC & HnC & HposC).
  destruct (round_near E 3 Hfe) as (HfE & HnE & HposE).
  change (1 # 2 * Z.to_pos (10 ^ Z.of_nat 2)) with (1 # 200) in HnC.
  change (1 # 2 * Z.to_pos (10 ^ Z.of_nat 3)) with (1 # 2000) in HnE.
  pose proof (to_float_nonneg _ _ Htf Ht) as Ht0.
  assert (Hz : F2Q zero == 0) by reflexivity.
  assert (Hz0 : 0 <= F2Q zero) by (rewrite Hz; lra).
  assert (HE0 : 0 <= F2Q E) by by apply fold_left_add_nonneg.
  assert (HC0 : 0 <= F2Q C).
  { apply fold_left_add_nonneg; [|done]. apply Forall_map.
    eapply Forall_impl; [exact Hes|]. intros e He. by apply mul_nonneg. }
  specialize (HposC HC0). specialize (HposE HE0).
  rewrite (Qabs_pos _ HposC) in HnC. rewrite (Qabs_pos _ HposE) in HnE.
  set (cost := F2Q (Binary64.round C 2)) in *.
  set (energy := F2Q (Binary64.round E 3)) in *.
  set (t := F2Q tf) in *.
  set (N := inject_Z (Z.of_nat (length apps))).
  assert (HN0 : 0 <= N).
  { unfold N. change 0 with (inject_Z 0). rewrite <- Zle_Qle. lia. }
  assert (Hte0 : 0 <= t * energy) by nra.
  unfold float_error. fold N. fold t.
  destruct (Z_lt_le_dec (Z.of_nat (length apps) + 1) (2 ^ 50)) as [Hsmall|Hbig].
  - (* the error of the running sums *)
    set (n := inject_Z (Z.of_nat (length es))).
    assert (Hn0 : 0 <= n).
    { unfold n. change 0 with (inject_Z 0). rewrite <- Zle_Qle. lia. }
    assert (HnN : n <= N) by (unfold n, N; rewrite <- Zle_Qle; lia).
    assert (HN : N + 1 <= inject_Z (2 ^ 50)).
    { unfold N. change 1 with (inject_Z 1).
      rewrite <- inject_Z_plus, <- Zle_Qle. lia. }
    assert (Hnu : 2 * n * u53 <= 1).
    { assert (HP : inject_Z (2 ^ 50) * u53 == 1 # 8) by reflexivity.
      pose proof u53_pos. clear - HnN HN HP H Hn0. nra. }
    destruct (running_sums_near tf es zero zero HfE HfC Ht0 Hes Hz0 Hz0 Hnu)
      as (_ & _ & _ & _ & Hsums).
    fold E C n t in Hsums.
    assert (H00 : Qabs (F2Q zero - t * F2Q zero) == 0)
      by (rewrite Hz; setoid_replace (0 - t * 0) with 0 using relation Qeq
            by ring; done).
    rewrite H00 in Hsums.
    assert (Hteta : t * eta <= 1 # 2 ^ 51).
    { pose proof (Qabs_F2Q_eta tf) as Hb. fold t in Hb.
      by rewrite (Qabs_pos _ Ht0) in Hb. }
    pose proof (cost_energy_algebra (F2Q E) (F2Q C) cost energy t n N
                  HE0 HC0 HposC HposE Ht0 Hn0 HnN HN Hteta HnC HnE Hsums)
      as Hmain.
    split; [exact Hmain|].
    intros Ht9 Hsize. eapply Qle_trans; [exact Hmain|].
    set (X := cost + t * energy + t + 1) in *.
    assert (H30 : inject_Z (2 ^ 30) * (1 # 2 ^ 50) == 1 # 2 ^ 20) by reflexivity.
    assert (Hf : (N + 1) * (1 # 2 ^ 50) * X <= 1 # 2 ^ 20).
    { rewrite <- H30.
      setoid_replace ((N + 1) * (1 # 2 ^ 50) * X)
        with ((N + 1) * X * (1 # 2 ^ 50)) using relation Qeq by ring.
      apply Qmult_le_compat_r; [exact Hsize|done]. }
    assert (Hnum : (1 # 200) + 9 * (1 # 2000) + (1 # 2 ^ 20) <= 1 # 100)
      by (vm_compute; discriminate).
    clear - Hf Hnum Ht9. lra.
  - (* more appliances than the allowance is meant for *)
    assert (HN : 1 <= (N + 1) * (1 # 2 ^ 50)).
    { assert (H50 : inject_Z (2 ^ 50) * (1 # 2 ^ 50) == 1) by reflexivity.
      apply Qle_trans with (inject_Z (2 ^ 50) * (1 # 2 ^ 50));
        [rewrite H50; lra|].
      apply Qmult_le_compat_r; [|done].
      unfold N. change 1 with (inject_Z 1).
      rewrite <- inject_Z_plus, <- Zle_Qle. lia. }
    set (X := cost + t * energy + t + 1) in *.
    assert (HX : 1 <= X) by (unfold X; lra).
    assert (Hbound : Qabs (cost - t * energy)
                     <= (1 # 200) + t * (1 # 2000)
                        + (N + 1) * (1 # 2 ^ 50) * X).
    { set (g := (N + 1) * (1 # 2 ^ 50)) in *.
      assert (X <= g * X) by (clear - HN HX; nra).
      apply Qabs_Qle_condition. unfold X in *. clear - H Hte0 HposC Ht0.
      split; lra. }
    split; [exact Hbound|].
    intros _ Hsize. exfalso.
    assert (H50 : inject_Z (2 ^ 50) <= N + 1).
    { unfold N. change 1 with (inject_Z 1).
      rewrite <- inject_Z_plus, <- Zle_Qle. lia. }
    assert (H5030 : inject_Z (2 ^ 30) < inject_Z (2 ^ 50)) by done.
    fold X in Hsize. clear - H50 H5030 Hsize HX HN0. nra.
Qed.

End CostAgainstEnergy.

(** *** Binary64: the arithmetic, and totality on floats *)

Section Binary64Properties.

Local Open Scope float_scope.

(** The model of [round], of [int / int] and of [float(int)] on values
    whose CPython results are well known. *)
Example binary64_round_values :
  Binary64.round 0.125 2 = 0.12
  /\ Binary64.round 0.375 2 = 0.38
  /\ Binary64.round 2.675 2 = 2.67
  /\ Binary64.round 0.6000000000000001 2 = 0.6
  /\ Binary64.round 0.00025 3 = 0
  /\ Binary64.round (-0.0001) 3 = neg_zero
  /\ Binary64.round infinity 2 = infinity
  /\ Binary64.round nan 2 = nan.
Proof. repeat split; reflexivity. Qed.

Example binary64_int_values :
  Binary64.truediv_Z 1 1000 = Return 0.001
  /\ Binary64.truediv_Z 2000 1000 = Return 2
  /\ Binary64.truediv_Z 0 (-5) = Return neg_zero
  /\ Binary64.truediv_Z (10 ^ 400) 1000 = Raise OverflowError
  /\ Binary64.truediv_Z (10 ^ 400) (10 ^ 399) = Return 10
  /\ Binary64.of_Z (2 ^ 53 + 1) = Return 9007199254740992
  /\ Binary64.of_Z (2 ^ 1024) = Raise OverflowError.
Proof. repeat split; vm_compute; reflexivity. Qed.

(** On floats, as [main.py] supplies them, no operation of the energy
    formula raises. *)
Lemma binary64_computeEnergy_of_floats (a : Appliance float) (p h : float) :
  _power_consumption_watts a = NFloat p ->
  computeEnergy a (NFloat h)
  = Return (if _is_on a then NFloat (p / 1000 * h) else NFloat 0).
Proof.
  intros Hp. unfold computeEnergy. rewrite Hp. by destruct (_is_on a).
Qed.

Lemma binary64_contribution_of_floats (a : Appliance float) (p t h : float) :
  _power_consumption_watts a = NFloat p ->
  contribution (NFloat t) (NFloat h) a
  = Return (if _is_on a
            then Some (NFloat (p / 1000 * h), NFloat (p / 1000 * h * t))
            else None).
Proof.
  intros Hp. unfold contribution.
  rewrite (binary64_computeEnergy_of_floats a p h Hp).
  by destruct (_is_on a).
Qed.

Lemma running_total_from_floats (start : float) (xs : list (number float)) :
  Forall (fun x => exists f, x = NFloat f) xs ->
  exists total, running_total_from (NFloat start) xs = Return (NFloat total).
Proof.
  intros Hxs. revert start.
  induction Hxs as [|x xs [f ->] _ IH]; intros start.
  - by exists start.
  - apply (IH (start + f)).
Qed.

Lemma binary64_contributions_of_floats (t h : float) apps :
  Forall (fun a => exists p, _power_consumption_watts a = NFloat p) apps ->
  exists cs,
    contributions (NFloat t) (NFloat h) apps = Return cs
    /\ Forall (fun c => exists fe fc, c = (NFloat fe, NFloat fc)) (omap id cs).
Proof.
  induction 1 as [|a apps [p Hp] _ (cs & Hcs & Hfl)]; simpl.
  - by exists [].
  - rewrite (binary64_contribution_of_floats a p t h Hp), Hcs. cbn [rbind].
    eexists. split; [reflexivity|].
    destruct (_is_on a); simpl; [constructor; eauto|exact Hfl].
Qed.

(** So the total over appliances whose power is a float, with a float
    tariff and a float period, always returns. *)
Lemma binary64_computeTotal_returns (t h : float) apps :
  Forall (fun a => exists p, _power_consumption_watts a = NFloat p) apps ->
  exists r, computeTotal (NFloat t) (NFloat h) apps = Return r.
Proof.
  intros Happs. unfold computeTotal.
  destruct (binary64_contributions_of_floats t h apps Happs)
    as (cs & -> & Hfl). cbn [rbind].
  destruct (running_total_from_floats 0 (map fst (omap id cs))) as [E HE].
  { apply Forall_map. eapply Forall_impl; [exact Hfl|].
    intros c (fe & fc & ->). by exists fe. }
  destruct (running_total_from_floats 0 (map snd (omap id cs))) as [C HC].
  { apply Forall_map. eapply Forall_impl; [exact Hfl|].
    intros c (fe & fc & ->). by exists fc. }
  unfold running_total. change (@f_zero float _) with 0.
  rewrite HE, HC. cbn [rbind]. eauto.
Qed.

End Binary64Properties.

(** *** DatabaseManager.get_all_records *)

Section DatabaseProperties.

Context {F : Type}.

Import Database.

Implicit Types (r x : row F) (rows : list (row F)).

(** The byte-wise order of strings is transitive. *)
Lemma string_leb_trans (a b c : string) :
  String.leb a b = true -> String.leb b c = true -> String.leb a c = true.
Proof.
  unfold String.leb. revert b c.
  induction a as [|x a IH]; intros [|y b] [|z c]; simpl; try done.
  unfold Ascii.compare.
  destruct (N.compare_spec (Ascii.N_of_ascii x) (Ascii.N_of_ascii y)) as [Hxy|Hxy|Hxy];
    destruct (N.compare_spec (Ascii.N_of_ascii y) (Ascii.N_of_ascii z)) as [Hyz|Hyz|Hyz];
    destruct (N.compare_spec (Ascii.N_of_ascii x) (Ascii.N_of_ascii z)) as [Hxz|Hxz|Hxz];
    try done; try lia.
  apply IH.
Qed.

Lemma newer_or_equal_trans r x y :
  newer_or_equal r x -> newer_or_equal x y -> newer_or_equal r y.
Proof. unfold newer_or_equal. intros H1 H2. by eapply string_leb_trans. Qed.

Lemma insert_desc_Permutation r rows :
  Permutation (insert_desc r rows) (r :: rows).
Proof.
  induction rows as [|x rows IH]; simpl; [done|].
  destruct (String.leb (timestamp x) (timestamp r)); [done|].
  rewrite IH. apply perm_swap.
Qed.

Lemma order_by_timestamp_desc_Permutation rows :
  Permutation (order_by_timestamp_desc rows) rows.
Proof.
  induction rows as [|r rows IH]; simpl; [done|].
  rewrite insert_desc_Permutation. by constructor.
Qed.

Lemma insert_desc_sorted r rows :
  StronglySorted newer_or_equal rows ->
  StronglySorted newer_or_equal (insert_desc r rows).
Proof.
  induction 1 as [|x rows Hsorted IH Hx]; simpl.
  - repeat constructor.
  - destruct (String.leb (timestamp x) (timestamp r)) eqn:Hle.
    + constructor; [by constructor|].
      constructor; [exact Hle|].
      eapply Forall_impl; [exact Hx|].
      intros y Hy. by apply newer_or_equal_trans with x.
    + constructor; [exact IH|].
      rewrite insert_desc_Permutation. constructor; [|exact Hx].
      unfold newer_or_equal.
      destruct (String.leb_total (timestamp x) (timestamp r)); congruence.
Qed.

Lemma order_by_timestamp_desc_sorted rows :
  StronglySorted newer_or_equal (order_by_timestamp_desc rows).
Proof.
  induction rows as [|r rows IH]; simpl; [constructor|].
  by apply insert_desc_sorted.
Qed.

(** The inner loop builds the dict of the row. *)
Lemma fill_record_row r :
  fill_record (as_tuple r) 0 column_names ∅ = Return (dict_of_row r).
Proof. reflexivity. Qed.

Lemma convert_rows_tuples rows (results : list (record_dict F)) :
  convert_rows (map as_tuple rows) column_names results
  = Return (results ++ map dict_of_row rows).
Proof.
  revert results.
  induction rows as [|r rows IH]; intros results; cbn [map convert_rows].
  - by rewrite app_nil_r.
  - rewrite fill_record_row. cbn [rbind]. rewrite IH, <- app_assoc.
    reflexivity.
Qed.

(** C9.  [get_all_records] never raises.  When the table can be read it
    returns the dict of every row, each once, the newest timestamp first;
    for an empty table that is the empty list.  When the cursor raises
    [sqlite3.Error] it prints the error and returns the empty list. *)
Theorem C9_all_records_newest_first_or_empty (cur : cursor F) :
  match cur with
  | Readable table =>
      exists rows,
        get_all_records cur = (Return (map dict_of_row rows), [])
        /\ Permutation rows table
        /\ StronglySorted newer_or_equal rows
  | Unreadable error =>
      exists printed, get_all_records cur = (Return [], printed)
  end
  /\ get_all_records (F:=F) (Readable []) = (Return [], []).
Proof.
  split; [|reflexivity].
  destruct cur as [error|table].
  - eexists. reflexivity.
  - exists (order_by_timestamp_desc table). split; [|split].
    + unfold get_all_records, execute_select_all. cbn [rbind].
      by rewrite convert_rows_tuples.
    + apply order_by_timestamp_desc_Permutation.
    + apply order_by_timestamp_desc_sorted.
Qed.

End DatabaseProperties.

(** * Further properties of the code *)

(** *** Appliances: construction and switching *)

Section ApplianceLifeCycle.

Context {F : Type} `{FloatImpl F}.

Implicit Types (w : world F) (a : Appliance F) (l : loc).

Lemma Appliance__init___returns (s : string) (p : number F) :
  s <> "" -> num_le p (NInt 0) = false ->
  Appliance__init__ (PyStr s) (PyNum p) = Return (s, p).
Proof.
  intros Hs Hp. unfold Appliance__init__.
  destruct (String.eqb_spec s ""); [done|]. by rewrite Hp.
Qed.

Lemma Appliance__init___returns_iff (nm power : pyobj F) :
  (exists r, Appliance__init__ nm power = Return r)
  <-> base_arguments_ok nm power.
Proof.
  split.
  - intros [[s p] Hr]. apply Appliance__init___accepts in Hr
      as (-> & -> & Hs & Hp). by exists s, p.
  - intros (s & p & -> & Hs & -> & Hp). exists (s, p).
    by apply Appliance__init___returns.
Qed.

(** The three constructors succeed exactly when the name is a non-empty
    string, the power is a number for which [power <= 0] is false, and the
    own attribute of the class passes its check: a bool for the iron, a
    number for which [x <= 0] is false for the TV and the washing
    machine. *)
Theorem constructors_accept_exactly (nm power x : pyobj F) w :
  ((exists r w', Iron__init__ nm power x w = (Return r, w'))
   <-> base_arguments_ok nm power /\ exists b, x = PyNum (NBool b))
  /\ ((exists r w', TV__init__ nm power x w = (Return r, w'))
      <-> base_arguments_ok nm power
          /\ exists z, x = PyNum z /\ num_le z (NInt 0) = false)
  /\ ((exists r w', WashingMachine__init__ nm power x w = (Return r, w'))
      <-> base_arguments_ok nm power
          /\ exists z, x = PyNum z /\ num_le z (NInt 0) = false).
Proof.
  unfold Iron__init__, TV__init__, WashingMachine__init__, bind, lift.
  split; [split|split; split].
  - intros (r & w' & Hrun).
    destruct (Appliance__init__ nm power) as [e|[s p]] eqn:Hbase;
      [discriminate|].
    split; [apply Appliance__init___returns_iff; eauto|].
    destruct x as [|[b| |]| | |]; try discriminate. by exists b.
  - intros [Hbase [b ->]].
    apply Appliance__init___returns_iff in Hbase as [[s p] ->].
    unfold new. eauto.
  - intros (r & w' & Hrun).
    destruct (Appliance__init__ nm power) as [e|[s p]] eqn:Hbase;
      [discriminate|].
    split; [apply Appliance__init___returns_iff; eauto|].
    destruct x as [|z| | |]; try discriminate.
    destruct (num_le z (NInt 0)) eqn:Hz; [discriminate|]. by exists z.
  - intros [Hbase (z & -> & Hz)].
    apply Appliance__init___returns_iff in Hbase as [[s p] ->].
    rewrite Hz. unfold new. eauto.
  - intros (r & w' & Hrun).
    destruct (Appliance__init__ nm power) as [e|[s p]] eqn:Hbase;
      [discriminate|].
    split; [apply Appliance__init___returns_iff; eauto|].
    destruct x as [|z| | |]; try discriminate.
    destruct (num_le z (NInt 0)) eqn:Hz; [discriminate|]. by exists z.
  - intros [Hbase (z & -> & Hz)].
    apply Appliance__init___returns_iff in Hbase as [[s p] ->].
    rewrite Hz. unfold new. eauto.
Qed.

(** A constructor that returns has put one new object in the heap, at a
    location that was free: an appliance that is off and holds the name and
    the power it was given.  Every object that was there is still there,
    and nothing is printed. *)
Theorem construction_adds_one_appliance_that_is_off
  (nm power x : pyobj F) w r w' :
  Iron__init__ nm power x w = (Return r, w')
  \/ TV__init__ nm power x w = (Return r, w')
  \/ WashingMachine__init__ nm power x w = (Return r, w') ->
  exists l a,
    r = PyRef l
    /\ heap w !! l = None
    /\ heap w' = <[l := ObjAppliance a]> (heap w)
    /\ stdout w' = stdout w
    /\ nm = PyStr (_name a)
    /\ power = PyNum (_power_consumption_watts a)
    /\ is_on l w' = (Return false, w')
    /\ forall l' o, heap w !! l' = Some o -> heap w' !! l' = Some o.
Proof.
  assert (Hnew : forall a,
            new (ObjAppliance a) w = (Return r, w') ->
            _is_on a = false ->
            exists l,
              r = PyRef l /\ heap w !! l = None
              /\ heap w' = <[l := ObjAppliance a]> (heap w)
              /\ stdout w' = stdout w
              /\ is_on l w' = (Return false, w')
              /\ forall l' o, heap w !! l' = Some o -> heap w' !! l' = Some o).
  { intros a Hrun Hoff. unfold new in Hrun. injection Hrun as <- <-.
    set (l := fresh (dom (heap w))).
    assert (Hfree : heap w !! l = None)
      by apply (not_elem_of_dom (D:=gset loc)), is_fresh.
    exists l. repeat split; try done.
    - rewrite <- Hoff. apply is_on_at. unfold appliance_at. simpl.
      apply lookup_insert_eq.
    - intros l' o Hl'. simpl. rewrite lookup_insert_ne; [done|].
      intros ->. congruence. }
  unfold Iron__init__, TV__init__, WashingMachine__init__, bind, lift.
  destruct (Appliance__init__ nm power) as [e|[s p]] eqn:Hbase.
  { intros [Hrun|[Hrun|Hrun]]; discriminate. }
  apply Appliance__init___accepts in Hbase as (-> & -> & _ & _).
  intros [Hrun|[Hrun|Hrun]].
  - destruct x as [|[b| |]| | |]; try discriminate.
    destruct (Hnew _ Hrun eq_refl) as (l & ?). exists l. eexists.
    intuition eauto.
  - destruct x as [|z| | |]; try discriminate.
    destruct (num_le z (NInt 0)); [discriminate|].
    destruct (Hnew _ Hrun eq_refl) as (l & ?). exists l. eexists.
    intuition eauto.
  - destruct x as [|z| | |]; try discriminate.
    destruct (num_le z (NInt 0)); [discriminate|].
    destruct (Hnew _ Hrun eq_refl) as (l & ?). exists l. eexists.
    intuition eauto.
Qed.

(** A constructor that raises raises [ValueError], and leaves the world as
    it was: no object, no printed line. *)
Theorem failed_construction_changes_nothing (nm power x : pyobj F) w e w' :
  Iron__init__ nm power x w = (Raise e, w')
  \/ TV__init__ nm power x w = (Raise e, w')
  \/ WashingMachine__init__ nm power x w = (Raise e, w') ->
  e = ValueError /\ w' = w.
Proof.
  assert (Hbase : forall e', Appliance__init__ nm power = Raise e' ->
                             e' = ValueError).
  { unfold Appliance__init__. intros e'.
    destruct nm as [| |s| |]; try (by intros [= <-]).
    destruct (String.eqb s ""); [by intros [= <-]|].
    destruct power as [|p| | |]; try (by intros [= <-]).
    destruct (num_le p (NInt 0)); [by intros [= <-]|discriminate]. }
  unfold Iron__init__, TV__init__, WashingMachine__init__, bind, lift, raise,
    new.
  destruct (Appliance__init__ nm power) as [e'|[s p]].
  { specialize (Hbase e' eq_refl). subst e'.
    by intros [[= <- <-]|[[= <- <-]|[= <- <-]]]. }
  intros [Hrun|[Hrun|Hrun]].
  - destruct x as [|[b| |]| | |]; try discriminate;
      by injection Hrun as <- <-.
  - destruct x as [|z| | |]; try (by injection Hrun as <- <-).
    destruct (num_le z (NInt 0)); [by injection Hrun as <- <-|discriminate].
  - destruct x as [|z| | |]; try (by injection Hrun as <- <-).
    destruct (num_le z (NInt 0)); [by injection Hrun as <- <-|discriminate].
Qed.

Lemma turn_on_at w l a :
  appliance_at w l a -> turn_on l w = (Return tt, after_switch w l a true).
Proof.
  intros Hl. unfold turn_on, bind. rewrite (set_is_on_at _ _ _ _ Hl).
  rewrite (name_at _ l (switched a true)) by apply lookup_insert_eq.
  reflexivity.
Qed.

Lemma turn_off_at w l a :
  appliance_at w l a -> turn_off l w = (Return tt, after_switch w l a false).
Proof.
  intros Hl. unfold turn_off, bind. rewrite (set_is_on_at _ _ _ _ Hl).
  rewrite (name_at _ l (switched a false)) by apply lookup_insert_eq.
  reflexivity.
Qed.

(** [turn_on] and [turn_off] write the switch of the one appliance and
    print one line with its name; they return nothing and do not raise. *)
Theorem switching_writes_the_switch_and_prints_a_line w l a :
  appliance_at w l a ->
  turn_on l w = (Return tt, after_switch w l a true)
  /\ turn_off l w = (Return tt, after_switch w l a false).
Proof. intros Hl. split; [by apply turn_on_at|by apply turn_off_at]. Qed.

Lemma after_switch_at w l a on :
  appliance_at (after_switch w l a on) l (switched a on).
Proof. apply lookup_insert_eq. Qed.

Lemma after_switch_elsewhere w l a on l' :
  l' <> l -> heap (after_switch w l a on) !! l' = heap w !! l'.
Proof. intros Hne. simpl. by apply lookup_insert_ne. Qed.

Lemma after_switch_reads w l a on :
  appliance_at w l a ->
  let w' := after_switch w l a on in
  name l w' = (Return (_name a), w')
  /\ power_consumption_watts l w' = (Return (_power_consumption_watts a), w')
  /\ is_on l w' = (Return on, w')
  /\ (forall l', l' <> l -> heap w' !! l' = heap w !! l').
Proof.
  intros Hl. cbv zeta. pose proof (after_switch_at w l a on) as Hl'.
  split; [|split; [|split]].
  - by rewrite (name_at _ _ _ Hl').
  - by rewrite (power_at _ _ _ Hl').
  - by rewrite (is_on_at _ _ _ Hl').
  - intros l' Hne. by apply after_switch_elsewhere.
Qed.

(** In the world that [turn_on] leaves, and in the world that [turn_off]
    leaves, the appliance reads back the name and the power it had,
    [is_on] reads the new state ([True] after [turn_on], [False] after
    [turn_off]), and every other object of the heap is as before the
    call. *)
Theorem switching_keeps_everything_but_the_switch w l a :
  appliance_at w l a ->
  let won := (turn_on l w).2 in
  let woff := (turn_off l w).2 in
  (name l won = (Return (_name a), won)
   /\ power_consumption_watts l won
      = (Return (_power_consumption_watts a), won)
   /\ is_on l won = (Return true, won)
   /\ (forall l', l' <> l -> heap won !! l' = heap w !! l'))
  /\ (name l woff = (Return (_name a), woff)
      /\ power_consumption_watts l woff
         = (Return (_power_consumption_watts a), woff)
      /\ is_on l woff = (Return false, woff)
      /\ (forall l', l' <> l -> heap woff !! l' = heap w !! l')).
Proof.
  intros Hl. cbv zeta.
  rewrite (turn_on_at _ _ _ Hl), (turn_off_at _ _ _ Hl). cbn [snd].
  split; by apply after_switch_reads.
Qed.

(** Switches compose: the heap after two switches is the heap after the
    last one, and switching an appliance that is off on and off again gives
    back the heap it started from. *)
Theorem last_switch_wins w l a :
  appliance_at w l a ->
  heap (bind (turn_on l) (fun _ => turn_off l) w).2 = heap (turn_off l w).2
  /\ heap (bind (turn_off l) (fun _ => turn_on l) w).2 = heap (turn_on l w).2
  /\ heap (bind (turn_on l) (fun _ => turn_on l) w).2 = heap (turn_on l w).2
  /\ heap (bind (turn_off l) (fun _ => turn_off l) w).2 = heap (turn_off l w).2
  /\ (_is_on a = false ->
      heap (bind (turn_on l) (fun _ => turn_off l) w).2 = heap w).
Proof.
  intros Hl.
  pose proof (turn_on_at w l a Hl) as Hon.
  pose proof (turn_off_at w l a Hl) as Hoff.
  pose proof (turn_on_at _ l _ (after_switch_at w l a true)) as Hon1.
  pose proof (turn_off_at _ l _ (after_switch_at w l a true)) as Hoff1.
  pose proof (turn_on_at _ l _ (after_switch_at w l a false)) as Hon0.
  pose proof (turn_off_at _ l _ (after_switch_at w l a false)) as Hoff0.
  unfold bind. rewrite Hon, Hoff, Hon1, Hoff1, Hon0, Hoff0. simpl.
  unfold switched. simpl.
  repeat split; try apply insert_insert_eq.
  intros Hstate. rewrite insert_insert_eq. apply insert_id.
  unfold appliance_at in Hl. rewrite Hl. destruct a; simpl in *. by subst.
Qed.

(** The energy of an appliance follows its switch: right after [turn_off]
    it is [0.0] whatever the hours, right after [turn_on] it is the value
    of [(power / 1000) * hours] for hours that are not negative. *)
Theorem energy_follows_the_switch w l a :
  appliance_at w l a ->
  (forall hours : pyobj F,
     bind (turn_off l) (fun _ => calculate_energy_consumption l hours) w
     = (Return (NFloat f_zero), after_switch w l a false))
  /\ (forall h, non_negative h ->
       bind (turn_on l) (fun _ => calculate_energy_consumption l (PyNum h)) w
       = (let? kw := num_truediv (_power_consumption_watts a) (NInt 1000) in
          num_mul kw h, after_switch w l a true)).
Proof.
  intros Hl.
  pose proof (turn_on_at w l a Hl) as Hon.
  pose proof (turn_off_at w l a Hl) as Hoff.
  split.
  - intros hours. unfold bind. rewrite Hoff.
    by apply calculate_energy_consumption_off with (switched a false);
      [apply after_switch_at|].
  - intros h Hh. apply non_negative_not_negative in Hh.
    unfold bind. rewrite Hon.
    by rewrite (calculate_energy_consumption_on _ _ (switched a true))
      by (done || apply after_switch_at).
Qed.

End ApplianceLifeCycle.

(** *** The calculator: periods, lengths, tariffs *)

Section CalculatorBehaviour.

Context {F : Type} `{FloatImpl F}.

Implicit Types (w : world F) (a : Appliance F) (c : EnergyCalculator F).
Implicit Types (p t v : number F) (self l : loc).

(** The period is checked before anything else is looked at: a period that
    is not a number, or is negative, raises [ValueError] whatever [self]
    and the heap are, and changes nothing. *)
Theorem invalid_period_is_rejected_first self (period_hours : pyobj F) w :
  match period_hours with
  | PyNum p => negative p
  | _ => True
  end ->
  calculate_total_consumption_and_cost self period_hours w
  = (Raise ValueError, w).
Proof.
  unfold calculate_total_consumption_and_cost, negative.
  destruct period_hours as [|p| | |]; try done. by intros ->.
Qed.

(** A turn of the loop that returns has added exactly one detail. *)
Lemma loop_body_appends_one self (period : pyobj F) tc tk ds x w tc' tk' ds' w' :
  loop_body self period (tc, tk, ds) x w = (Return (tc', tk', ds'), w') ->
  exists d, ds' = ds ++ [d].
Proof.
  unfold loop_body, bind, lift, ret. destruct x as [| | | |l]; try discriminate.
  destruct (is_on l w) as [[e|[]] w1]; try discriminate.
  - destruct (calculate_energy_consumption l period w1) as [[e|k] w2];
      try discriminate.
    destruct (tariff_kwh self w2) as [[e|t] w3]; try discriminate.
    destruct (num_mul k t); try discriminate.
    destruct (num_add tc k); try discriminate.
    destruct (num_add tk n); try discriminate.
    destruct (name l w3) as [[e|nm] w4]; try discriminate.
    intros [= <- <- <- <-]. eauto.
  - destruct (name l w1) as [[e|nm] w2]; try discriminate.
    intros [= <- <- <- <-]. eauto.
Qed.

Lemma for_in_appends_one_each self (period : pyobj F) xs :
  forall tc tk ds w tc' tk' ds' w',
  for_in xs (loop_body self period) (tc, tk, ds) w
    = (Return (tc', tk', ds'), w') ->
  length ds' = (length ds + length xs)%nat.
Proof.
  induction xs as [|x xs IH]; intros tc tk ds w tc' tk' ds' w'; cbn [for_in].
  - unfold ret. intros [= <- <- <- <-]. simpl. lia.
  - unfold bind at 1.
    destruct (loop_body self period (tc, tk, ds) x w)
      as [[e|[[tc1 tk1] ds1]] w1] eqn:Hbody; [discriminate|].
    apply loop_body_appends_one in Hbody as [d ->].
    intros Hrest. apply IH in Hrest. rewrite Hrest, length_app. simpl. lia.
Qed.

(** Whenever the total returns, its details have as many entries as the
    calculator has appliances ([len(calculator)]), and the world is as
    before. *)
Theorem details_have_len_entries self (period_hours : pyobj F) w r w' :
  calculate_total_consumption_and_cost self period_hours w = (Return r, w') ->
  EnergyCalculator__len__ self w = (Return (length (details r)), w)
  /\ w' = w.
Proof.
  intros Hrun.
  assert (Hw : w' = w).
  { pose proof (read_only_calculate_total self period_hours w) as Hro.
    by rewrite Hrun in Hro. }
  split; [|exact Hw]. clear Hw. revert Hrun.
  unfold calculate_total_consumption_and_cost, EnergyCalculator__len__, bind.
  destruct period_hours as [|p| | |]; try discriminate.
  destruct (num_lt p (NInt 0)); [discriminate|].
  destruct (get_calculator self w) as [[e|c] w1] eqn:Hc; [discriminate|].
  pose proof (read_only_get_calculator self w) as Hro.
  rewrite Hc in Hro. simpl in Hro. subst w1.
  destruct (for_in _ _ _ w) as [[e|[[tc tk] ds]] w2] eqn:Hloop;
    [discriminate|].
  apply for_in_appends_one_each in Hloop. simpl in Hloop.
  unfold ret. intros [= <- _]. simpl. by rewrite Hloop.
Qed.

(** The world after the tariff of the calculator at [self] is set. *)
Lemma set_tariff_kwh_runs w self c v :
  calculator_at w self c -> num_lt v (NInt 0) = false ->
  set_tariff_kwh self (PyNum v) w
  = (Return tt,
     mkWorld (<[self := ObjCalculator (mkEnergyCalculator (appliances c) v)]>
                (heap w)) (stdout w)).
Proof.
  intros Hc Hv. unfold set_tariff_kwh, bind. rewrite Hv.
  by rewrite (get_calculator_at _ _ _ Hc).
Qed.

(** Setting the tariff, with whatever value, accepted or not, never
    touches the list of appliances of the calculator, nor any appliance,
    nor the output; and of two accepted settings the last one stays. *)
Theorem tariff_setter_touches_only_the_tariff w self c (value : pyobj F) :
  calculator_at w self c ->
  let w' := (set_tariff_kwh self value w).2 in
  (exists t, calculator_at w' self (mkEnergyCalculator (appliances c) t))
  /\ EnergyCalculator__len__ self w' = (Return (length (appliances c)), w')
  /\ (forall l a, appliance_at w l a -> appliance_at w' l a)
  /\ stdout w' = stdout w
  /\ (forall v1 v2,
       num_lt v1 (NInt 0) = false -> num_lt v2 (NInt 0) = false ->
       bind (set_tariff_kwh self (PyNum v1))
            (fun _ => set_tariff_kwh self (PyNum v2)) w
       = set_tariff_kwh self (PyNum v2) w).
Proof.
  intros Hc. cbv zeta.
  assert (Hcases :
    (set_tariff_kwh self value w).2 = w
    \/ exists v, (set_tariff_kwh self value w).2
                 = mkWorld (<[self := ObjCalculator
                                        (mkEnergyCalculator (appliances c) v)]>
                              (heap w)) (stdout w)).
  { unfold set_tariff_kwh. destruct value as [|v| | |]; try by left.
    destruct (num_lt v (NInt 0)) eqn:Hv; [by left|].
    right. exists v. unfold bind. by rewrite (get_calculator_at _ _ _ Hc). }
  assert (Hat : exists t, calculator_at (set_tariff_kwh self value w).2 self
                            (mkEnergyCalculator (appliances c) t)).
  { destruct Hcases as [->|[v ->]].
    - exists (_tariff_kwh c). by destruct c.
    - exists v. apply lookup_insert_eq. }
  split; [exact Hat|]. split; [|split; [|split]].
  - destruct Hat as [t Hat]. unfold EnergyCalculator__len__, bind.
    by rewrite (get_calculator_at _ _ _ Hat).
  - intros l a Hl. destruct Hcases as [->|[v ->]]; [done|].
    unfold appliance_at. simpl. rewrite lookup_insert_ne; [done|].
    intros ->. unfold appliance_at, calculator_at in *. congruence.
  - by destruct Hcases as [->|[v ->]].
  - intros v1 v2 Hv1 Hv2. unfold bind.
    rewrite (set_tariff_kwh_runs _ _ _ _ Hc Hv1).
    rewrite (set_tariff_kwh_runs _ _ _ _ Hc Hv2).
    rewrite (set_tariff_kwh_runs _ self
               (mkEnergyCalculator (appliances c) v1) v2)
      by (done || apply lookup_insert_eq).
    simpl. by rewrite insert_insert_eq.
Qed.

(** The energies of the contributions do not depend on the tariff. *)
Lemma contributions_energies_without_tariff t1 t2 p apps cs1 cs2 :
  contributions t1 p apps = Return cs1 ->
  contributions t2 p apps = Return cs2 ->
  map (fmap fst) cs1 = map (fmap fst) cs2.
Proof.
  revert cs1 cs2. induction apps as [|a apps IH]; intros cs1 cs2; simpl.
  - by intros [= <-] [= <-].
  - unfold contribution, rbind.
    destruct (contributions t1 p apps) as [|cs1'] eqn:H1;
      [by repeat case_match|].
    destruct (contributions t2 p apps) as [|cs2'] eqn:H2;
      [by repeat case_match|].
    specialize (IH _ _ eq_refl eq_refl).
    destruct (_is_on a).
    + destruct (computeEnergy a p) as [|energy]; [discriminate|].
      destruct (num_mul energy t1); [discriminate|].
      destruct (num_mul energy t2); [discriminate|].
      intros [= <-] [= <-]. simpl. by rewrite IH.
    + intros [= <-] [= <-]. simpl. by rewrite IH.
Qed.

Lemma detail_energies apps (cs : list (option (number F * number F))) :
  length cs = length apps ->
  map d_consumption_kwh (zip_with detail_of apps cs)
  = map (fun k => match k with
                  | Some energy => py_round energy 3
                  | None => NFloat f_zero
                  end) (map (fmap fst) cs).
Proof.
  revert cs. induction apps as [|a apps IH]; intros [|k cs]; simpl; try done.
  intros [= Hlen]. f_equal; [by destruct k as [[]|]|by apply IH].
Qed.

Lemma energies_of_contributions (cs : list (option (number F * number F))) :
  map fst (omap id cs) = omap id (map (fmap fst) cs).
Proof.
  induction cs as [|[[e k]|] cs IH]; csimpl; [done| |done]. by f_equal.
Qed.

(** Changing the tariff changes costs, never energies: the total energy
    and the energy of every detail are the same under the old tariff and
    under a new one, whenever both totals return. *)
Theorem energies_do_not_depend_on_the_tariff w self c ls apps p v r1 r2 w2 :
  calculator_at w self c ->
  appliances c = map PyRef ls ->
  Forall2 (appliance_at w) ls apps ->
  non_negative p ->
  non_negative v ->
  calculate_total_consumption_and_cost self (PyNum p) w = (Return r1, w) ->
  bind (set_tariff_kwh self (PyNum v))
       (fun _ => calculate_total_consumption_and_cost self (PyNum p)) w
    = (Return r2, w2) ->
  total_consumption_kwh r1 = total_consumption_kwh r2
  /\ map d_name (details r1) = map d_name (details r2)
  /\ map d_consumption_kwh (details r1) = map d_consumption_kwh (details r2).
Proof.
  intros Hc Happs Hall Hp Hv.
  apply non_negative_not_negative in Hp, Hv.
  rewrite (calculate_total_is_computeTotal _ _ _ _ _ _ Hc Happs Hall Hp).
  unfold bind. rewrite (set_tariff_kwh_runs _ _ _ _ Hc Hv).
  set (c2 := mkEnergyCalculator (appliances c) v).
  set (w1 := mkWorld _ _).
  assert (Hc2 : calculator_at w1 self c2) by apply lookup_insert_eq.
  assert (Hall2 : Forall2 (appliance_at w1) ls apps).
  { eapply Forall2_impl; [exact Hall|]. intros l a Hl.
    unfold appliance_at. simpl. rewrite lookup_insert_ne; [done|].
    intros ->. unfold appliance_at, calculator_at in *. congruence. }
  rewrite (calculate_total_is_computeTotal _ _ c2 _ _ _ Hc2 Happs Hall2 Hp).
  unfold computeTotal, rbind. simpl.
  destruct (contributions (_tariff_kwh c) p apps) as [|cs1] eqn:H1;
    [discriminate|].
  destruct (contributions v p apps) as [|cs2] eqn:H2; [discriminate|].
  pose proof (contributions_energies_without_tariff _ _ _ _ _ _ H1 H2) as He.
  pose proof (contributions_length _ _ _ _ H1) as Hl1.
  pose proof (contributions_length _ _ _ _ H2) as Hl2.
  rewrite !energies_of_contributions, He.
  destruct (running_total (omap id (map (fmap fst) cs2))) as [|E];
    [discriminate|].
  destruct (running_total (map snd (omap id cs1))); [discriminate|].
  destruct (running_total (map snd (omap id cs2))); [discriminate|].
  intros [= <-] [= <- _]. simpl. split; [done|]. split.
  - by rewrite !detail_names.
  - by rewrite !detail_energies, He.
Qed.

(** With no appliance on there is no arithmetic at all: every contribution
    is empty, whatever the tariff and the period. *)
Lemma contributions_all_off t p apps :
  Forall (fun a => _is_on a = false) apps ->
  contributions t p apps = Return (map (fun _ => None) apps).
Proof.
  induction 1 as [|a apps Hoff _ IH]; simpl; [done|].
  unfold contribution. by rewrite Hoff, IH.
Qed.

Lemma computeTotal_all_off t p apps :
  Forall (fun a => _is_on a = false) apps ->
  computeTotal t p apps
  = Return (mkResult (py_round (NFloat f_zero) 3) (py_round (NFloat f_zero) 2)
              (map (fun a => mkDetail (_name a) (NFloat f_zero) (NFloat f_zero))
                 apps)).
Proof.
  intros Hoff. unfold computeTotal. rewrite (contributions_all_off _ _ _ Hoff).
  cbn [rbind].
  assert (Hnone : omap id (map (fun _ : Appliance F =>
                               @None (number F * number F)) apps) = []).
  { clear Hoff. induction apps as [|a apps IH]; csimpl; done. }
  rewrite Hnone. cbn. do 2 f_equal. clear Hoff Hnone.
  induction apps as [|a apps IH]; simpl; [done|]. by rewrite IH.
Qed.

(** A calculator holds references: what it computes follows the state
    the appliances have when the total is asked for.  An appliance switched
    off after the calculator was built has the entry [name, 0.0, 0.0] in the
    next total, at each of its places in the list. *)
Theorem calculator_sees_a_later_turn_off w self c ls apps p l a i r w' :
  calculator_at w self c ->
  appliances c = map PyRef ls ->
  Forall2 (appliance_at w) ls apps ->
  non_negative p ->
  ls !! i = Some l ->
  appliance_at w l a ->
  bind (turn_off l)
       (fun _ => calculate_total_consumption_and_cost self (PyNum p)) w
    = (Return r, w') ->
  details r !! i = Some (mkDetail (_name a) (NFloat f_zero) (NFloat f_zero)).
Proof.
  intros Hc Happs Hall Hp Hi Hl. apply non_negative_not_negative in Hp.
  unfold bind.
  rewrite (turn_off_at w l a Hl).
  set (w1 := after_switch w l a false).
  assert (Hc1 : calculator_at w1 self c).
  { unfold calculator_at. subst w1. simpl. rewrite lookup_insert_ne; [done|].
    intros ->. unfold appliance_at, calculator_at in *. congruence. }
  assert (Hall1 : exists apps1, Forall2 (appliance_at w1) ls apps1).
  { clear Hi Happs. induction Hall as [|l' a' ls apps Hl' _ [apps1 IH]].
    - by exists [].
    - destruct (decide (l' = l)) as [->|Hne].
      + exists (switched a false :: apps1). constructor; [|done].
        apply after_switch_at.
      + exists (a' :: apps1). constructor; [|done].
        unfold appliance_at. subst w1. simpl. by rewrite lookup_insert_ne. }
  destruct Hall1 as [apps1 Hall1].
  rewrite (calculate_total_is_computeTotal _ _ _ _ _ _ Hc1 Happs Hall1 Hp).
  intros [= Hr _].
  destruct (Forall2_lookup_l _ _ _ _ _ Hall1 Hi) as (a1 & Ha1 & Hat).
  assert (a1 = switched a false) as ->.
  { pose proof (after_switch_at w l a false) as Hsw.
    unfold appliance_at in *. subst w1. congruence. }
  revert Hr. unfold computeTotal, rbind.
  destruct (contributions _ p apps1) as [|cs] eqn:Hcs; [discriminate|].
  destruct (running_total _); [discriminate|].
  destruct (running_total _); [discriminate|].
  intros [= <-]. simpl.
  pose proof (contributions_entries _ _ _ _ Hcs) as Hentries.
  destruct (Forall2_lookup_l _ _ _ _ _ Hentries Ha1) as (d & -> & Hn & Hz).
  simpl in Hn, Hz. destruct Hz as [Hk Hcost]. destruct d; simpl in *.
  by subst.
Qed.

End CalculatorBehaviour.

Section CalculatorOnBinary64.

(** With no appliance on (an empty list of appliances included), the total
    energy and the total cost are [0.0] and every detail is the name with
    [0.0] and [0.0], for every tariff and every period that is not
    negative. *)
Theorem nothing_on_gives_zero_totals
  (w : world float) self c ls apps p :
  calculator_at w self c ->
  appliances c = map PyRef ls ->
  Forall2 (appliance_at w) ls apps ->
  Forall (fun a => _is_on a = false) apps ->
  non_negative p ->
  calculate_total_consumption_and_cost self (PyNum p) w
  = (Return
       (mkResult (NFloat 0%float) (NFloat 0%float)
          (map (fun a => mkDetail (_name a) (NFloat 0%float) (NFloat 0%float))
             apps)), w).
Proof.
  intros Hc Happs Hall Hoff Hp. apply non_negative_not_negative in Hp.
  rewrite (calculate_total_is_computeTotal _ _ _ _ _ _ Hc Happs Hall Hp).
  by rewrite (computeTotal_all_off _ _ _ Hoff).
Qed.

End CalculatorOnBinary64.


(** *** The database manager: names, saving, listing, closing *)

Section DatabaseLifeCycle.

Context {F : Type}.

Import Database DatabaseManager.

Variable adapt : numbers F -> result (stored_numbers F).
Variable next_rowid : list (row F) -> Z.

Implicit Types (m : manager F) (t : list (row F)) (r : row F).

Lemma substring_all (s : string) : String.substring 0 (String.length s) s = s.
Proof. induction s as [|ch s IH]; simpl; [done|]. by rewrite IH. Qed.

Lemma substring_after (stem suffix : string) (n : nat) :
  String.substring (String.length stem) n (String.append stem suffix)
  = String.substring 0 n suffix.
Proof. induction stem as [|ch stem IH]; simpl; [done|]. exact IH. Qed.

Lemma string_length_append (s1 s2 : string) :
  String.length (String.append s1 s2)
  = (String.length s1 + String.length s2)%nat.
Proof. induction s1 as [|ch s1 IH]; simpl; [done|]. by rewrite IH. Qed.

Lemma string_split_at (s : string) (k : nat) :
  (k <= String.length s)%nat ->
  s = String.append (String.substring 0 k s)
        (String.substring k (String.length s - k) s).
Proof.
  revert k. induction s as [|ch s IH]; intros [|k] Hk; simpl in *; try lia.
  - done.
  - by rewrite substring_all.
  - change (String ch s
            = String ch (String.append (String.substring 0 k s)
                           (String.substring k (String.length s - k) s))).
    f_equal. apply IH. lia.
Qed.

(** [endswith] is what its name says. *)
Lemma endswith_iff (s suffix : string) :
  endswith s suffix = true <-> exists stem, s = String.append stem suffix.
Proof.
  unfold endswith. rewrite andb_true_iff, Nat.leb_le, String.eqb_eq. split.
  - intros [Hle Hsub].
    exists (String.substring 0 (String.length s - String.length suffix) s).
    rewrite <- Hsub at 2.
    replace (String.length suffix)
      with (String.length s - (String.length s - String.length suffix))%nat
      at 3 by lia.
    apply string_split_at. lia.
  - intros [stem ->]. rewrite string_length_append. split; [lia|].
    replace (String.length stem + String.length suffix
             - String.length suffix)%nat
      with (String.length stem) by lia.
    rewrite substring_after. apply substring_all.
Qed.


(** A record that is strictly newer than all the stored ones comes first
    in the order of the listing, before the others in their order. *)
Lemma order_by_timestamp_desc_newest t r :
  Forall (fun x => String.ltb (timestamp x) (timestamp r) = true) t ->
  order_by_timestamp_desc (t ++ [r]) = r :: order_by_timestamp_desc t.
Proof.
  induction 1 as [|x t Hx _ IH]; simpl; [done|].
  rewrite IH. simpl.
  assert (Hle : String.leb (timestamp r) (timestamp x) = false).
  { unfold String.ltb in Hx. unfold String.leb.
    rewrite String.compare_antisym.
    by destruct (String.compare (timestamp x) (timestamp r)). }
  by rewrite Hle.
Qed.

Lemma get_all_records_readable t :
  get_all_records (Readable t)
  = (Return (map dict_of_row (order_by_timestamp_desc t)), []).
Proof.
  unfold get_all_records, execute_select_all. cbn [rbind].
  by rewrite convert_rows_tuples.
Qed.

(** Save, then list.  When the table can be read, the engine takes the
    five numbers, and the clock reads later than every stored timestamp,
    the [INSERT] is done and the next [get_all_records] gives the saved
    record first (its name, its timestamp and the key the engine gave it),
    followed by exactly what it gave before the save.  That is so when
    [commit] returns, and [save_record] then returns and prints its
    confirmation; and it is so when [commit] raises and leaves the
    transaction open, and [save_record] then prints the error and raises
    it. *)
Theorem saved_record_is_listed_first
  m t now nm power hours consumption cost tariff stored before :
  _cursor m = Readable t ->
  adapt (power, hours, consumption, cost, tariff) = Return stored ->
  Forall (fun x => String.ltb (timestamp x) now = true) t ->
  get_all_records (_cursor m) = (Return before, []) ->
  exists m' saved,
    save_record adapt next_rowid m now Committed nm power hours consumption
      cost tariff
    = (Return tt, m', [String.append "Запись сохранена в БД: " nm])
    /\ (forall e,
          save_record adapt next_rowid m now (StillOpen e) nm power hours
            consumption cost tariff
          = (Raise (sqlite3_Error e), m',
             [String.append "Ошибка при сохранении записи: " e]))
    /\ get_all_records (_cursor m') = (Return (saved :: before), [])
    /\ saved !! "appliance_name" = Some (SqlText nm)
    /\ saved !! "timestamp" = Some (SqlText now)
    /\ saved !! "id" = Some (SqlInteger (next_rowid t)).
Proof.
  intros Hcur Hadapt Hnew. rewrite Hcur, get_all_records_readable.
  intros [= <-].
  destruct stored as [[[[p' h'] k'] c'] tf'].
  unfold save_record, execute_insert. rewrite Hcur, Hadapt. cbn [rbind commit].
  eexists _, _. split; [reflexivity|]. split; [reflexivity|]. cbn [_cursor].
  rewrite get_all_records_readable.
  rewrite order_by_timestamp_desc_newest by exact Hnew.
  split; [reflexivity|]. by repeat split.
Qed.

Lemma save_record_keeps_db_name
  m now answer nm power hours consumption cost tariff :
  db_name
    (save_record adapt next_rowid m now answer nm power hours consumption cost
       tariff).1.2
  = db_name m.
Proof.
  unfold save_record, execute_insert.
  destruct (_cursor m) as [e|t]; [done|].
  destruct (adapt _) as [e|[[[[p' h'] k'] c'] tf']]; cbn [rbind];
    [by destruct e|by destruct answer].
Qed.

(** [save_record] adds one row or none, but a call that raises may have
    added it.  The name of the database stays.  When the call returns,
    [commit] has returned and the table has exactly one more row, at its
    end, with the name and the timestamp given and the engine's key, and
    the rows that were there are untouched.  When the call raises, either
    the [INSERT] raised, with that exception, and the manager is as it was;
    or the [INSERT] was done and [commit] raised: then the row is in the
    table the connection reads if the transaction stays open, and the table
    is the one the engine rolled back to otherwise. *)
Theorem save_record_adds_one_row_or_nothing
  m now answer nm power hours consumption cost tariff :
  let inserted :=
    execute_insert adapt next_rowid (_cursor m) nm
      (power, hours, consumption, cost, tariff) now in
  let appended (m' : manager F) :=
    exists t r,
      _cursor m = Readable t
      /\ inserted = Return (Readable (t ++ [r]))
      /\ _cursor m' = Readable (t ++ [r])
      /\ appliance_name r = nm
      /\ timestamp r = now
      /\ id r = next_rowid t in
  let '(outcome, m', _) :=
    save_record adapt next_rowid m now answer nm power hours consumption cost
      tariff
  in
  db_name m' = db_name m
  /\ match outcome with
     | inr _ => answer = Committed /\ appended m'
     | inl raised =>
         (inserted = Raise raised /\ m' = m)
         \/ (exists e, answer = StillOpen e /\ raised = sqlite3_Error e
                       /\ appended m')
         \/ (exists e t' c,
               answer = RolledBack e t' /\ raised = sqlite3_Error e
               /\ inserted = Return c /\ _cursor m' = Readable t')
     end.
Proof.
  cbv zeta. unfold save_record, execute_insert.
  destruct (_cursor m) as [e|t] eqn:Hcur; [by split; [|left]|].
  destruct (adapt _) as [e|[[[[p' h'] k'] c'] tf']]; cbn [rbind].
  - destruct e; by split; [|left].
  - destruct answer as [|e|e t']; cbn [commit]; (split; [done|]).
    + split; [done|]. by eexists _, _.
    + right; left. exists e. repeat split. by eexists _, _.
    + right; right. by eexists e, t', _.
Qed.

(** After [close], listing the records gives the empty list (the error of
    the closed connection is printed, not raised), saving raises the
    engine's error at the [INSERT] and stores nothing, and a second [close]
    changes nothing more. *)
Theorem closed_manager_lists_nothing_and_cannot_save
  m now answer nm power hours consumption cost tariff :
  let closed := (close m).1 in
  (get_all_records (_cursor closed)).1 = Return []
  /\ (save_record adapt next_rowid closed now answer nm power hours
        consumption cost tariff).1
     = (Raise (sqlite3_Error closed_database), closed)
  /\ (close closed).1 = closed.
Proof. by repeat split. Qed.

(** The inner loop of [get_all_records], for a row that has a value for
    every column left: the dict gets the keys of the columns, and under
    each the value of the last column of that name. *)
Lemma fill_record_columns (tuple : list (sqlval F)) cols i (d : record_dict F) :
  (i + length cols <= length tuple)%nat ->
  exists d',
    fill_record tuple i cols d = Return d'
    /\ (forall key, key ∉ cols -> d' !! key = d !! key)
    /\ (forall key, key ∈ cols -> is_Some (d' !! key))
    /\ (forall j key,
          cols !! j = Some key ->
          (forall j', (j < j')%nat -> cols !! j' <> Some key) ->
          d' !! key = tuple !! (i + j)%nat).
Proof.
  revert i d. induction cols as [|col cols IH]; intros i d Hlen.
  - exists d. repeat split; try done. intros key Hkey.
    by apply elem_of_nil in Hkey.
  - cbn [fill_record]. cbn [length] in Hlen.
    destruct (lookup_lt_is_Some_2 tuple i ltac:(lia)) as [v Hv]. rewrite Hv.
    destruct (IH (S i) (<[col:=v]> d) ltac:(lia))
      as (d' & Hrun & Hout & Hin & Hlast).
    assert (Hcol : col ∉ cols -> d' !! col = Some v).
    { intros Hnot. rewrite (Hout _ Hnot).
      exact (lookup_insert_eq (M:=gmap string) d col v). }
    exists d'. split; [exact Hrun|]. split; [|split].
    + intros key Hkey. apply not_elem_of_cons in Hkey as [Hne Hkey].
      rewrite (Hout _ Hkey).
      apply (lookup_insert_ne (M:=gmap string) d col key v). congruence.
    + intros key Hkey. destruct (decide (key ∈ cols)) as [Hk|Hk].
      * by apply Hin.
      * apply elem_of_cons in Hkey as [->|Hkey]; [|done].
        rewrite (Hcol Hk). by eexists.
    + intros [|j] key Hj Hlater; simpl in Hj.
      * injection Hj as <-. rewrite Nat.add_0_r, Hv. apply Hcol.
        intros Hk. apply list_elem_of_lookup in Hk as [j' Hj'].
        by apply (Hlater (S j') ltac:(lia)).
      * rewrite (Hlast j key Hj).
        -- f_equal. lia.
        -- intros j' Hlt. apply (Hlater (S j') ltac:(lia)).
Qed.

(** Every record of [get_all_records] is the dict of one fetched row.  For
    whatever rows [fetchall] gives and whatever column names
    [cursor.description] gives, each row with one value per column, the
    loop returns one record per row, in the order of the rows; the keys of
    a record are the column names and no others, and the value under a
    name is the value the row has at the last column of that name (at the
    only one, when the names differ). *)
Theorem every_listed_record_has_the_columns_of_its_row
  (rows : list (list (sqlval F))) (cols : list string) :
  Forall (fun tuple => length tuple = length cols) rows ->
  exists records,
    convert_rows rows cols [] = Return records
    /\ Forall2
         (fun tuple (d : record_dict F) =>
            (forall key, is_Some (d !! key) <-> key ∈ cols)
            /\ (forall j key,
                  cols !! j = Some key ->
                  (forall j', (j < j')%nat -> cols !! j' <> Some key) ->
                  d !! key = tuple !! j))
         rows records.
Proof.
  intros Hrows.
  enough (Hgen : forall results,
             exists records,
               convert_rows rows cols results = Return (results ++ records)
               /\ Forall2
                    (fun tuple (d : record_dict F) =>
                       (forall key, is_Some (d !! key) <-> key ∈ cols)
                       /\ (forall j key,
                             cols !! j = Some key ->
                             (forall j', (j < j')%nat -> cols !! j' <> Some key) ->
                             d !! key = tuple !! j))
                    rows records).
  { destruct (Hgen []) as (records & Hrun & Hall). by exists records. }
  induction Hrows as [|tuple rows Htuple _ IH]; intros results.
  - exists []. rewrite app_nil_r. by split; [|constructor].
  - cbn [convert_rows].
    destruct (fill_record_columns tuple cols 0 ∅ ltac:(simpl; lia))
      as (d & Hfill & Hout & Hin & Hlast).
    rewrite Hfill. cbn [rbind].
    destruct (IH (results ++ [d])) as (records & Hrun & Hall).
    exists (d :: records). split.
    + by rewrite Hrun, <- app_assoc.
    + constructor; [|exact Hall]. split; [|exact Hlast].
      intros key. split; [|by apply Hin].
      intros Hsome. destruct (decide (key ∈ cols)) as [|Hnot]; [done|].
      destruct Hsome as [x Hx]. rewrite (Hout _ Hnot) in Hx.
      pose proof (lookup_empty (M:=gmap string) (A:=sqlval F) key) as He.
      unfold record_dict in Hx. congruence.
Qed.

End DatabaseLifeCycle.

(** *** main.py: saving the details of a calculation *)

Section SavingTheDetails.

Context {F : Type} `{FloatImpl F}.

Import Database DatabaseManager.

Variable adapt : numbers F -> result (stored_numbers F).
Variable next_rowid : list (row F) -> Z.
Variable clock : nat -> string.
Variable commits : nat -> commit_answer F.
Variable exn_text : exn -> string.

Implicit Types (w : world F) (a : Appliance F) (c : EnergyCalculator F).
Implicit Types (db : manager F) (d : detail F) (l : loc).

(** The search by name gives the first appliance of the list that has the
    name, and [None] when no appliance has it; it changes nothing. *)
Theorem next_named_gives_the_first_with_the_name w ls apps :
  Forall2 (appliance_at w) ls apps ->
  (forall i l a,
     ls !! i = Some l -> apps !! i = Some a ->
     (forall j a', (j < i)%nat -> apps !! j = Some a' -> _name a' <> _name a) ->
     next_named (map PyRef ls) (_name a) w = (Return (Some l), w))
  /\ (forall wanted,
       wanted ∉ map _name apps ->
       next_named (map PyRef ls) wanted w = (Return None, w)).
Proof.
  intros Hall. split.
  - induction Hall as [|l0 a0 ls apps Hl0 _ IH]; intros i l a Hi Ha Hfirst.
    + done.
    + cbn [map next_named]. unfold bind. rewrite (name_at _ _ _ Hl0).
      destruct i as [|i]; simpl in Hi, Ha.
      * injection Hi as <-. injection Ha as <-. by rewrite String.eqb_refl.
      * destruct (String.eqb_spec (_name a0) (_name a)) as [Heq|_].
        { by destruct (Hfirst 0%nat a0 ltac:(lia) eq_refl). }
        apply (IH i l a Hi Ha). intros j a' Hj Ha'.
        apply (Hfirst (S j) a'); [lia|exact Ha'].
  - induction Hall as [|l0 a0 ls apps Hl0 _ IH]; intros wanted Hnot.
    + done.
    + cbn [map next_named]. unfold bind. rewrite (name_at _ _ _ Hl0).
      simpl in Hnot. apply not_elem_of_cons in Hnot as [Hne Hnot].
      destruct (String.eqb_spec (_name a0) wanted) as [Heq|_]; [done|].
      by apply IH.
Qed.

Lemma next_named_finds_a_known_name w ls apps wanted :
  Forall2 (appliance_at w) ls apps ->
  wanted ∈ map _name apps ->
  exists l a,
    next_named (map PyRef ls) wanted w = (Return (Some l), w)
    /\ appliance_at w l a /\ a ∈ apps /\ _name a = wanted.
Proof.
  induction 1 as [|l0 a0 ls apps Hl0 _ IH]; intros Hin; simpl in Hin.
  - by apply elem_of_nil in Hin.
  - cbn [map next_named]. unfold bind. rewrite (name_at _ _ _ Hl0).
    destruct (String.eqb_spec (_name a0) wanted) as [Heq|Hne].
    + exists l0, a0. repeat split; try done. apply list_elem_of_here.
    + apply elem_of_cons in Hin as [Heq|Hin]; [done|].
      destruct (IH Hin) as (l & a & Hrun & Hl & Ha & Hn).
      exists l, a. repeat split; try done. by apply list_elem_of_further.
Qed.

Lemma print_all_runs (out : list string) w :
  print_all out w = (Return tt, mkWorld (heap w) (stdout w ++ out)).
Proof.
  revert w. induction out as [|line out IH]; intros w; simpl.
  - unfold ret. rewrite app_nil_r. by destruct w.
  - unfold bind, print. rewrite IH. simpl. by rewrite <- app_assoc.
Qed.

(** One turn of the loop, for a detail whose name is the name of a listed
    appliance: [save_record] is called, once, with the power of an
    appliance of that name; whatever it does, the turn returns. *)
Lemma save_detail_calls_save_record w calculator c ls apps period db tick d :
  calculator_at w calculator c ->
  Forall2 (appliance_at w) ls apps ->
  d_name d ∈ map _name apps ->
  exists a w',
    a ∈ apps /\ _name a = d_name d
    /\ save_detail adapt next_rowid clock commits exn_text calculator
         (map PyRef ls) period (db, tick) d w
       = (Return
            ((save_record adapt next_rowid db (clock tick) (commits tick)
                (d_name d) (_power_consumption_watts a) period
                (d_consumption_kwh d) (d_cost d) (_tariff_kwh c)).1.2,
             S tick), w')
    /\ heap w' = heap w.
Proof.
  intros Hc Hall Hin.
  destruct (next_named_finds_a_known_name _ _ _ _ Hall Hin)
    as (l & a & Hfind & Hl & Ha & Hn).
  exists a. unfold save_detail, bind at 1. rewrite Hfind.
  unfold try_except, bind at 1. rewrite (power_at _ _ _ Hl).
  unfold bind at 1. rewrite (tariff_at _ _ _ Hc).
  destruct (save_record _ _ _ _ _ _ _ _ _ _ _) as [[[e|[]] db'] out];
    unfold bind, print, ret; rewrite print_all_runs; eexists; by repeat split.
Qed.

Lemma save_details_runs w calculator c ls apps period ds db tick :
  calculator_at w calculator c ->
  Forall2 (appliance_at w) ls apps ->
  Forall (fun d => d_name d ∈ map _name apps) ds ->
  exists db' w',
    save_details adapt next_rowid clock commits exn_text calculator
      (map PyRef ls) period ds (db, tick) w
    = (Return (db', (tick + length ds)%nat), w')
    /\ heap w' = heap w
    /\ db_name db' = db_name db.
Proof.
  intros Hc Hall Hds. unfold save_details.
  revert w db tick Hc Hall.
  induction Hds as [|d ds Hd _ IH]; intros w db tick Hc Hall; cbn [for_in].
  - exists db, w. unfold ret. rewrite Nat.add_0_r. by repeat split.
  - destruct (save_detail_calls_save_record w calculator c ls apps period db
                tick d Hc Hall Hd) as (a & w1 & _ & _ & Hstep & Hheap).
    unfold bind at 1. rewrite Hstep.
    set (db1 := (save_record _ _ _ _ _ _ _ _ _ _ _).1.2).
    assert (Hname : db_name db1 = db_name db).
    { subst db1. apply save_record_keeps_db_name. }
    destruct (IH w1 db1 (S tick)) as (db' & w' & Hrest & Hheap' & Hname').
    + unfold calculator_at. by rewrite Hheap.
    + eapply Forall2_impl; [exact Hall|]. intros l' a' Hl'.
      unfold appliance_at. by rewrite Hheap.
    + exists db', w'. split; [|split; congruence].
      rewrite Hrest. do 3 f_equal. simpl. lia.
Qed.

(** The loop never stops early and never raises: for details that carry
    names of the listed appliances, every detail gets its call of
    [save_record] (the clock is read once per detail), whether the calls
    before it failed or not; no object of the heap changes. *)
Theorem save_details_tries_every_detail
  w calculator c ls apps period ds db tick :
  calculator_at w calculator c ->
  Forall2 (appliance_at w) ls apps ->
  Forall (fun d => d_name d ∈ map _name apps) ds ->
  exists db' w',
    save_details adapt next_rowid clock commits exn_text calculator
      (map PyRef ls) period ds (db, tick) w
    = (Return (db', (tick + length ds)%nat), w')
    /\ heap w' = heap w
    /\ db_name db' = db_name db.
Proof. apply save_details_runs. Qed.

(** After a total: the details of what
    [calculate_total_consumption_and_cost] returned all find their
    appliance, so saving them calls [save_record] once per appliance of the
    calculator and never takes the branch of the warning. *)
Theorem details_of_a_total_are_all_saved
  w calculator c ls apps p r db tick :
  calculator_at w calculator c ->
  appliances c = map PyRef ls ->
  Forall2 (appliance_at w) ls apps ->
  non_negative p ->
  calculate_total_consumption_and_cost calculator (PyNum p) w = (Return r, w) ->
  exists db' w',
    save_details adapt next_rowid clock commits exn_text calculator
      (appliances c) p (details r) (db, tick) w
    = (Return (db', (tick + length apps)%nat), w')
    /\ heap w' = heap w.
Proof.
  intros Hc Happs Hall Hp Hrun.
  apply non_negative_not_negative in Hp.
  rewrite (calculate_total_is_computeTotal _ _ _ _ _ _ Hc Happs Hall Hp)
    in Hrun.
  injection Hrun as Hr.
  assert (Hnames : map d_name (details r) = map _name apps).
  { revert Hr. unfold computeTotal, rbind.
    destruct (contributions _ p apps) as [|cs] eqn:Hcs; [discriminate|].
    destruct (running_total _); [discriminate|].
    destruct (running_total _); [discriminate|].
    intros [= <-]. simpl. apply detail_names.
    by apply contributions_length in Hcs. }
  assert (Hds : Forall (fun d => d_name d ∈ map _name apps) (details r)).
  { apply Forall_forall. intros d Hd. rewrite <- Hnames.
    by apply (list_elem_of_fmap_2 d_name). }
  destruct (save_details_runs w calculator c ls apps p
              (details r) db tick Hc Hall Hds) as (db' & w' & Hsave & Hheap & _).
  exists db', w'. rewrite Happs, Hsave. split; [|done].
  do 3 f_equal. by rewrite <- (length_map d_name), Hnames, length_map.
Qed.

(** When the table can be read, the engine takes the values of every
    detail with the power of any appliance of its name, and no [commit]
    ends in a rollback (each returns, or raises and leaves the transaction
    open), the loop appends one row per detail to the table the connection
    reads, in the order of the details, each with the name of its detail
    and the reading of the clock at its turn; the rows that were there stay
    in front. *)
Theorem saved_rows_follow_the_details
  w calculator c ls apps period ds db tick t :
  calculator_at w calculator c ->
  Forall2 (appliance_at w) ls apps ->
  Forall (fun d => d_name d ∈ map _name apps) ds ->
  _cursor db = Readable t ->
  (forall d a,
     d ∈ ds -> a ∈ apps -> _name a = d_name d ->
     exists stored,
       adapt (_power_consumption_watts a, period, d_consumption_kwh d,
              d_cost d, _tariff_kwh c)
       = Return stored) ->
  (forall k e t', commits k <> RolledBack e t') ->
  exists db' w' rows,
    save_details adapt next_rowid clock commits exn_text calculator
      (map PyRef ls) period ds (db, tick) w
    = (Return (db', (tick + length ds)%nat), w')
    /\ _cursor db' = Readable (t ++ rows)
    /\ map appliance_name rows = map d_name ds
    /\ map timestamp rows = map clock (seq tick (length ds)).
Proof.
  intros Hc Hall Hds Hcur Hadapt Hcommits. unfold save_details.
  revert w db tick t Hc Hall Hcur.
  induction Hds as [|d ds Hd _ IH]; intros w db tick t Hc Hall Hcur;
    cbn [for_in].
  - exists db, w, []. unfold ret. rewrite Nat.add_0_r, app_nil_r.
    by repeat split.
  - destruct (save_detail_calls_save_record w calculator c ls apps period db
                tick d Hc Hall Hd) as (a & w1 & Ha & Hna & Hstep & Hheap).
    unfold bind at 1. rewrite Hstep. clear Hstep.
    set (vals := (_power_consumption_watts a, period, d_consumption_kwh d,
                  d_cost d, _tariff_kwh c)).
    destruct (Hadapt d a (list_elem_of_here _ _) Ha Hna)
      as [[[[[p' h'] k'] c'] tf'] Hvals].
    fold vals in Hvals.
    specialize (IH (fun d' a' Hd' =>
                      Hadapt d' a' (list_elem_of_further _ _ _ Hd'))).
    set (row := mkRow (next_rowid t) (d_name d) p' h' k' c' tf' (clock tick)).
    assert (Hsave : (save_record adapt next_rowid db (clock tick)
                       (commits tick) (d_name d)
                       (_power_consumption_watts a) period (d_consumption_kwh d)
                       (d_cost d) (_tariff_kwh c)).1.2
                    = mkManager (db_name db) (Readable (t ++ [row]))).
    { unfold save_record, execute_insert. rewrite Hcur. fold vals.
      rewrite Hvals. cbn [rbind]. pose proof (Hcommits tick) as Hk.
      destruct (commits tick) as [|e|e t']; cbn [commit]; try done.
      by destruct (Hk e t'). }
    rewrite Hsave.
    destruct (IH w1 (mkManager (db_name db) (Readable (t ++ [row]))) (S tick)
                (t ++ [row])) as (db' & w' & rows & Hrest & Hcur' & Hn & Hts).
    + unfold calculator_at. by rewrite Hheap.
    + eapply Forall2_impl; [exact Hall|]. intros l' a' Hl'.
      unfold appliance_at. by rewrite Hheap.
    + reflexivity.
    + exists db', w', (row :: rows). split.
      { rewrite Hrest. do 3 f_equal. simpl. lia. }
      rewrite Hcur', <- app_assoc. simpl. by rewrite Hn, Hts.
Qed.

End SavingTheDetails.

(** *** Concrete runs on binary64 *)

Example scenario_one_appliance_result :
  (scenario_one_appliance empty_world).1
  = Return (mkResult (NFloat 4%float) (NFloat 0.6%float)
              [mkDetail "Утюг" (NFloat 4%float) (NFloat 0.6%float)]).
Proof. vm_compute. reflexivity. Qed.

Example scenario_one_on_one_off_result :
  (scenario_one_on_one_off empty_world).1
  = Return (mkResult (NFloat 1%float) (NFloat 0.2%float)
              [mkDetail "Телевизор" (NFloat 1%float) (NFloat 0.2%float);
               mkDetail "Стиральная машина" (NFloat 0%float) (NFloat 0%float)]).
Proof. vm_compute. reflexivity. Qed.

Example three_records_newest_first :
  map Database.id (Database.order_by_timestamp_desc three_records)
  = [2; 1; 3]%Z.
Proof. reflexivity. Qed.

Example unreadable_store_gives_empty_list :
  Database.get_all_records (F:=float) (Database.Unreadable "no such table")
  = (Return [], ["Ошибка при получении записей: no such table"]).
Proof. reflexivity. Qed.

Lemma C1_witness :
  let w := two_kilowatt_household true in
  calculate_energy_consumption 1%positive (PyNum (NFloat 2%float)) w
    = (Return (NFloat 4%float), w).
Proof.
  intros w.
  destruct (C1_energy_linear_when_on_zero_when_off w 1%positive
              (iron_of (NInt 2000) true) (NFloat 2%float))
    as (_ & Hon & _); [reflexivity | reflexivity |].
  rewrite Hon by reflexivity. reflexivity.
Defined.

Lemma C2_witness :
  let w := two_kilowatt_household true in
  calculate_energy_consumption 1%positive (PyNum (NFloat (-1)%float)) w
    = (Raise ValueError, w).
Proof.
  intros w.
  destruct (C2_negative_hours_rejected_when_on w 1%positive
              (iron_of (NInt 2000) true) (NFloat (-1)%float))
    as (Hon & _); [reflexivity | reflexivity |].
  apply Hon. reflexivity.
Defined.

(** C2 as stated fails: an iron that is off, asked for [-1.0] hours, returns
    [0.0] and raises nothing. *)
Lemma C2_counterexample :
  let w := two_kilowatt_household false in
  negative (NFloat (-1)%float)
  /\ appliance_at w 1%positive (iron_of (NInt 2000) false)
  /\ ~ (exists e,
          (calculate_energy_consumption 1%positive
             (PyNum (NFloat (-1)%float)) w).1 = Raise e).
Proof.
  intros w. split; [reflexivity|]. split; [reflexivity|].
  intros [e He]. vm_compute in He. discriminate He.
Qed.

Lemma C10_witness :
  let w := two_kilowatt_household false in
  calculate_energy_consumption 3%positive (PyNum (NInt (-5))) w
    = (Return (NFloat 0%float), w)
  /\ calculate_energy_consumption 3%positive (PyStr "два") w
    = (Return (NFloat 0%float), w).
Proof.
  intros w. split.
  - refine (proj1 (C10_off_returns_zero_for_any_hours w 3%positive
             (washer_of (NFloat 2200%float) false) (PyNum (NInt (-5))) _ _));
      reflexivity.
  - refine (proj1 (C10_off_returns_zero_for_any_hours w 3%positive
             (washer_of (NFloat 2200%float) false) (PyStr "два") _ _));
      reflexivity.
Defined.

Lemma C6_witness :
  let w := two_kilowatt_household false in
  (EnergyCalculator__init__
     (PyList [PyRef 1%positive; PyStr "утюг"]) (PyNum (NFloat 0.15%float)) w
   = (Raise TypeError, w))
  /\ (exists e,
        EnergyCalculator__init__
          (PyList [PyRef 1%positive]) (PyNum (NFloat (-0.15)%float)) w
        = (Raise e, w) /\ ValidationError e)
  /\ (exists l w',
        EnergyCalculator__init__
          (PyList [PyRef 1%positive; PyRef 2%positive])
          (PyNum (NFloat 0.15%float)) w
        = (Return (PyRef l), w')
        /\ tariff_kwh l w' = (Return (NFloat 0.15%float), w')).
Proof.
  intros w. split; [|split].
  - refine (proj1 (proj1 (C6_calculator_construction w
              [PyRef 1%positive; PyStr "утюг"] (NFloat 0.15%float)) _ _)).
    apply Exists_cons_tl, Exists_cons_hd.
    intros (l & a & Hl & _). discriminate Hl.
  - refine (proj1 (proj2 (C6_calculator_construction w
              [PyRef 1%positive] (NFloat (-0.15)%float))) _ _).
    reflexivity.
  - destruct (proj2 (proj2 (C6_calculator_construction w
              [PyRef 1%positive; PyRef 2%positive] (NFloat 0.15%float))))
      as (l & w' & Hrun & _ & _ & Ht).
    + repeat constructor.
      * by exists 1%positive, (iron_of (NInt 2000) false).
      * by exists 2%positive, (tv_of (NInt 150) false).
    + reflexivity.
    + by exists l, w'.
Defined.

Lemma C7_witness :
  let w := two_kilowatt_household false in
  set_tariff_kwh 4%positive (PyNum (NFloat (-1)%float)) w
    = (Raise ValueError, w)
  /\ (set_tariff_kwh 4%positive (PyNum (NFloat 0.25%float)) w).1 = Return tt
  /\ tariff_kwh 4%positive
       (set_tariff_kwh 4%positive (PyNum (NFloat 0.25%float)) w).2
     = (Return (NFloat 0.25%float),
        (set_tariff_kwh 4%positive (PyNum (NFloat 0.25%float)) w).2).
Proof.
  intros w.
  pose (c := mkEnergyCalculator
               [PyRef 1%positive; PyRef 2%positive; PyRef 3%positive]
               (NFloat 0.15%float)).
  assert (Hc : calculator_at w 4%positive c) by reflexivity.
  split.
  - refine (proj1 (proj1 (C7_tariff_setter w 4%positive c
              (NFloat (-1)%float) Hc) _)). reflexivity.
  - destruct (proj2 (C7_tariff_setter w 4%positive c (NFloat 0.25%float) Hc))
      as [Hset Hget]; [reflexivity|].
    rewrite Hset. split; [reflexivity|exact Hget].
Defined.

Lemma C3_witness :
  let w := two_kilowatt_household true in
  calculate_total_consumption_and_cost 4%positive (PyNum (NFloat 2%float)) w
  = (Return
       (mkResult (NFloat 8.4%float) (NFloat 1.26%float)
          [mkDetail "Утюг" (NFloat 4%float) (NFloat 0.6%float);
           mkDetail "Телевизор" (NFloat 0%float) (NFloat 0%float);
           mkDetail "Стиральная машина" (NFloat 4.4%float)
             (NFloat 0.66%float)]), w).
Proof.
  intros w.
  rewrite (proj1 (C3_one_detail_per_appliance_in_order w 4%positive
             (mkEnergyCalculator
                [PyRef 1%positive; PyRef 2%positive; PyRef 3%positive]
                (NFloat 0.15%float))
             [1%positive; 2%positive; 3%positive]
             [iron_of (NInt 2000) true; tv_of (NInt 150) false;
              washer_of (NFloat 2200%float) true]
             (NFloat 2%float)
             eq_refl eq_refl
             ltac:(repeat constructor) eq_refl)).
  reflexivity.
Defined.

(** C4 as stated fails, on binary64, in two ways.  A one-watt iron runs for
    a quarter of an hour at 1000 per kWh: the energy, 0.00025 kWh, rounds to
    [0.0] and the cost rounds to [0.25], which is not within [0.01] of
    [1000 * 0.0], neither as floats nor as exact values.  And an iron of
    1e17 W and a washing machine of 3e17 W run for an hour at 0.7 per kWh:
    the totals are 4e14 kWh and 2.8e14, and the value of the cost is not
    within [0.01] of the value of the tariff times the energy, nor within
    [0.005 + 0.0005 * tariff]: floats of that size are too far apart. *)
Lemma C4_counterexample :
  (let w := one_watt_household (F:=float) in
   calculate_total_consumption_and_cost 4%positive
     (PyNum (NFloat 0.25%float)) w
   = (Return
        (mkResult (NFloat 0%float) (NFloat 0.25%float)
           [mkDetail "Утюг" (NFloat 0%float) (NFloat 0.25%float);
            mkDetail "Телевизор" (NFloat 0%float) (NFloat 0%float);
            mkDetail "Стиральная машина" (NFloat 0%float) (NFloat 0%float)]),
      w)
   /\ PrimFloat.leb (PrimFloat.abs (0.25 - 1000 * 0)) 0.01 = false
   /\ ~ (Qabs (F2Q 0.25 - F2Q 1000 * F2Q 0) <= 1 # 100)%Q)
  /\ match (calculate_total_consumption_and_cost 4%positive
              (PyNum (NFloat 1%float)) huge_household).1 with
     | inr r =>
         total_cost r = NFloat 280000000000000%float
         /\ total_consumption_kwh r = NFloat 400000000000000%float
         /\ ~ (Qabs (F2Q 280000000000000 - F2Q 0.7 * F2Q 400000000000000)
               <= (1 # 200) + F2Q 0.7 * (1 # 2000))%Q
         /\ ~ (Qabs (F2Q 280000000000000 - F2Q 0.7 * F2Q 400000000000000)
               <= 1 # 100)%Q
     | inl _ => False
     end.
Proof.
  split.
  - split; [vm_compute; reflexivity|]. split; [reflexivity|].
    intros Hle. vm_compute in Hle. by apply Hle.
  - vm_compute. repeat split; try reflexivity; intros Hle; by apply Hle.
Qed.

Lemma C4_witness :
  (Qabs (F2Q 1.26 - F2Q 0.15 * F2Q 8.4)
   <= (1 # 200) + F2Q 0.15 * (1 # 2000)
      + float_error 3 (F2Q 0.15) (F2Q 8.4) (F2Q 1.26))%Q
  /\ (Qabs (F2Q 1.26 - F2Q 0.15 * F2Q 8.4) <= 1 # 100)%Q.
Proof.
  destruct (C4_cost_within_rounding_of_tariff_times_energy
              (two_kilowatt_household true) 4%positive
              two_kilowatt_calculator [1%positive; 2%positive; 3%positive]
              two_kilowatt_appliances (NFloat 2%float) 0.15%float
              (mkResult (NFloat 8.4%float) (NFloat 1.26%float)
                 two_hour_details)
              eq_refl eq_refl ltac:(repeat constructor) eq_refl eq_refl
              ltac:(repeat constructor) eq_refl eq_refl)
    as (cost & energy & Hcost & Henergy & Hbound).
  injection Hcost as <-. injection Henergy as <-.
  destruct (Hbound eq_refl eq_refl eq_refl) as [Hgeneral Heveryday].
  split; [exact Hgeneral|].
  apply Heveryday; vm_compute; discriminate.
Defined.

(** C8 fails on the code.  [Iron("Утюг", float("nan"))] gets through
    [Appliance.__init__]: the test is [power_consumption_watts <= 0], and no
    comparison with a NaN holds.  The iron is created with a power that is
    not a positive number. *)
Theorem C8_nan_power_is_accepted :
  let w := mkWorld (F:=float) ∅ [] in
  let iron := mkAppliance (Iron false) "Утюг" (NFloat nan) false in
  Appliance__init__ (PyStr "Утюг") (PyNum (NFloat nan))
    = Return ("Утюг"%string, NFloat nan)
  /\ Iron__init__ (PyStr "Утюг") (PyNum (NFloat nan)) (PyNum (NBool false)) w
     = (Return (PyRef 1%positive),
        mkWorld (<[1%positive := ObjAppliance iron]> ∅) [])
  /\ ~ positive_number (NFloat nan)
  /\ num_le (NFloat nan) (NInt 0) = false.
Proof.
  repeat split; try reflexivity. intros Hpos. discriminate Hpos.
Qed.

(** *** Concrete runs of the further properties *)

Lemma construction_adds_one_appliance_that_is_off_witness :
  let w' := mkWorld (F:=float)
              (<[1%positive := ObjAppliance
                                 (mkAppliance (Iron true) "Утюг" (NInt 2000)
                                    false)]> ∅) [] in
  exists l, is_on l w' = (Return false, w').
Proof.
  intros w'.
  destruct (construction_adds_one_appliance_that_is_off
              (PyStr "Утюг") (PyNum (NInt 2000)) (PyNum (NBool true))
              empty_world (PyRef 1%positive) w' (or_introl eq_refl))
    as (l & a & _ & _ & _ & _ & _ & _ & Hoff & _).
  by exists l.
Defined.

Lemma failed_construction_changes_nothing_witness :
  ValueError = ValueError /\ two_kilowatt_household true
                             = two_kilowatt_household true.
Proof.
  exact (failed_construction_changes_nothing
           (PyStr "Телевизор") (PyNum (NInt 150)) (PyNum (NInt 0))
           (two_kilowatt_household true) ValueError
           (two_kilowatt_household true) (or_intror (or_introl eq_refl))).
Defined.

Lemma switching_writes_the_switch_and_prints_a_line_witness :
  stdout (turn_on 2%positive (two_kilowatt_household false)).2
  = ["Телевизор включен."].
Proof.
  rewrite (proj1 (switching_writes_the_switch_and_prints_a_line
                    (two_kilowatt_household false) 2%positive
                    (tv_of (NInt 150) false) eq_refl)).
  reflexivity.
Defined.

Lemma switching_keeps_everything_but_the_switch_witness :
  let won := (turn_on 2%positive (two_kilowatt_household false)).2 in
  let woff := (turn_off 2%positive (two_kilowatt_household true)).2 in
  (power_consumption_watts 2%positive won = (Return (NInt 150), won)
   /\ is_on 2%positive won = (Return true, won))
  /\ (name 2%positive woff = (Return "Телевизор", woff)
      /\ is_on 2%positive woff = (Return false, woff)).
Proof.
  pose proof (switching_keeps_everything_but_the_switch
                (two_kilowatt_household false) 2%positive
                (tv_of (NInt 150) false) eq_refl) as [[_ [Hp [Hi _]]] _].
  pose proof (switching_keeps_everything_but_the_switch
                (two_kilowatt_household true) 2%positive
                (tv_of (NInt 150) false) eq_refl) as [_ [Hn [_ [Hi' _]]]].
  exact (conj (conj Hp Hi) (conj Hn Hi')).
Defined.

Lemma last_switch_wins_witness :
  heap (bind (turn_on 2%positive) (fun _ => turn_off 2%positive)
          (two_kilowatt_household false)).2
  = heap (two_kilowatt_household false).
Proof.
  exact (proj2 (proj2 (proj2 (proj2
           (last_switch_wins (two_kilowatt_household false) 2%positive
              (tv_of (NInt 150) false) eq_refl)))) eq_refl).
Defined.

Lemma energy_follows_the_switch_witness :
  (bind (turn_on 2%positive)
     (fun _ => calculate_energy_consumption 2%positive (PyNum (NInt 2)))
     (two_kilowatt_household false)).1
  = Return (NFloat 0.3%float).
Proof.
  rewrite (proj2 (energy_follows_the_switch (two_kilowatt_household false)
                    2%positive (tv_of (NInt 150) false) eq_refl)
             (NInt 2) eq_refl).
  reflexivity.
Defined.

Lemma invalid_period_is_rejected_first_witness :
  calculate_total_consumption_and_cost 4%positive (PyStr "сутки")
    (two_kilowatt_household true)
  = (Raise ValueError, two_kilowatt_household true)
  /\ calculate_total_consumption_and_cost 99%positive
       (PyNum (NFloat (-24)%float)) (two_kilowatt_household true)
     = (Raise ValueError, two_kilowatt_household true).
Proof.
  split.
  - exact (invalid_period_is_rejected_first 4%positive (PyStr "сутки")
             (two_kilowatt_household true) I).
  - exact (invalid_period_is_rejected_first 99%positive
             (PyNum (NFloat (-24)%float)) (two_kilowatt_household true)
             eq_refl).
Defined.

Lemma details_have_len_entries_witness :
  EnergyCalculator__len__ 4%positive (two_kilowatt_household true)
  = (Return 3%nat, two_kilowatt_household true).
Proof.
  exact (proj1 (details_have_len_entries 4%positive (PyNum (NFloat 2%float))
                  (two_kilowatt_household true)
                  (mkResult (NFloat 8.4%float) (NFloat 1.26%float)
                     [mkDetail "Утюг" (NFloat 4%float) (NFloat 0.6%float);
                      mkDetail "Телевизор" (NFloat 0%float) (NFloat 0%float);
                      mkDetail "Стиральная машина" (NFloat 4.4%float)
                        (NFloat 0.66%float)])
                  (two_kilowatt_household true) eq_refl)).
Defined.

Lemma tariff_setter_touches_only_the_tariff_witness :
  let w' := (set_tariff_kwh 4%positive (PyNum (NFloat 0.25%float))
               (two_kilowatt_household true)).2 in
  EnergyCalculator__len__ 4%positive w' = (Return 3%nat, w').
Proof.
  exact (proj1 (proj2 (tariff_setter_touches_only_the_tariff
                         (two_kilowatt_household true) 4%positive
                         (mkEnergyCalculator
                            [PyRef 1%positive; PyRef 2%positive;
                             PyRef 3%positive] (NFloat 0.15%float))
                         (PyNum (NFloat 0.25%float)) eq_refl))).
Defined.

Lemma energies_do_not_depend_on_the_tariff_witness :
  exists r2 w2,
    bind (set_tariff_kwh 4%positive (PyNum (NFloat 0.25%float)))
         (fun _ => calculate_total_consumption_and_cost 4%positive
                     (PyNum (NFloat 2%float))) (two_kilowatt_household true)
      = (Return r2, w2)
    /\ total_cost r2 = NFloat 2.1%float
    /\ NFloat 8.4%float = total_consumption_kwh r2
    /\ map d_name two_hour_details = map d_name (details r2)
    /\ map d_consumption_kwh two_hour_details
       = map d_consumption_kwh (details r2).
Proof.
  pose (run := bind (set_tariff_kwh 4%positive (PyNum (NFloat 0.25%float)))
                 (fun _ => calculate_total_consumption_and_cost 4%positive
                             (PyNum (NFloat 2%float)))
                 (two_kilowatt_household true)).
  pose (r2 := match run.1 with
              | inr r => r
              | inl _ => mkResult (NFloat 0%float) (NFloat 0%float) []
              end).
  assert (Hrun : run = (Return r2, run.2)) by reflexivity.
  exists r2, run.2. split; [exact Hrun|]. split; [reflexivity|].
  exact (energies_do_not_depend_on_the_tariff
           (two_kilowatt_household true) 4%positive two_kilowatt_calculator
           [1%positive; 2%positive; 3%positive] two_kilowatt_appliances
           (NFloat 2%float) (NFloat 0.25%float)
           (mkResult (NFloat 8.4%float) (NFloat 1.26%float) two_hour_details)
           r2 run.2 eq_refl eq_refl ltac:(repeat constructor)
           eq_refl eq_refl eq_refl Hrun).
Defined.

Lemma nothing_on_gives_zero_totals_witness :
  let w := two_kilowatt_household false in
  calculate_total_consumption_and_cost 4%positive (PyNum (NInt 24)) w
  = (Return
       (mkResult (NFloat 0%float) (NFloat 0%float)
          [mkDetail "Утюг" (NFloat 0%float) (NFloat 0%float);
           mkDetail "Телевизор" (NFloat 0%float) (NFloat 0%float);
           mkDetail "Стиральная машина" (NFloat 0%float) (NFloat 0%float)]),
     w).
Proof.
  exact (nothing_on_gives_zero_totals (two_kilowatt_household false) 4%positive
           (mkEnergyCalculator
              [PyRef 1%positive; PyRef 2%positive; PyRef 3%positive]
              (NFloat 0.15%float))
           [1%positive; 2%positive; 3%positive]
           [iron_of (NInt 2000) false; tv_of (NInt 150) false;
            washer_of (NFloat 2200%float) false]
           (NInt 24) eq_refl eq_refl ltac:(repeat constructor)
           ltac:(repeat constructor) eq_refl).
Defined.

Lemma calculator_sees_a_later_turn_off_witness :
  exists r w',
    bind (turn_off 3%positive)
         (fun _ => calculate_total_consumption_and_cost 4%positive
                     (PyNum (NFloat 2%float))) (two_kilowatt_household true)
      = (Return r, w')
    /\ total_consumption_kwh r = NFloat 4%float
    /\ details r !! 2%nat
       = Some (mkDetail "Стиральная машина" (NFloat 0%float) (NFloat 0%float)).
Proof.
  pose (run := bind (turn_off 3%positive)
                 (fun _ => calculate_total_consumption_and_cost 4%positive
                             (PyNum (NFloat 2%float)))
                 (two_kilowatt_household true)).
  pose (r := match run.1 with
             | inr r => r
             | inl _ => mkResult (NFloat 0%float) (NFloat 0%float) []
             end).
  assert (Hrun : run = (Return r, run.2)) by reflexivity.
  exists r, run.2. split; [exact Hrun|]. split; [reflexivity|].
  exact (calculator_sees_a_later_turn_off
           (two_kilowatt_household true) 4%positive two_kilowatt_calculator
           [1%positive; 2%positive; 3%positive] two_kilowatt_appliances
           (NFloat 2%float) 3%positive (washer_of (NFloat 2200%float) true)
           2%nat r run.2 eq_refl eq_refl ltac:(repeat constructor)
           eq_refl eq_refl eq_refl Hrun).
Defined.

Lemma saved_record_is_listed_first_witness :
  exists m' saved,
    DatabaseManager.save_record example_adapt example_next_rowid
      example_manager "2024-05-02T09:00:00" DatabaseManager.Committed "Утюг"
      (NFloat 2000%float) (NFloat 2%float) (NFloat 4%float)
      (NFloat 0.6%float) (NFloat 0.15%float)
    = (Return tt, m', ["Запись сохранена в БД: Утюг"])
    /\ DatabaseManager.save_record example_adapt example_next_rowid
         example_manager "2024-05-02T09:00:00"
         (DatabaseManager.StillOpen "database is locked") "Утюг"
         (NFloat 2000%float) (NFloat 2%float) (NFloat 4%float)
         (NFloat 0.6%float) (NFloat 0.15%float)
       = (Raise (sqlite3_Error "database is locked"), m',
          ["Ошибка при сохранении записи: database is locked"])
    /\ (Database.get_all_records (DatabaseManager._cursor m')).1
       = Return (saved :: map Database.dict_of_row
                            (Database.order_by_timestamp_desc three_records))
    /\ saved !! "id" = Some (Database.SqlInteger 4).
Proof.
  destruct (saved_record_is_listed_first example_adapt example_next_rowid
              example_manager three_records "2024-05-02T09:00:00" "Утюг"
              (NFloat 2000%float) (NFloat 2%float) (NFloat 4%float)
              (NFloat 0.6%float) (NFloat 0.15%float)
              (Database.SqlInteger 2000, Database.SqlReal 2%float,
               Database.SqlReal 4%float, Database.SqlReal 0.6%float,
               Database.SqlReal 0.15%float)
              (map Database.dict_of_row
                 (Database.order_by_timestamp_desc three_records))
              eq_refl eq_refl ltac:(repeat constructor) eq_refl)
    as (m' & saved & Hsave & Hlocked & Hlist & _ & _ & Hid).
  exists m', saved. rewrite Hsave, (Hlocked "database is locked"), Hlist.
  by repeat split.
Defined.

Lemma every_listed_record_has_the_columns_of_its_row_witness :
  exists records,
    Database.get_all_records (Database.Readable three_records)
    = (Return records, [])
    /\ Forall2
         (fun tuple (d : Database.record_dict float) =>
            d !! "когда" = None
            /\ d !! "id" = tuple !! 0%nat
            /\ d !! "timestamp" = tuple !! 7%nat)
         (map Database.as_tuple
            (Database.order_by_timestamp_desc three_records))
         records.
Proof.
  destruct (every_listed_record_has_the_columns_of_its_row
              (map Database.as_tuple
                 (Database.order_by_timestamp_desc three_records))
              Database.column_names ltac:(repeat constructor))
    as (records & Hrun & Hall).
  exists records. split.
  - unfold Database.get_all_records, Database.execute_select_all.
    cbn [rbind]. by rewrite Hrun.
  - eapply Forall2_impl; [exact Hall|].
    intros tuple d [Hkeys Hlast]. split; [|split].
    + destruct (d !! "когда") as [v|] eqn:Hd; [|done].
      assert (Hin : "когда" ∈ Database.column_names).
      { apply Hkeys. rewrite Hd. by eexists. }
      unfold Database.column_names in Hin.
      repeat (apply elem_of_cons in Hin as [Hin|Hin]; [discriminate Hin|]).
      by apply elem_of_nil in Hin.
    + apply (Hlast 0%nat "id" eq_refl).
      intros j' Hlt Hj'. do 8 (destruct j' as [|j']; [try lia; discriminate Hj'|]).
      discriminate Hj'.
    + apply (Hlast 7%nat "timestamp" eq_refl).
      intros j' Hlt Hj'. do 8 (destruct j' as [|j']; [lia|]).
      discriminate Hj'.
Defined.

Lemma next_named_gives_the_first_with_the_name_witness :
  let w := two_kilowatt_household true in
  next_named (map PyRef [1%positive; 2%positive; 3%positive])
    "Стиральная машина" w
  = (Return (Some 3%positive), w)
  /\ next_named (map PyRef [1%positive; 2%positive; 3%positive]) "Пылесос" w
     = (Return None, w).
Proof.
  intros w.
  destruct (next_named_gives_the_first_with_the_name w
              [1%positive; 2%positive; 3%positive]
              [iron_of (NInt 2000) true; tv_of (NInt 150) false;
               washer_of (NFloat 2200%float) true]
              ltac:(repeat constructor)) as [Hfound Hnone].
  split.
  - apply (Hfound 2%nat 3%positive (washer_of (NFloat 2200%float) true)
             eq_refl eq_refl).
    intros j a' Hj Ha'. destruct j as [|[|j]]; [| |lia];
      injection Ha' as <-; discriminate.
  - apply Hnone. simpl. intros Hin.
    repeat (apply elem_of_cons in Hin as [Hin|Hin]; [discriminate Hin|]).
    by apply elem_of_nil in Hin.
Defined.

Lemma save_details_tries_every_detail_witness :
  let w := two_kilowatt_household true in
  exists db' w',
    save_details example_adapt example_next_rowid example_clock
      example_commits example_exn_text 4%positive
      (map PyRef [1%positive; 2%positive; 3%positive]) (NFloat 2%float)
      two_hour_details ((DatabaseManager.close example_manager).1, 0%nat) w
    = (Return (db', 3%nat), w')
    /\ heap w' = heap w
    /\ DatabaseManager.db_name db' = "energy_consumption.db".
Proof.
  exact (save_details_tries_every_detail example_adapt example_next_rowid
           example_clock example_commits example_exn_text
           (two_kilowatt_household true)
           4%positive two_kilowatt_calculator
           [1%positive; 2%positive; 3%positive] two_kilowatt_appliances
           (NFloat 2%float) two_hour_details
           (DatabaseManager.close example_manager).1 0%nat
           eq_refl ltac:(repeat constructor) ltac:(repeat constructor)).
Defined.

Lemma details_of_a_total_are_all_saved_witness :
  let w := two_kilowatt_household true in
  exists db' w',
    save_details example_adapt example_next_rowid example_clock
      example_commits example_exn_text 4%positive
      [PyRef 1%positive; PyRef 2%positive; PyRef 3%positive] (NFloat 2%float)
      two_hour_details (example_manager, 0%nat) w
    = (Return (db', 3%nat), w')
    /\ heap w' = heap w.
Proof.
  exact (details_of_a_total_are_all_saved example_adapt example_next_rowid
           example_clock example_commits example_exn_text
           (two_kilowatt_household true)
           4%positive two_kilowatt_calculator
           [1%positive; 2%positive; 3%positive] two_kilowatt_appliances
           (NFloat 2%float)
           (mkResult (NFloat 8.4%float) (NFloat 1.26%float) two_hour_details)
           example_manager 0%nat
           eq_refl eq_refl ltac:(repeat constructor) eq_refl eq_refl).
Defined.

Lemma saved_rows_follow_the_details_witness :
  let w := two_kilowatt_household true in
  exists db' w' rows,
    save_details example_adapt example_next_rowid example_clock
      example_commits example_exn_text 4%positive
      (map PyRef [1%positive; 2%positive; 3%positive]) (NFloat 2%float)
      two_hour_details (example_manager, 0%nat) w
    = (Return (db', 3%nat), w')
    /\ DatabaseManager._cursor db' = Database.Readable (three_records ++ rows)
    /\ map Database.appliance_name rows
       = ["Утюг"; "Телевизор"; "Стиральная машина"]
    /\ map Database.timestamp rows
       = ["2024-05-02T09:00:00"; "2024-05-02T09:00:01"; "2024-05-02T09:00:02"].
Proof.
  refine (saved_rows_follow_the_details example_adapt example_next_rowid
            example_clock example_commits example_exn_text
            (two_kilowatt_household true)
            4%positive two_kilowatt_calculator
            [1%positive; 2%positive; 3%positive] two_kilowatt_appliances
            (NFloat 2%float) two_hour_details example_manager 0%nat
            three_records
            eq_refl ltac:(repeat constructor) ltac:(repeat constructor)
            eq_refl _ _).
  - intros d a Hd Ha _. unfold two_hour_details in Hd.
    unfold two_kilowatt_appliances in Ha.
    repeat (apply elem_of_cons in Hd as [->|Hd]);
      try (by apply elem_of_nil in Hd);
      repeat (apply elem_of_cons in Ha as [->|Ha]);
      try (by apply elem_of_nil in Ha);
      eexists; vm_compute; reflexivity.
  - intros k e t'. by destruct k as [|[|k]].
Defined.
